(** * Phase-shift evaluation of the suspension tester

    Shallow embedding of the phase-shift calculation of the suspension
    tester: the optimised Python calculator ([OptimizedPhaseCalculator],
    processing/data_processor.py), the C extension [phase_shift_c]
    (processing/ring_buffer.py), the RFAmax computation of the EGEA
    library and the axle imbalance formula.

    Numbers.  Every [float]/[double] of the source is modelled by an exact
    rational ([Q]); rounding is not modelled, with one exception.  The
    places where the source leaves the rationals are modelled explicitly:
    - a division by zero inside the Numba-compiled Python helpers raises
      [ZeroDivisionError] (Numba's default error model);
    - in C, and on NumPy scalars, a division by zero gives an infinity or
      a NaN: an infinite frequency fails the band test, and a NaN is
      carried as [None] in an [option Q];
    - where doubles are cut to array positions ([np.linspace] with
      [dtype=int]) the rounding decides the position, and every operation
      rounds its result to the nearest double ([round_double]). *)

From Stdlib Require Import String QArith Qabs Qround Qpower ZArith Bool Arith Lia
  Lqa List.
Import ListNotations.

Open Scope Q_scope.

(** ** Exceptions and the result of a call *)

Inductive py_error : Type :=
| ZeroDivisionError
| IndexError
| ValueError
| TypeError.

Inductive result (A : Type) : Type :=
| Ok (a : A)
| Raise (e : py_error).

Arguments Ok {A} a.
Arguments Raise {A} e.

Definition rbind {A B : Type} (c : result A) (k : A -> result B) : result B :=
  match c with
  | Ok a => k a
  | Raise e => Raise e
  end.

Notation "x <- c ;; k" := (rbind c (fun x => k))
  (at level 61, c at next level, right associativity).

(** The releases of NumPy that the requirements of the repository admit
    ([numpy >= 1.21.0]) fall into two groups by what the truth test of an
    empty array does: up to 2.1 it is [False], from 2.2 on it raises. *)
Inductive numpy_release : Type :=
| before_2_2
| from_2_2.

(** [for i in idx: s = body(i, s)], stopping at the first exception. *)
Fixpoint for_each {S : Type} (idx : list nat) (body : nat -> S -> result S)
  (s : S) : result S :=
  match idx with
  | [] => Ok s
  | i :: rest => s' <- body i s ;; for_each rest body s'
  end.

(** [range(a, b)] *)
Definition range (a b : nat) : list nat := seq a (b - a).

(** ** Numeric helpers *)

Definition Qlt_bool (a b : Q) : bool := negb (Qle_bool b a).
Definition Qge_bool (a b : Q) : bool := Qle_bool b a.
Definition Qgt_bool (a b : Q) : bool := Qlt_bool b a.
Definition Qis_zero (a : Q) : bool := Qeq_bool a 0.

Definition Qmax (a b : Q) : Q := if Qle_bool a b then b else a.
Definition Qmin (a b : Q) : Q := if Qle_bool a b then a else b.

(** Python's [x % m] on floats: the result has the sign of [m]. *)
Definition py_mod (x m : Q) : Q := x - m * inject_Z (Qfloor (x / m)).

(** C's [fmod]: the result has the sign of [x]. *)
Definition Qtrunc (x : Q) : Z := if Qle_bool 0 x then Qfloor x else Qceiling x.
Definition fmod (x m : Q) : Q := x - m * inject_Z (Qtrunc (x / m)).

(** Python float division. *)
Definition py_div (a b : Q) : result Q :=
  if Qis_zero b then Raise ZeroDivisionError else Ok (a / b).

(** IEEE division, as in C and on NumPy scalars; [None] when the quotient
    is not a finite number. *)
Definition ieee_div (a b : Q) : option Q :=
  if Qis_zero b then None else Some (a / b).

(** ** Rounding to a double

    The result of an arithmetic operation on doubles is the exact result
    rounded to the nearest number [m * 2^e] with an integer [m] of at
    most 53 bits, ties going to the even [m] (IEEE 754 binary64).  The
    exponent [e] is not smaller than -1074 (gradual underflow); overflow
    to an infinity, from 2^1024 on, is not modelled. *)

(** Rounding to the nearest integer, ties to even. *)
Definition round_half_even (s : Q) : Z :=
  let f := Qfloor s in
  let r := s - inject_Z f in
  if Qlt_bool r (1 # 2) then f
  else if Qlt_bool (1 # 2) r then (f + 1)%Z
  else if Z.even f then f else (f + 1)%Z.

(** For [q > 0]: the exponent [e] with [2^52 <= q / 2^e < 2^53]. *)
Definition normal_exponent (q : Q) : Z :=
  let e0 := (Z.log2 (Qnum q) - Z.log2 (Zpos (Qden q)) - 52)%Z in
  if Qlt_bool (q / 2 ^ e0) (2 ^ 52) then (e0 - 1)%Z else e0.

Definition exponent (q : Q) : Z := Z.max (normal_exponent q) (-1074).

Definition round_positive (q : Q) : Q :=
  let e := exponent q in
  inject_Z (round_half_even (q / 2 ^ e)) * 2 ^ e.

Definition round_double (q : Q) : Q :=
  if Qis_zero q then 0
  else if Qlt_bool q 0 then - round_positive (- q)
  else round_positive q.

(** ** Sequences *)

(** [l[i]] on a Python sequence, [i >= 0]. *)
Definition py_get (l : list Q) (i : nat) : result Q :=
  match nth_error l i with
  | Some x => Ok x
  | None => Raise IndexError
  end.

(** [l[-1]] *)
Definition py_last (l : list Q) : result Q :=
  match l with
  | [] => Raise IndexError
  | _ => Ok (last l 0)
  end.

(** [l[a:b]] for [0 <= a], [0 <= b]. *)
Definition py_slice {A : Type} (l : list A) (a b : nat) : list A :=
  firstn (b - a) (skipn a l).

(** [a[i]] for an index that the loops of the source keep inside the
    bounds of the array. *)
Definition item (a : list Q) (i : nat) : Q := nth i a 0.

(** [peaks[-1]] of the list of peak indices found so far. *)
Definition last_peak (peaks : list nat) : nat := last peaks 0%nat.

(** ** The result dictionary

    Both paths return a dictionary that is either
    [{'valid': False, 'error': msg}] or
    [{'valid': True, 'min_phase_shift': .., 'min_phase_freq': ..,
      'phase_shifts': .., 'frequencies': ..}]. *)

Inductive phase_result : Type :=
| Invalid (error : string)
| Valid (min_phase_shift min_phase_freq : Q) (phase_shifts frequencies : list Q).

Definition valid (r : phase_result) : bool :=
  match r with
  | Invalid _ => false
  | Valid _ _ _ _ => true
  end.

Definition phase_shifts_of (r : phase_result) : list Q :=
  match r with
  | Invalid _ => []
  | Valid _ _ ps _ => ps
  end.

(** ** The C extension, phase_shift_c.c *)

Module C.

(** A C [double] that may be a NaN ([None]). *)
Definition double : Type := option Q.

Definition dlift2 (op : Q -> Q -> Q) (a b : double) : double :=
  match a, b with
  | Some x, Some y => Some (op x y)
  | _, _ => None
  end.

(** [a >= b], false on a NaN. *)
Definition dge (a : double) (b : Q) : bool :=
  match a with
  | Some x => Qge_bool x b
  | None => false
  end.

Record CycleData : Type := {
  start_idx : nat;
  end_idx : nat;
  frequency : Q;
  phase_shift : Q;
  valid : bool
}.

(** [find_peaks(data, n, peaks, max_peaks, min_distance)].
    The window is [start <= j < end] with [end = min(i + 5, n)]. *)
Definition is_max (data : list Q) (n i : nat) : bool :=
  let window := 5%nat in
  let start := (i - window)%nat in
  let end_ := if (i + window <? n)%nat then (i + window)%nat else n in
  forallb (fun j => negb (negb (j =? i)%nat && Qge_bool (item data j) (item data i)))
          (range start end_).

Definition find_peaks_step (data : list Q) (n max_peaks min_distance i : nat)
  (peaks : list nat) : list nat :=
  if (length peaks <? max_peaks)%nat then
    if Qgt_bool (item data i) (item data (i - 1))
       && Qgt_bool (item data i) (item data (i + 1)) then
      if (length peaks =? 0)%nat || (min_distance <=? i - last_peak peaks)%nat then
        if is_max data n i then peaks ++ [i] else peaks
      else peaks
    else peaks
  else peaks.

Definition find_peaks (data : list Q) (n max_peaks min_distance : nat) : list nat :=
  fold_left (fun peaks i => find_peaks_step data n max_peaks min_distance i peaks)
            (range 1 (n - 1)) [].

(** The interpolated crossing time written into [crossings[]]. *)
Definition cross_time (f0 f1 t0 t1 static_weight : Q) : double :=
  let frac := ieee_div (static_weight - f0) (f1 - f0) in
  dlift2 Qplus (Some t0) (dlift2 Qmult frac (Some (t1 - t0))).

Definition crossing_step (force time : list Q) (static_weight : Q) (i : nat)
  (crossings : list double) : list double :=
  if (length crossings <? 100)%nat then
    let f0 := item force (i - 1) in
    let f1 := item force i in
    if Qle_bool f0 static_weight && Qle_bool static_weight f1 then
      crossings ++ [cross_time f0 f1 (item time (i - 1)) (item time i) static_weight]
    else if Qge_bool f0 static_weight && Qge_bool static_weight f1 then
      crossings ++ [cross_time f0 f1 (item time (i - 1)) (item time i) static_weight]
    else crossings
  else crossings.

Definition find_crossings (force time : list Q) (start end_ : nat)
  (static_weight : Q) : list double :=
  fold_left (fun crossings i => crossing_step force time static_weight i crossings)
            (range (start + 1) end_) [].

(** Normalisation of the phase to 0..180 degrees. *)
Definition normalize (phase_shift : Q) : Q :=
  let p := fmod phase_shift 360 in
  let p := if Qlt_bool p 0 then p + 360 else p in
  if Qgt_bool p 180 then 360 - p else p.

(** [calculate_cycle_phase(force, time, start, end, static_weight, NULL)] *)
Definition calculate_cycle_phase (force time : list Q) (start end_ : nat)
  (static_weight : Q) : double :=
  let n := (end_ - start)%nat in
  if (n <? 3)%nat then Some (-1)
  else
    let crossings := find_crossings force time start end_ static_weight in
    if (length crossings <? 2)%nat then Some (-1)
    else
      let fref := dlift2 Qdiv
                    (dlift2 Qplus (nth 0 crossings None) (nth 1 crossings None))
                    (Some 2) in
      let cycle_duration := item time (end_ - 1) - item time start in
      match fref with
      | None => None
      | Some fref =>
          match ieee_div (fref - item time start) cycle_duration with
          | None => None
          | Some r => Some (normalize (r * 360))
          end
      end.

(** One iteration of the loop over the cycles of [calculate_phase_shift]. *)
Definition cycle_step (force time : list Q) (static_weight min_freq max_freq : Q)
  (peaks : list nat) (i : nat) (cycles : list CycleData) : list CycleData :=
  let start := nth (i - 1) peaks 0%nat in
  let end_ := nth i peaks 0%nat in
  match ieee_div 1 (item time (end_ - 1) - item time start) with
  | None => cycles
  | Some frequency =>
      if Qlt_bool frequency min_freq || Qgt_bool frequency max_freq then cycles
      else
        let phase := calculate_cycle_phase force time start end_ static_weight in
        match phase with
        | Some p =>
            if dge phase 0 then
              cycles ++ [{| start_idx := start; end_idx := end_;
                            frequency := frequency; phase_shift := p;
                            valid := true |}]
            else cycles
        | None => cycles
        end
  end.

(** The search for the minimum: the first cycle with the smallest phase. *)
Definition min_step (cycles : list CycleData) (i : nat) (m : Q * Q * nat)
  : Q * Q * nat :=
  let '(min_phase, min_freq, min_idx) := m in
  match nth_error cycles i with
  | Some c =>
      if Qlt_bool (phase_shift c) min_phase
      then (phase_shift c, frequency c, i)
      else m
  | None => m
  end.

(** [PyArg_ParseTuple(args, "O!O!O!dddd", ...)].  The tuple of arguments
    is modelled by its three leading array objects and the list of the
    float objects that follow them.  The format has four units [d]: it
    takes [static_weight], [min_freq], [max_freq] and [rfst_fmin], and
    any other number of floats makes the parse fail with a [TypeError]
    ([None]).  The call names a fifth target, [&rfst_fmax], for which the
    format has no unit: nothing is ever stored in it. *)
Definition PyArg_ParseTuple (floats : list Q) : option (Q * Q * Q * Q) :=
  match floats with
  | [static_weight; min_freq; max_freq; rfst_fmin] =>
      Some (static_weight, min_freq, max_freq, rfst_fmin)
  | _ => None
  end.

(** [calculate_phase_shift(self, args)].  [rfst_fmin] is parsed and never
    read.  The source declares [min_freq] a second time for the minimum
    search, which a C compiler refuses; the model reads the second
    declaration as a variable of its own, [min_freq']. *)
Definition calculate_phase_shift (platform force time : list Q)
  (floats : list Q) : result phase_result :=
  match PyArg_ParseTuple floats with
  | None => Raise TypeError
  | Some (static_weight, min_freq, max_freq, rfst_fmin) =>
  let n := length platform in
  if negb (length force =? n)%nat || negb (length time =? n)%nat then
    Raise ValueError
  else
    let peaks := find_peaks platform n (n / 10) 50 in
    let peak_count := length peaks in
    if (peak_count <? 2)%nat then Ok (Invalid "Not enough peaks found")
    else
      let cycles :=
        fold_left (fun cycles i =>
                     cycle_step force time static_weight min_freq max_freq peaks i cycles)
                  (range 1 peak_count) [] in
      let valid_cycles := length cycles in
      match cycles with
      | [] => Ok (Invalid "No valid cycles found")
      | c0 :: _ =>
          let '(min_phase, min_freq', _) :=
            fold_left (fun m i => min_step cycles i m)
                      (range 1 valid_cycles)
                      (phase_shift c0, frequency c0, 0%nat) in
          Ok (Valid min_phase min_freq'
                    (map phase_shift cycles) (map frequency cycles))
      end
  end.

End C.

(** ** The calculator object and its methods *)

Record OptimizedPhaseCalculator : Type := {
  min_freq : Q;
  max_freq : Q;
  rfst_fmin : Q;
  rfst_fmax : Q;
  _cache : list (string * Q);
  (** [true] when [from . import phase_shift_c] succeeded *)
  _c_extension : bool
}.

(** A method runs on [self]: it may read and write the attributes and it
    returns a value or raises. *)
Definition method (A : Type) : Type :=
  OptimizedPhaseCalculator -> result A * OptimizedPhaseCalculator.

Definition mret {A : Type} (a : A) : method A := fun self => (Ok a, self).

Definition mbind {A B : Type} (c : method A) (k : A -> method B) : method B :=
  fun self =>
    match c self with
    | (Ok a, self') => k a self'
    | (Raise e, self') => (Raise e, self')
    end.

(** [self.attr] *)
Definition attr {A : Type} (get : OptimizedPhaseCalculator -> A) : method A :=
  fun self => (Ok (get self), self).

(** A call of a static method or of a function of the extension module. *)
Definition call {A : Type} (r : result A) : method A := fun self => (r, self).

Notation "x <~ c ;; k" := (mbind c (fun x => k))
  (at level 61, c at next level, right associativity).

Fixpoint for_each_m {S : Type} (idx : list nat) (body : nat -> S -> method S)
  (s : S) : method S :=
  match idx with
  | [] => mret s
  | i :: rest => s' <~ body i s ;; for_each_m rest body s'
  end.

Module Py.

(** [__init__]; [c_available] tells whether the import of the extension
    succeeds. *)
Definition __init__ (c_available : bool) : OptimizedPhaseCalculator :=
  {| min_freq := 6; max_freq := 18; rfst_fmin := 25; rfst_fmax := 25;
     _cache := []; _c_extension := c_available |}.

(** *** [_find_peaks_fast] *)

Definition local_max (data : list Q) (n i : nat) : bool :=
  forallb (fun j => negb (negb (j =? i)%nat && Qge_bool (item data j) (item data i)))
          (range (Nat.max 0 (i - 5)) (Nat.min n (i + 6))).

Definition find_peaks_step (data : list Q) (n min_distance i : nat)
  (peaks : list nat) : list nat :=
  if Qgt_bool (item data i) (item data (i - 1))
     && Qgt_bool (item data i) (item data (i + 1)) then
    if match peaks with [] => true | _ => false end
       || (min_distance <=? i - last_peak peaks)%nat then
      if (5 <=? i)%nat && (i <? n - 5)%nat then
        if local_max data n i then peaks ++ [i] else peaks
      else peaks
    else peaks
  else peaks.

Definition _find_peaks_fast (data : list Q) (min_distance : nat) : list nat :=
  let n := length data in
  fold_left (fun peaks i => find_peaks_step data n min_distance i peaks)
            (range 1 (n - 1)) [].

(** *** [_calculate_phase_fast] *)

(** The two lines shared by the up and the down branch.  An index past the
    end of an array raises [IndexError] here; compiled by Numba the code
    does not check the bounds and reads what lies behind the array.  The
    two differ only when [time_data] is shorter than [force_data]. *)
Definition cross_time (force_data time_data : list Q) (static_weight : Q)
  (i : nat) : result Q :=
  f0 <- py_get force_data (i - 1) ;;
  f1 <- py_get force_data i ;;
  frac <- py_div (static_weight - f0) (f1 - f0) ;;
  t0 <- py_get time_data (i - 1) ;;
  t1 <- py_get time_data i ;;
  Ok (t0 + frac * (t1 - t0)).

Definition crossing_step (force_data time_data : list Q) (static_weight : Q)
  (i : nat) (crossings : list Q) : result (list Q) :=
  f0 <- py_get force_data (i - 1) ;;
  f1 <- py_get force_data i ;;
  if Qle_bool f0 static_weight && Qle_bool static_weight f1 then
    c <- cross_time force_data time_data static_weight i ;;
    Ok (crossings ++ [c])
  else if Qge_bool f0 static_weight && Qge_bool static_weight f1 then
    c <- cross_time force_data time_data static_weight i ;;
    Ok (crossings ++ [c])
  else Ok crossings.

Definition find_crossings (force_data time_data : list Q) (static_weight : Q)
  : result (list Q) :=
  for_each (range 1 (length force_data))
           (crossing_step force_data time_data static_weight) [].

(** Normalisation of the phase to 0..180 degrees. *)
Definition normalize (phase_shift : Q) : Q :=
  let p := py_mod phase_shift 360 in
  if Qgt_bool p 180 then 360 - p else p.

Definition _calculate_phase_fast (force_data time_data : list Q)
  (static_weight : Q) : result Q :=
  crossings <- find_crossings force_data time_data static_weight ;;
  if (length crossings <? 2)%nat then Ok (-1)
  else
    c0 <- py_get crossings 0 ;;
    c1 <- py_get crossings 1 ;;
    let fref := (c0 + c1) / 2 in
    tl <- py_last time_data ;;
    t0 <- py_get time_data 0 ;;
    let cycle_duration := tl - t0 in
    t0 <- py_get time_data 0 ;;
    r <- py_div (fref - t0) cycle_duration ;;
    Ok (normalize (r * 360)).

(** *** [_analyze_cycles_vectorized] *)

(** [phase is not None]: the phase is a float. *)
Definition is_not_None (phase : Q) : bool := true.

(** [lo <= x <= hi] for a NumPy scalar [x] that may be infinite ([None]). *)
Definition in_band (lo : Q) (x : option Q) (hi : Q) : bool :=
  match x with
  | Some f => Qle_bool lo f && Qle_bool f hi
  | None => false
  end.

Definition py_get_nat (l : list nat) (i : nat) : result nat :=
  match nth_error l i with
  | Some x => Ok x
  | None => Raise IndexError
  end.

Definition cycle_step (force_data time_data : list Q) (static_weight : Q)
  (peaks : list nat) (i : nat) (acc : list Q * list Q)
  : method (list Q * list Q) :=
  let '(phase_shifts, frequencies) := acc in
  start_idx <~ call (py_get_nat peaks (i - 1)) ;;
  end_idx <~ call (py_get_nat peaks i) ;;
  let cycle_time := py_slice time_data start_idx end_idx in
  let cycle_force := py_slice force_data start_idx end_idx in
  tl <~ call (py_last cycle_time) ;;
  t0 <~ call (py_get cycle_time 0) ;;
  let frequency := ieee_div 1 (tl - t0) in
  lo <~ attr min_freq ;;
  hi <~ attr max_freq ;;
  if negb (in_band lo frequency hi) then mret acc
  else
    match frequency with
    | None => mret acc
    | Some frequency =>
        phase <~ call (_calculate_phase_fast cycle_force cycle_time static_weight) ;;
        if is_not_None phase
        then mret (phase_shifts ++ [phase], frequencies ++ [frequency])
        else mret acc
    end.

Definition _analyze_cycles_vectorized (platform_data force_data time_data : list Q)
  (static_weight : Q) (peaks : list nat) : method (list Q * list Q) :=
  for_each_m (range 1 (length peaks))
             (cycle_step force_data time_data static_weight peaks) ([], []).

(** *** [_calculate_optimized_python] *)

(** [not results['phase_shifts']] asks for the truth value of a NumPy
    array: an array of one element has the truth value of that element
    and any longer array raises [ValueError]; an empty array is false up
    to NumPy 2.1 and raises [ValueError] from NumPy 2.2 on. *)
Definition np_truth (numpy : numpy_release) (a : list Q) : result bool :=
  match a with
  | [] =>
      match numpy with
      | before_2_2 => Ok false
      | from_2_2 => Raise ValueError
      end
  | [x] => Ok (negb (Qis_zero x))
  | _ => Raise ValueError
  end.

(** [np.argmin]: the first index of the smallest element. *)
Fixpoint argmin_from (best : Q) (best_idx idx : nat) (l : list Q) : nat :=
  match l with
  | [] => best_idx
  | x :: rest =>
      if Qlt_bool x best then argmin_from x idx (S idx) rest
      else argmin_from best best_idx (S idx) rest
  end.

Definition np_argmin (a : list Q) : result nat :=
  match a with
  | [] => Raise ValueError
  | x :: rest => Ok (argmin_from x 0%nat 1%nat rest)
  end.

Definition _calculate_optimized_python (numpy : numpy_release)
  (platform_data force_data time_data : list Q)
  (static_weight : Q) : method phase_result :=
  let platform_peaks := _find_peaks_fast platform_data 50 in
  if (length platform_peaks <? 2)%nat
  then mret (Invalid "Nicht genug Peaks gefunden")
  else
    results <~ _analyze_cycles_vectorized platform_data force_data time_data
                 static_weight platform_peaks ;;
    let '(phase_shifts, frequencies) := results in
    truth <~ call (np_truth numpy phase_shifts) ;;
    if negb truth then mret (Invalid "Keine gültigen Zyklen")
    else
      min_idx <~ call (np_argmin phase_shifts) ;;
      m <~ call (py_get phase_shifts min_idx) ;;
      f <~ call (py_get frequencies min_idx) ;;
      mret (Valid m f phase_shifts frequencies).

(** *** [_calculate_with_c_extension] and [calculate]

    The call passes eight arguments: the three arrays and five floats. *)

Definition _calculate_with_c_extension (platform_data force_data time_data : list Q)
  (static_weight : Q) : method phase_result :=
  lo <~ attr min_freq ;;
  hi <~ attr max_freq ;;
  fmin <~ attr rfst_fmin ;;
  fmax <~ attr rfst_fmax ;;
  call (C.calculate_phase_shift platform_data force_data time_data
          [static_weight; lo; hi; fmin; fmax]).

Definition calculate (numpy : numpy_release)
  (platform_data force_data time_data : list Q)
  (static_weight : Q) : method phase_result :=
  ext <~ attr _c_extension ;;
  if ext
  then _calculate_with_c_extension platform_data force_data time_data static_weight
  else _calculate_optimized_python numpy platform_data force_data time_data
         static_weight.

End Py.

(** ** RFAmax, EGEA library (egea/README.md, [calculate_rfa_max]) *)

(** [max(a, b)] of Python: [b] only when it is strictly greater. *)
Definition py_max (a b : Q) : Q := if Qlt_bool a b then b else a.

(** [abs(x)] *)
Definition py_abs (x : Q) : Q := if Qlt_bool x 0 then - x else x.

(** [np.min] and [np.max]; both raise [ValueError] on an empty array. *)
Definition np_min (a : list Q) : result Q :=
  match a with
  | [] => Raise ValueError
  | x :: rest => Ok (fold_left Qmin rest x)
  end.

Definition np_max (a : list Q) : result Q :=
  match a with
  | [] => Raise ValueError
  | x :: rest => Ok (fold_left Qmax rest x)
  end.

(** The signal processor of the EGEA library.  Its overflow and underflow
    detection is not part of the sources at hand, so it is a field of the
    processor object; it returns [(f_under_flag, f_over_flag)]. *)
Record EGEASignalProcessor : Type := {
  detect_signal_overflow_underflow : list Q -> Q -> bool * bool
}.

Record EGEAProcessor : Type := {
  signal_processor : EGEASignalProcessor
}.

(** Returns [(rfa_max, fa_max, f_under_flag, f_over_flag)]. *)
Definition calculate_rfa_max (processor : EGEAProcessor) (tire_force : list Q)
  (static_weight : Q) : result (Q * Q * bool * bool) :=
  let '(f_under_flag, f_over_flag) :=
    detect_signal_overflow_underflow (signal_processor processor)
      tire_force static_weight in
  fmin <- np_min tire_force ;;
  fmax <- np_max tire_force ;;
  let fa_max :=
    if negb f_under_flag && negb f_over_flag then static_weight - fmin
    else if f_under_flag && negb f_over_flag then fmax - static_weight
    else py_max (fmax - static_weight) (static_weight - fmin) in
  let rfa_max :=
    if Qgt_bool static_weight 0 then (fa_max / static_weight) * 100 else 0 in
  Ok (rfa_max, fa_max, f_under_flag, f_over_flag).

(** ** Axle imbalance ([SuspensionTestController._calculate_difference_percent]) *)

Definition _calculate_difference_percent (val1 val2 : Q) : Q :=
  if Qis_zero val1 && Qis_zero val2 then 0
  else
    let max_val := py_max (py_abs val1) (py_abs val2) in
    if Qis_zero max_val then 0
    else py_abs (val1 - val2) / max_val * 100.

(** ** The formulas as the specification words them

    These definitions follow the text of the specification, not the
    code; they are what the code is compared with.  Two details that the
    specification leaves open are taken from the repository: a crossing
    is up or down as the two branches of the scan label it, and the
    validity band is the one of the technical documentation
    ([f_min_limit < static_weight < f_max_limit]). *)

Module Spec.

(** D(val_l, val_r) = |val_l - val_r| / max(val_l, val_r) * 100 *)
Definition imbalance (val_l val_r : Q) : Q :=
  Qabs (val_l - val_r) / Qmax val_l val_r * 100.

(** Index of the first maximal sample of [platform_position] inside
    [start_index .. end_index], both ends included. *)
Definition peak_index (platform_position : list Q) (start_index end_index : nat)
  : nat :=
  fold_left (fun best i =>
               if Qlt_bool (item platform_position best) (item platform_position i)
               then i else best)
            (range (start_index + 1) (end_index + 1)) start_index.

(** TOPp(i): the time of the true platform peak of the cycle. *)
Definition TOPp (time platform_position : list Q) (start_index end_index : nat) : Q :=
  item time (peak_index platform_position start_index end_index).

(** phi(i) = ((Fref(i) - TOPp(i)) mod (1/frequency)) * frequency * 360,
    then 360 - phi whenever phi > 180. *)
Definition phi (fref topp frequency : Q) : Q :=
  let p := py_mod (fref - topp) (1 / frequency) * frequency * 360 in
  if Qgt_bool p 180 then 360 - p else p.

Inductive direction : Type := Down | Up.

(** The crossings of one cycle with their direction: up where the force
    rises through the static weight, down where it falls through it. *)
Definition crossing_at (force time : list Q) (static_weight : Q) (i : nat)
  : list (direction * Q) :=
  let f0 := item force (i - 1) in
  let f1 := item force i in
  let t0 := item time (i - 1) in
  let t1 := item time i in
  let t_cross := t0 + (static_weight - f0) / (f1 - f0) * (t1 - t0) in
  if Qle_bool f0 static_weight && Qle_bool static_weight f1 then [(Up, t_cross)]
  else if Qge_bool f0 static_weight && Qge_bool static_weight f1 then [(Down, t_cross)]
  else [].

Definition crossings (force time : list Q) (static_weight : Q)
  : list (direction * Q) :=
  flat_map (crossing_at force time static_weight) (range 1 (length force)).

(** The validity band: the static weight has to lie above the lowest
    [rfst_fmin] percent and below the highest [rfst_fmax] percent of the
    force range of the cycle. *)
Definition in_validity_band (force : list Q) (static_weight rfst_fmin rfst_fmax : Q)
  : bool :=
  match np_min force, np_max force with
  | Ok lo, Ok hi =>
      let delta_f := hi - lo in
      Qlt_bool (lo + delta_f * rfst_fmin / 100) static_weight
      && Qlt_bool static_weight (hi - delta_f * rfst_fmax / 100)
  | _, _ => false
  end.

Definition first_of (d : direction) (cs : list (direction * Q)) : option Q :=
  match filter (fun c => match fst c, d with
                         | Down, Down | Up, Up => true
                         | _, _ => false
                         end) cs with
  | [] => None
  | c :: _ => Some (snd c)
  end.

(** Fref: the midpoint of the first valid down-crossing and the first
    valid up-crossing; [None] when the cycle is invalid. *)
Definition Fref (force time : list Q) (static_weight rfst_fmin rfst_fmax : Q)
  : option Q :=
  if in_validity_band force static_weight rfst_fmin rfst_fmax then
    let cs := crossings force time static_weight in
    match first_of Down cs, first_of Up cs with
    | Some d, Some u => Some ((d + u) / 2)
    | _, _ => None
    end
  else None.

End Spec.

(** ** Measurement records used in the examples

    61 samples at 490 Hz; the platform has accepted peaks at the samples
    5 and 55, so there is one cycle, of 10 Hz. *)

Definition samples : list nat := seq 0 61.

Definition time_490Hz : list Q :=
  map (fun i => inject_Z (Z.of_nat i) / 490) samples.

Definition platform_two_peaks : list Q :=
  map (fun i => if (i =? 5)%nat || (i =? 55)%nat then 1 else 0) samples.

(** As above, with a higher sample 7 steps after the first peak; it is
    closer than [min_distance] to that peak and so is not a cycle limit. *)
Definition platform_late_top : list Q :=
  map (fun i => if (i =? 5)%nat || (i =? 55)%nat then 1
                else if (i =? 12)%nat then 2 else 0) samples.

(** The force stays above the static weight of 650. *)
Definition force_above : list Q := map (fun _ => 700) samples.

(** The force falls through 650 once and never comes back. *)
Definition force_one_crossing : list Q :=
  map (fun i => if (i <? 30)%nat then 700 else 600) samples.

(** The force falls through 650 between the samples 19 and 20 and rises
    through it between the samples 39 and 40. *)
Definition force_down_up : list Q :=
  map (fun i => if (i <? 20)%nat then 700
                else if (i <? 40)%nat then 600 else 700) samples.

(** As [force_down_up], but the sample 20 is exactly the static weight. *)
Definition force_touch : list Q :=
  map (fun i => if (i <? 20)%nat then 700
                else if (i =? 20)%nat then 650
                else if (i <? 40)%nat then 600 else 700) samples.

(** The force swings between 640 and 700: the static weight 650 lies in
    the lowest 25 percent of the force range. *)
Definition force_low_band : list Q :=
  map (fun i => if (i <? 20)%nat then 700
                else if (i <? 40)%nat then 640 else 700) samples.

(** Results are compared up to the reduction of fractions. *)
Definition reduce (r : result phase_result) : result phase_result :=
  match r with
  | Ok (Valid m f ps fs) => Ok (Valid (Qred m) (Qred f) (map Qred ps) (map Qred fs))
  | other => other
  end.

(** [read_only m]: the method [m] leaves every attribute of [self] as
    it found it, whether it returns or raises. *)
Definition read_only {A : Type} (m : method A) : Prop :=
  forall self, snd (m self) = self.

(** ** Vocabulary of the statements *)

(** [m] is the smallest (largest) element of [l]. *)
Definition is_minimum_of (m : Q) (l : list Q) : Prop :=
  In m l /\ forall y, In y l -> m <= y.

Definition is_maximum_of (m : Q) (l : list Q) : Prop :=
  In m l /\ forall y, In y l -> y <= m.

(** Two calculators that differ at most in [rfst_fmin] and [rfst_fmax]. *)
Definition same_but_rfst (a b : OptimizedPhaseCalculator) : Prop :=
  min_freq a = min_freq b /\ max_freq a = max_freq b
  /\ _cache a = _cache b /\ _c_extension a = _c_extension b.

(** [ignores_rfst m]: the method [m] returns the same value on two such
    calculators, and leaves them such. *)
Definition ignores_rfst {A : Type} (m : method A) : Prop :=
  forall a b, same_but_rfst a b ->
              fst (m a) = fst (m b) /\ same_but_rfst (snd (m a)) (snd (m b)).

(** The dictionary a call returned, if it returned. *)
Definition returned (r : result phase_result * OptimizedPhaseCalculator)
  : option phase_result :=
  match fst r with
  | Ok d => Some d
  | Raise _ => None
  end.

(** The platform has local maxima at the samples 3 and 55. *)
Definition platform_early_peak : list Q :=
  map (fun i => if (i =? 3)%nat || (i =? 55)%nat then 1 else 0) samples.

(** The samples of the one cycle of the records above. *)
Definition cycle_of (data : list Q) : list Q := py_slice data 5 55.

(** What the loop over the cycles of the C extension keeps: a frequency
    inside the band, both ends included, and a phase that is not
    negative. *)
Definition kept (lo hi : Q) (c : C.CycleData) : Prop :=
  lo <= C.frequency c /\ C.frequency c <= hi /\ 0 <= C.phase_shift c.

(** [is_minimum_so_far cycles k m]: [m] holds the phase, the frequency and
    the index of a cycle whose phase is the smallest among the first [k]
    cycles. *)
Definition is_minimum_so_far (cycles : list C.CycleData) (k : nat)
  (m : Q * Q * nat) : Prop :=
  let '(min_phase, min_freq, min_idx) := m in
  (exists c, nth_error cycles min_idx = Some c
             /\ min_phase = C.phase_shift c /\ min_freq = C.frequency c)
  /\ forall j c, (j < k)%nat -> nth_error cycles j = Some c ->
                 min_phase <= C.phase_shift c.

(** A record of 111 samples with platform peaks at the samples 5, 55 and
    105, that is two cycles of 10 Hz, each with a down- and an
    up-crossing. *)
Definition samples_111 : list nat := seq 0 111.

Definition time_111 : list Q :=
  map (fun i => inject_Z (Z.of_nat i) / 490) samples_111.

Definition platform_three_peaks : list Q :=
  map (fun i => if (i =? 5)%nat || (i =? 55)%nat || (i =? 105)%nat
                then 1 else 0) samples_111.

Definition force_two_cycles : list Q :=
  map (fun i => if (i mod 50 <? 20)%nat then 700
                else if (i mod 50 <? 40)%nat then 600 else 700) samples_111.

(** ** Tire rigidity, EGEA library (egea/README.md,
    [calculate_egea_rigidity]) *)

(** The parameters that the rigidity calculation reads. *)
Record EGEAParameters : Type := {
  A_RIG : Q;
  B_RIG : Q;
  RIG_LO_LIM : Q;
  RIG_HI_LIM : Q
}.

(** The processor object, as far as [calculate_egea_rigidity] uses it:
    its attribute [params]. *)
Record RigidityProcessor : Type := {
  params : EGEAParameters
}.

(** The dictionary returned; the two entries of the inner dictionary
    ['warnings'] are fields of their own. *)
Record RigidityResult : Type := {
  rigidity : Q;
  h25 : Q;
  platform_amplitude : Q;
  pressure_ok : bool;
  underinflation : bool;
  overinflation : bool
}.

Definition calculate_egea_rigidity (processor : RigidityProcessor)
  (h25_amplitude platform_amplitude : Q) : result RigidityResult :=
  let params := params processor in
  ratio <- py_div h25_amplitude platform_amplitude ;;
  let rigidity := A_RIG params * ratio + B_RIG params in
  let warning_underinflation := Qlt_bool rigidity (RIG_LO_LIM params) in
  let warning_overinflation := Qgt_bool rigidity (RIG_HI_LIM params) in
  Ok {| rigidity := rigidity;
        h25 := h25_amplitude;
        platform_amplitude := platform_amplitude;
        pressure_ok := negb (warning_underinflation || warning_overinflation);
        underinflation := warning_underinflation;
        overinflation := warning_overinflation |}.

(** ** Evaluation of the minimum phase ([PhaseShiftProcessor.
    evaluate_phase_shift], technical documentation) *)

(** [d[key]]: the value, or a [KeyError]. *)
Inductive lookup (A : Type) : Type :=
| Found (a : A)
| KeyError (key : string).

Arguments Found {A} a.
Arguments KeyError {A} key.

Fixpoint dict_get {A : Type} (d : list (string * A)) (key : string) : lookup A :=
  match d with
  | [] => KeyError key
  | (k, v) :: rest => if String.eqb k key then Found v else dict_get rest key
  end.

(** The dictionary returned: without a measured phase only ["pass"] and
    ["reason"], else ["pass"], ["min_phase"], ["threshold"] and
    ["integer_min_phase"]. *)
Inductive evaluation : Type :=
| NotMeasured (pass : bool) (reason : string)
| Evaluated (pass : bool) (min_phase threshold : Q) (integer_min_phase : Z).

(** [phase_data] maps keys to a float or to [None]; [TEST_PARAMETERS] is
    the module-level dictionary of thresholds. *)
Definition evaluate_phase_shift (TEST_PARAMETERS : list (string * Q))
  (phase_data : list (string * option Q)) (vehicle_type : string)
  : lookup evaluation :=
  match dict_get phase_data "min_phase_shift" with
  | KeyError k => KeyError k
  | Found None => Found (NotMeasured false "No valid phase shift measured")
  | Found (Some min_phase) =>
      match dict_get TEST_PARAMETERS "PHASE_SHIFT_MIN" with
      | KeyError k => KeyError k
      | Found absolute_threshold =>
          let absolute_pass := Qge_bool min_phase absolute_threshold in
          Found (Evaluated absolute_pass min_phase absolute_threshold
                           (Qtrunc min_phase))
      end
  end.

(** ** Effectiveness of the resonance method ([ResonanceProcessor.
    process_test], technical documentation) *)

(** [min(a, b)] of Python: [b] only when it is strictly smaller. *)
Definition py_min (a b : Q) : Q := if Qlt_bool b a then b else a.

(** [ideal_amplitude = weight * 0.05] *)
Definition _calculate_ideal_amplitude (weight : Q) : Q := weight * (5 # 100).

(** The effectiveness step of [process_test]. *)
Definition effectiveness_of (weight amplitude : Q) : Q :=
  let ideal_amplitude := _calculate_ideal_amplitude weight in
  if Qgt_bool amplitude 0 then
    let effectiveness := (ideal_amplitude / amplitude) * 70 in
    py_max 0 (py_min 100 effectiveness)
  else 0.

(** ** [interpolate] of phase_shift_c.c

    [y0 + (x - x0) * (y1 - y0) / (x1 - x0)]; [None] when the result is
    not a finite number. *)
Definition interpolate (x0 y0 x1 y1 x : Q) : option Q :=
  match ieee_div ((x - x0) * (y1 - y0)) (x1 - x0) with
  | Some q => Some (y0 + q)
  | None => None
  end.

(** ** The ring buffer ([RingBuffer], processing/ring_buffer.py) *)

Module Ring.

(** The keyword arguments stored with a data point. *)
Definition kwargs : Type := list (string * Q).

Record RingBuffer : Type := {
  capacity : nat;
  _platform_buffer : list Q;
  _force_buffer : list Q;
  _time_buffer : list Q;
  _freq_buffer : list Q;
  _phase_buffer : list Q;
  _write_idx : nat;
  _size : nat;
  (** [deque(maxlen=capacity)] *)
  _metadata : list kwargs
}.

(** [__init__(capacity)]: [np.zeros(capacity)] five times. *)
Definition __init__ (capacity : nat) : RingBuffer :=
  {| capacity := capacity;
     _platform_buffer := repeat 0 capacity;
     _force_buffer := repeat 0 capacity;
     _time_buffer := repeat 0 capacity;
     _freq_buffer := repeat 0 capacity;
     _phase_buffer := repeat 0 capacity;
     _write_idx := 0;
     _size := 0;
     _metadata := [] |}.

(** [a[idx] = x] *)
Fixpoint store (a : list Q) (idx : nat) (x : Q) : result (list Q) :=
  match a, idx with
  | [], _ => Raise IndexError
  | _ :: rest, O => Ok (x :: rest)
  | y :: rest, S idx' => rest' <- store rest idx' x ;; Ok (y :: rest')
  end.

(** [d.append(x)] on a [deque(maxlen=maxlen)]: the oldest entry leaves
    when the deque is full. *)
Definition deque_append {A : Type} (maxlen : nat) (d : list A) (x : A) : list A :=
  if (maxlen =? 0)%nat then []
  else if (length d <? maxlen)%nat then d ++ [x]
  else tl d ++ [x].

(** One data point: platform, force, time, freq, phase and the keyword
    arguments. *)
Record point : Type := {
  platform : Q;
  force : Q;
  time : Q;
  freq : Q;
  phase : Q;
  meta : kwargs
}.

(** [append(platform, force, time, freq, phase, **kwargs)].  The buffer
    is returned as the statement that raised left it. *)
Definition append (b : RingBuffer) (p : point) : result unit * RingBuffer :=
  let idx := _write_idx b in
  match store (_platform_buffer b) idx (platform p) with
  | Raise e => (Raise e, b)
  | Ok pb =>
  let b1 := {| capacity := capacity b; _platform_buffer := pb;
               _force_buffer := _force_buffer b; _time_buffer := _time_buffer b;
               _freq_buffer := _freq_buffer b; _phase_buffer := _phase_buffer b;
               _write_idx := _write_idx b; _size := _size b;
               _metadata := _metadata b |} in
  match store (_force_buffer b) idx (force p) with
  | Raise e => (Raise e, b1)
  | Ok fb =>
  let b2 := {| capacity := capacity b; _platform_buffer := pb;
               _force_buffer := fb; _time_buffer := _time_buffer b;
               _freq_buffer := _freq_buffer b; _phase_buffer := _phase_buffer b;
               _write_idx := _write_idx b; _size := _size b;
               _metadata := _metadata b |} in
  match store (_time_buffer b) idx (time p) with
  | Raise e => (Raise e, b2)
  | Ok tb =>
  let b3 := {| capacity := capacity b; _platform_buffer := pb;
               _force_buffer := fb; _time_buffer := tb;
               _freq_buffer := _freq_buffer b; _phase_buffer := _phase_buffer b;
               _write_idx := _write_idx b; _size := _size b;
               _metadata := _metadata b |} in
  match store (_freq_buffer b) idx (freq p) with
  | Raise e => (Raise e, b3)
  | Ok qb =>
  let b4 := {| capacity := capacity b; _platform_buffer := pb;
               _force_buffer := fb; _time_buffer := tb;
               _freq_buffer := qb; _phase_buffer := _phase_buffer b;
               _write_idx := _write_idx b; _size := _size b;
               _metadata := _metadata b |} in
  match store (_phase_buffer b) idx (phase p) with
  | Raise e => (Raise e, b4)
  | Ok hb =>
  let md := deque_append (capacity b) (_metadata b) (meta p) in
  let b5 := {| capacity := capacity b; _platform_buffer := pb;
               _force_buffer := fb; _time_buffer := tb;
               _freq_buffer := qb; _phase_buffer := hb;
               _write_idx := _write_idx b; _size := _size b;
               _metadata := md |} in
  if (capacity b =? 0)%nat then (Raise ZeroDivisionError, b5)
  else
    (Ok tt,
     {| capacity := capacity b; _platform_buffer := pb;
        _force_buffer := fb; _time_buffer := tb;
        _freq_buffer := qb; _phase_buffer := hb;
        _write_idx := (_write_idx b + 1) mod capacity b;
        _size := Nat.min (_size b + 1) (capacity b);
        _metadata := md |})
  end end end end end.

(** Appending the points of a list one after the other, stopping at the
    first exception. *)
Fixpoint append_all (b : RingBuffer) (ps : list point) : result unit * RingBuffer :=
  match ps with
  | [] => (Ok tt, b)
  | p :: rest =>
      match append b p with
      | (Ok _, b') => append_all b' rest
      | (Raise e, b') => (Raise e, b')
      end
  end.

(** [np.argsort]: the positions in the order of their keys.  The order
    of equal keys, which the default sort of NumPy leaves open, is the
    order of the positions. *)
Fixpoint insert_by_key (x : Q * nat) (l : list (Q * nat)) : list (Q * nat) :=
  match l with
  | [] => [x]
  | y :: rest =>
      if Qle_bool (fst x) (fst y) then x :: l else y :: insert_by_key x rest
  end.

Definition np_argsort (a : list Q) : list nat :=
  map snd (fold_right insert_by_key [] (combine a (seq 0 (length a)))).

(** [np.linspace(0, stop, num, dtype=int)].  NumPy computes in doubles:
    [step = delta / div] with [delta = stop - 0.0] and [div = num - 1],
    then [y = arange(0, num) * step + 0.0], sets the last entry to [stop]
    and takes the floor of every entry.  A single point is [[0]]. *)
Definition np_linspace_int (stop num : nat) : list nat :=
  match num with
  | 0%nat => []
  | 1%nat => [0%nat]
  | _ =>
      let div := inject_Z (Z.of_nat (num - 1)) in
      let stop := round_double (inject_Z (Z.of_nat stop)) in
      let step := round_double (stop / div) in
      let y :=
        map (fun k => round_double (round_double (inject_Z (Z.of_nat k)) * step))
            (seq 0 (num - 1))
        ++ [stop] in
      map (fun v => Z.to_nat (Qfloor v)) y
  end.

(** [a[idx]] for an array of positions [idx]. *)
Definition take (a : list Q) (idx : list nat) : list Q := map (item a) idx.

(** The dictionary that [get_data] returns; [Empty] is [{}]. *)
Inductive data : Type :=
| Empty
| Data (platform_position tire_force time frequency phase_shift : list Q)
       (size : nat).

(** [get_data(max_points)]; [None] is the default [max_points=None]. *)
Definition get_data (b : RingBuffer) (max_points : option nat) : data :=
  if (_size b =? 0)%nat then Empty
  else
    let n_points := _size b in
    let indices :=
      match max_points with
      | Some m =>
          if negb (m =? 0)%nat && (m <? n_points)%nat
          then Some (np_linspace_int (n_points - 1) m)
          else None
      | None => None
      end in
    let sort_idx :=
      if (_size b <? capacity b)%nat
      then np_argsort (firstn (_size b) (_time_buffer b))
      else
        let start_idx := _write_idx b in
        range start_idx (capacity b) ++ range 0 start_idx in
    match indices with
    | None =>
        Data (take (_platform_buffer b) sort_idx)
             (take (_force_buffer b) sort_idx)
             (take (_time_buffer b) sort_idx)
             (take (_freq_buffer b) sort_idx)
             (take (_phase_buffer b) sort_idx)
             (_size b)
    | Some indices =>
        let sorted_indices := map (fun i => nth i sort_idx 0%nat) indices in
        Data (take (_platform_buffer b) sorted_indices)
             (take (_force_buffer b) sorted_indices)
             (take (_time_buffer b) sorted_indices)
             (take (_freq_buffer b) sorted_indices)
             (take (_phase_buffer b) sorted_indices)
             (length sorted_indices)
    end.

(** [clear()] *)
Definition clear (b : RingBuffer) : RingBuffer :=
  {| capacity := capacity b;
     _platform_buffer := repeat 0 (length (_platform_buffer b));
     _force_buffer := repeat 0 (length (_force_buffer b));
     _time_buffer := repeat 0 (length (_time_buffer b));
     _freq_buffer := repeat 0 (length (_freq_buffer b));
     _phase_buffer := repeat 0 (length (_phase_buffer b));
     _write_idx := 0;
     _size := 0;
     _metadata := [] |}.

(** The last [n] entries of a list. *)
Definition lastn {A : Type} (n : nat) (l : list A) : list A :=
  skipn (length l - n) l.

(** The rows a buffer holds, oldest first, read off one of its arrays. *)
Definition rows (b : RingBuffer) (a : list Q) : list Q :=
  if (_size b <? capacity b)%nat then firstn (_size b) a
  else skipn (_write_idx b) a ++ firstn (_write_idx b) a.

(** The state that [append] keeps: five arrays of [capacity] entries, a
    write position inside them that equals the size until the buffer
    is full, and one metadata entry per row. *)
Definition well_formed (b : RingBuffer) : Prop :=
  (0 < capacity b)%nat
  /\ length (_platform_buffer b) = capacity b
  /\ length (_force_buffer b) = capacity b
  /\ length (_time_buffer b) = capacity b
  /\ length (_freq_buffer b) = capacity b
  /\ length (_phase_buffer b) = capacity b
  /\ (_write_idx b < capacity b)%nat
  /\ (_size b <= capacity b)%nat
  /\ ((_size b < capacity b)%nat -> _write_idx b = _size b)
  /\ length (_metadata b) = _size b.

(** A list of rationals in strictly increasing order. *)
Fixpoint increasing (l : list Q) : Prop :=
  match l with
  | a :: ((b :: _) as rest) => a < b /\ increasing rest
  | _ => True
  end.

End Ring.

(** [holds b ps]: the buffer [b] holds what is left of the points [ps]
    appended to a new buffer: the last [capacity] of them, oldest first,
    in each array and in the metadata. *)
Definition holds (b : Ring.RingBuffer) (ps : list Ring.point) : Prop :=
  Ring._size b = Nat.min (length ps) (Ring.capacity b)
  /\ Ring._write_idx b = (length ps mod Ring.capacity b)%nat
  /\ Ring.rows b (Ring._platform_buffer b)
     = Ring.lastn (Ring.capacity b) (map Ring.platform ps)
  /\ Ring.rows b (Ring._force_buffer b)
     = Ring.lastn (Ring.capacity b) (map Ring.force ps)
  /\ Ring.rows b (Ring._time_buffer b)
     = Ring.lastn (Ring.capacity b) (map Ring.time ps)
  /\ Ring.rows b (Ring._freq_buffer b)
     = Ring.lastn (Ring.capacity b) (map Ring.freq ps)
  /\ Ring.rows b (Ring._phase_buffer b)
     = Ring.lastn (Ring.capacity b) (map Ring.phase ps)
  /\ Ring._metadata b = Ring.lastn (Ring.capacity b) (map Ring.meta ps).

(** [pick rows idx]: the rows at the positions [idx]. *)
Definition pick (rows : list Q) (idx : list nat) : list Q :=
  map (fun i => nth i rows 0) idx.

(** The order in which [get_data] reads the arrays of the buffer [b]. *)
Definition sort_idx_of (b : Ring.RingBuffer) : list nat :=
  if (Ring._size b <? Ring.capacity b)%nat
  then Ring.np_argsort (firstn (Ring._size b) (Ring._time_buffer b))
  else range (Ring._write_idx b) (Ring.capacity b) ++ range 0 (Ring._write_idx b).

(** A full buffer of capacity 4 whose oldest row is at position 1. *)
Definition full_buffer : Ring.RingBuffer :=
  {| Ring.capacity := 4;
     Ring._platform_buffer := [4; 1; 2; 3];
     Ring._force_buffer := [740; 710; 720; 730];
     Ring._time_buffer := [8; 5; 6; 7];
     Ring._freq_buffer := [10; 10; 10; 10];
     Ring._phase_buffer := [44; 41; 42; 43];
     Ring._write_idx := 1;
     Ring._size := 4;
     Ring._metadata := [ []; []; []; [] ] |}.

(** [spaced d peaks]: each entry of [peaks] is at least [d] above the
    entry before it. *)
Fixpoint spaced (d : nat) (peaks : list nat) : Prop :=
  match peaks with
  | a :: ((b :: _) as rest) => (a + d <= b)%nat /\ spaced d rest
  | _ => True
  end.

(** [tops data lo hi p]: the sample [p] is strictly greater than every
    other sample at the positions [lo .. hi - 1]. *)
Definition tops (data : list Q) (lo hi p : nat) : Prop :=
  forall j, (lo <= j < hi)%nat -> j <> p -> item data j < item data p.

(** What holds of the peaks that the Python peak finder has found before
    it looks at the sample [i]. *)
Definition python_peaks_so_far (data : list Q) (min_distance i : nat)
  (peaks : list nat) : Prop :=
  spaced (Nat.max min_distance 1) peaks
  /\ Forall (fun p => (p < i)%nat /\ (5 <= p < length data - 5)%nat
                      /\ tops data (p - 5) (p + 6) p) peaks.

(** The same for the peak finder of the C extension. *)
Definition c_peaks_so_far (data : list Q) (n max_peaks min_distance i : nat)
  (peaks : list nat) : Prop :=
  (length peaks <= max_peaks)%nat
  /\ spaced (Nat.max min_distance 1) peaks
  /\ Forall (fun p => (1 <= p < i)%nat
                      /\ tops data (p - 5) (Nat.min (p + 5) n) p
                      /\ item data (p + 1) < item data p) peaks.

(** What holds of the two lists that the Python cycle analysis has built
    after [k] cycles, on the calculator [self]. *)
Definition analysed_so_far (self : OptimizedPhaseCalculator) (k : nat)
  (acc : list Q * list Q) : Prop :=
  length (fst acc) = length (snd acc)
  /\ (length (fst acc) <= k)%nat
  /\ Forall (fun f => min_freq self <= f /\ f <= max_freq self) (snd acc)
  /\ Forall (fun p => p = -1 \/ (0 <= p /\ p <= 180)) (fst acc).

(** A list of rationals in non-decreasing order. *)
Fixpoint nondecreasing (l : list Q) : Prop :=
  match l with
  | a :: ((b :: _) as rest) => a <= b /\ nondecreasing rest
  | _ => True
  end.

(** What holds of the crossings that the Python scan has recorded before
    the step [i]: they are in order and lie between the first time stamp
    and the time stamp of the sample [i - 1]. *)
Definition crossings_so_far (time_data : list Q) (i : nat) (acc : list Q) : Prop :=
  nondecreasing acc
  /\ Forall (fun c => item time_data 0 <= c /\ c <= item time_data (i - 1)) acc.

(** A buffer of capacity 4 that holds three rows, appended with the
    time stamps 7, 5 and 6. *)
Definition part_buffer : Ring.RingBuffer :=
  {| Ring.capacity := 4;
     Ring._platform_buffer := [1; 2; 3; 0];
     Ring._force_buffer := [710; 720; 730; 0];
     Ring._time_buffer := [7; 5; 6; 0];
     Ring._freq_buffer := [10; 10; 10; 0];
     Ring._phase_buffer := [41; 42; 43; 0];
     Ring._write_idx := 3;
     Ring._size := 3;
     Ring._metadata := [ []; []; [] ] |}.

(** The two lists that the Python cycle analysis returns for the record of
    two cycles. *)
Definition Py_two_cycles_lists : list Q * list Q :=
  match fst (Py._analyze_cycles_vectorized platform_three_peaks
               force_two_cycles time_111 650
               (Py._find_peaks_fast platform_three_peaks 50)
               (Py.__init__ false)) with
  | Ok lists => lists
  | Raise _ => ([], [])
  end.

(** * Properties *)

(** ** Methods do not write to [self] *)

Section ReadOnly.

Context {A B : Type}.

Lemma read_only_mret (a : A) : read_only (mret a).
Proof. intros self. reflexivity. Qed.

Lemma read_only_attr (get : OptimizedPhaseCalculator -> A) : read_only (attr get).
Proof. intros self. reflexivity. Qed.

Lemma read_only_call (r : result A) : read_only (call r).
Proof. intros self. reflexivity. Qed.

Lemma read_only_mbind (c : method A) (k : A -> method B) :
  read_only c -> (forall a, read_only (k a)) -> read_only (mbind c k).
Proof.
  intros Hc Hk self. unfold mbind.
  specialize (Hc self). destruct (c self) as [[a | e] self']; simpl in *; subst.
  - apply Hk.
  - reflexivity.
Qed.

End ReadOnly.

Lemma read_only_for_each_m {S : Type} (idx : list nat)
  (body : nat -> S -> method S) :
  (forall i s, read_only (body i s)) ->
  forall s, read_only (for_each_m idx body s).
Proof.
  intros Hbody. induction idx as [| i rest IH]; intros s; simpl.
  - apply read_only_mret.
  - apply read_only_mbind; [apply Hbody | intros s'; apply IH].
Qed.

Ltac ro_step :=
  first [ apply read_only_mret | apply read_only_attr | apply read_only_call
        | apply read_only_mbind; [| intros ?] ].

Lemma read_only_cycle_step force_data time_data static_weight peaks i acc :
  read_only (Py.cycle_step force_data time_data static_weight peaks i acc).
Proof.
  unfold Py.cycle_step. destruct acc as [phase_shifts frequencies].
  repeat ro_step.
  destruct (negb _); [ro_step |].
  destruct (ieee_div _ _); [| ro_step].
  repeat ro_step.
Qed.

Lemma read_only_analyze platform_data force_data time_data static_weight peaks :
  read_only (Py._analyze_cycles_vectorized platform_data force_data time_data
               static_weight peaks).
Proof.
  unfold Py._analyze_cycles_vectorized.
  apply read_only_for_each_m. intros i s. apply read_only_cycle_step.
Qed.

Lemma read_only_optimized_python numpy platform_data force_data time_data
  static_weight :
  read_only (Py._calculate_optimized_python numpy platform_data force_data
               time_data static_weight).
Proof.
  unfold Py._calculate_optimized_python.
  destruct (_ <? _)%nat; [ro_step |].
  apply read_only_mbind; [apply read_only_analyze |].
  intros [phase_shifts frequencies].
  ro_step; [ro_step |].
  destruct (negb _); [ro_step |].
  repeat ro_step.
Qed.

Lemma read_only_with_c_extension platform_data force_data time_data static_weight :
  read_only (Py._calculate_with_c_extension platform_data force_data time_data
               static_weight).
Proof. unfold Py._calculate_with_c_extension. repeat ro_step. Qed.

Lemma read_only_calculate numpy platform_data force_data time_data static_weight :
  read_only (Py.calculate numpy platform_data force_data time_data static_weight).
Proof.
  unfold Py.calculate.
  apply read_only_mbind; [apply read_only_attr | intros ext].
  destruct ext.
  - apply read_only_with_c_extension.
  - apply read_only_optimized_python.
Qed.

(** C9.  Evaluating the same record twice on the same calculator gives the
    same result: [calculate] is a function of the record and of the
    attributes of the calculator, it writes to none of them (not to
    [_cache] either), so the second run starts from the state of the
    first and returns the very same value. *)
Theorem calculate_twice_same_result :
  forall (numpy : numpy_release) (self : OptimizedPhaseCalculator)
         (platform_data force_data time_data : list Q) (static_weight : Q),
    snd (Py.calculate numpy platform_data force_data time_data static_weight self)
    = self
    /\ fst (Py.calculate numpy platform_data force_data time_data static_weight
              (snd (Py.calculate numpy platform_data force_data time_data
                      static_weight self)))
       = fst (Py.calculate numpy platform_data force_data time_data
                static_weight self)
    /\ snd (Py.calculate numpy platform_data force_data time_data static_weight
              (snd (Py.calculate numpy platform_data force_data time_data
                      static_weight self)))
       = self.
Proof.
  intros numpy self p f t sw.
  assert (H1 : snd (Py.calculate numpy p f t sw self) = self)
    by apply read_only_calculate.
  rewrite !H1. auto.
Qed.

(** ** Too few platform peaks *)

(** C6, as the code has it.  On the Python path fewer than two platform
    peaks are reported by the returned dictionary, not by an exception:
    [calculate] returns the invalid result with the message of the
    missing peaks exactly when the peak finder finds fewer than two
    peaks, whatever the force, the time stamps and the static weight
    are.  That result holds no phase value, the calculator is left as it
    was, and a calculation that follows on it (the sibling wheel) returns
    what it returns without the failed one before it. *)
Theorem too_few_peaks_is_invalid :
  forall (numpy : numpy_release) (self : OptimizedPhaseCalculator)
         (platform_data force_data time_data : list Q) (static_weight : Q),
    _c_extension self = false ->
    ((length (Py._find_peaks_fast platform_data 50) < 2)%nat <->
     fst (Py.calculate numpy platform_data force_data time_data static_weight self)
     = Ok (Invalid "Nicht genug Peaks gefunden"))
    /\ ((length (Py._find_peaks_fast platform_data 50) < 2)%nat ->
        exists r : phase_result,
          Py.calculate numpy platform_data force_data time_data static_weight self
          = (Ok r, self)
          /\ valid r = false
          /\ phase_shifts_of r = []
          /\ forall (platform_data' force_data' time_data' : list Q)
                    (static_weight' : Q),
               Py.calculate numpy platform_data' force_data' time_data'
                 static_weight'
                 (snd (Py.calculate numpy platform_data force_data time_data
                         static_weight self))
               = Py.calculate numpy platform_data' force_data' time_data'
                   static_weight' self).
Proof.
  intros numpy self p f t sw Hext.
  assert (Hfew : (length (Py._find_peaks_fast p 50) < 2)%nat ->
                 Py.calculate numpy p f t sw self
                 = (Ok (Invalid "Nicht genug Peaks gefunden"), self)).
  { intros Hpeaks. unfold Py.calculate, mbind, attr. rewrite Hext.
    unfold Py._calculate_optimized_python.
    apply Nat.ltb_lt in Hpeaks. rewrite Hpeaks. reflexivity. }
  split; [split |].
  - intros Hpeaks. now rewrite (Hfew Hpeaks).
  - unfold Py.calculate, mbind, attr. rewrite Hext.
    unfold Py._calculate_optimized_python.
    destruct (length (Py._find_peaks_fast p 50) <? 2)%nat eqn:E.
    + intros _. now apply Nat.ltb_lt.
    + unfold mbind, call, mret.
      destruct (Py._analyze_cycles_vectorized _ _ _ _ _ _)
        as [[[phase_shifts frequencies] | e] self']; [| discriminate].
      destruct (Py.np_truth numpy phase_shifts) as [[|] | e]; simpl;
        [| discriminate | discriminate].
      destruct (Py.np_argmin phase_shifts) as [min_idx | e]; [| discriminate].
      destruct (py_get phase_shifts min_idx); [| discriminate].
      destruct (py_get frequencies min_idx); discriminate.
  - intros Hpeaks. exists (Invalid "Nicht genug Peaks gefunden").
    rewrite (Hfew Hpeaks). auto.
Qed.

Lemma too_few_peaks_is_invalid_witness :
  ((length (Py._find_peaks_fast platform_early_peak 50) < 2)%nat <->
   fst (Py.calculate before_2_2 platform_early_peak force_down_up time_490Hz 650
          (Py.__init__ false))
   = Ok (Invalid "Nicht genug Peaks gefunden"))
  /\ exists r : phase_result,
       Py.calculate before_2_2 platform_early_peak force_down_up time_490Hz 650
         (Py.__init__ false)
       = (Ok r, Py.__init__ false)
       /\ valid r = false
       /\ phase_shifts_of r = []
       /\ forall (platform_data' force_data' time_data' : list Q)
                 (static_weight' : Q),
            Py.calculate before_2_2 platform_data' force_data' time_data'
              static_weight'
              (snd (Py.calculate before_2_2 platform_early_peak force_down_up
                      time_490Hz 650 (Py.__init__ false)))
            = Py.calculate before_2_2 platform_data' force_data' time_data'
                static_weight' (Py.__init__ false).
Proof.
  destruct (too_few_peaks_is_invalid before_2_2 (Py.__init__ false)
              platform_early_peak force_down_up time_490Hz 650 eq_refl)
    as [Hiff Hfew].
  split; [exact Hiff |].
  apply Hfew. vm_compute. lia.
Defined.

(** C6, as the specification words it, fails on a record with a single
    platform peak: the peak finder finds one peak, and the call raises no
    error, whichever release of NumPy runs it; it returns a
    dictionary. *)
Lemma too_few_peaks_raises_nothing :
  Py._find_peaks_fast platform_early_peak 50 = [55]%nat
  /\ Py.calculate before_2_2 platform_early_peak force_down_up time_490Hz 650
       (Py.__init__ false)
     = (Ok (Invalid "Nicht genug Peaks gefunden"), Py.__init__ false)
  /\ Py.calculate from_2_2 platform_early_peak force_down_up time_490Hz 650
       (Py.__init__ false)
     = (Ok (Invalid "Nicht genug Peaks gefunden"), Py.__init__ false)
  /\ ~ (exists e : py_error,
          fst (Py.calculate before_2_2 platform_early_peak force_down_up
                 time_490Hz 650 (Py.__init__ false))
          = Raise e).
Proof.
  repeat split; try (vm_compute; reflexivity).
  intros [e He]. vm_compute in He. discriminate He.
Qed.

(** ** Comparisons on rationals *)

Lemma Qlt_bool_iff (a b : Q) : Qlt_bool a b = true <-> a < b.
Proof.
  unfold Qlt_bool. rewrite negb_true_iff.
  split; intros H.
  - apply Qnot_le_lt. intros Hle. apply Qle_bool_iff in Hle. congruence.
  - destruct (Qle_bool b a) eqn:E; [| reflexivity].
    apply Qle_bool_iff in E. lra.
Qed.

Lemma Qlt_bool_false_iff (a b : Q) : Qlt_bool a b = false <-> b <= a.
Proof.
  unfold Qlt_bool. rewrite negb_false_iff. apply Qle_bool_iff.
Qed.

Lemma Qle_bool_false_iff (a b : Q) : Qle_bool a b = false <-> b < a.
Proof.
  rewrite <- Qlt_bool_iff. unfold Qlt_bool.
  destruct (Qle_bool a b); simpl; split; congruence.
Qed.

Lemma Qis_zero_true_iff (a : Q) : Qis_zero a = true <-> a == 0.
Proof. apply Qeq_bool_iff. Qed.

Lemma Qis_zero_false_iff (a : Q) : Qis_zero a = false <-> ~ a == 0.
Proof.
  unfold Qis_zero. split; intros H.
  - intros E. apply Qeq_bool_iff in E. congruence.
  - destruct (Qeq_bool a 0) eqn:E; [| reflexivity].
    apply Qeq_bool_iff in E. contradiction.
Qed.

(** ** Crossings of the static weight *)

Section Crossings.

Variables (force_data time_data : list Q) (static_weight : Q).

Local Abbreviation step := (Py.crossing_step force_data time_data static_weight).

(** A step of the scan only ever appends to the list of crossings. *)
Lemma crossing_step_extends (i : nat) (acc acc' : list Q) :
  step i acc = Ok acc' -> exists l, acc' = acc ++ l.
Proof.
  unfold step, Py.crossing_step, rbind.
  destruct (py_get force_data (i - 1)); [| discriminate].
  destruct (py_get force_data i); [| discriminate].
  destruct (_ && _).
  - destruct (Py.cross_time _ _ _ _); [| discriminate].
    intros H; injection H as <-. eauto.
  - destruct (_ && _).
    + destruct (Py.cross_time _ _ _ _); [| discriminate].
      intros H; injection H as <-. eauto.
    + intros H; injection H as <-. exists []. now rewrite app_nil_r.
Qed.

Lemma scan_extends (idx : list nat) :
  forall acc cs, for_each idx step acc = Ok cs -> exists l, cs = acc ++ l.
Proof.
  induction idx as [| i rest IH]; simpl; intros acc cs H.
  - injection H as <-. exists []. now rewrite app_nil_r.
  - unfold rbind in H. destruct (step i acc) as [acc' |] eqn:E; [| discriminate].
    apply crossing_step_extends in E as [l1 ->].
    apply IH in H as [l2 ->]. exists (l1 ++ l2). now rewrite app_assoc.
Qed.

(** What a step appends is still there at the end of the scan. *)
Lemma scan_contains (idx : list nat) (i : nat) (c : Q) :
  In i idx ->
  (forall acc, step i acc = Ok (acc ++ [c])) ->
  forall acc cs, for_each idx step acc = Ok cs -> In c cs.
Proof.
  intros Hin Hstep.
  induction idx as [| j rest IH]; simpl; intros acc cs H; [contradiction |].
  unfold rbind in H. destruct (step j acc) as [acc' |] eqn:E; [| discriminate].
  destruct Hin as [-> | Hin].
  - rewrite Hstep in E. injection E as <-.
    apply scan_extends in H as [l ->].
    apply in_or_app. left. apply in_or_app. right. now left.
  - eapply IH; eauto.
Qed.

(** At a sign change the step interpolates linearly between the two
    samples. *)
Lemma cross_time_at_sign_change (i : nat) (f0 f1 t0 t1 : Q) :
  nth_error force_data (i - 1) = Some f0 ->
  nth_error force_data i = Some f1 ->
  nth_error time_data (i - 1) = Some t0 ->
  nth_error time_data i = Some t1 ->
  ~ f1 - f0 == 0 ->
  Py.cross_time force_data time_data static_weight i
  = Ok (t0 + (static_weight - f0) / (f1 - f0) * (t1 - t0)).
Proof.
  intros Hf0 Hf1 Ht0 Ht1 Hne.
  unfold Py.cross_time, py_get, py_div, rbind.
  rewrite Hf0, Hf1, Ht0, Ht1.
  apply Qis_zero_false_iff in Hne. rewrite Hne. reflexivity.
Qed.

Lemma crossing_step_at_sign_change (i : nat) (f0 f1 t0 t1 : Q) :
  nth_error force_data (i - 1) = Some f0 ->
  nth_error force_data i = Some f1 ->
  nth_error time_data (i - 1) = Some t0 ->
  nth_error time_data i = Some t1 ->
  (f0 < static_weight /\ static_weight < f1)
  \/ (static_weight < f0 /\ f1 < static_weight) ->
  forall acc,
    step i acc = Ok (acc ++ [t0 + (static_weight - f0) / (f1 - f0) * (t1 - t0)]).
Proof.
  intros Hf0 Hf1 Ht0 Ht1 Hsign acc.
  assert (Hne : ~ f1 - f0 == 0) by (intros E; lra).
  pose proof (cross_time_at_sign_change i f0 f1 t0 t1 Hf0 Hf1 Ht0 Ht1 Hne) as Hc.
  unfold step, Py.crossing_step, rbind.
  unfold py_get at 1 2. rewrite Hf0, Hf1, Hc.
  destruct Hsign as [[H1 H2] | [H1 H2]].
  - assert (E1 : Qle_bool f0 static_weight = true) by (apply Qle_bool_iff; lra).
    assert (E2 : Qle_bool static_weight f1 = true) by (apply Qle_bool_iff; lra).
    rewrite E1, E2. reflexivity.
  - assert (E1 : Qle_bool f0 static_weight = false)
      by (apply Qle_bool_false_iff; lra).
    assert (E2 : Qge_bool f0 static_weight = true)
      by (apply Qle_bool_iff; lra).
    assert (E3 : Qge_bool static_weight f1 = true)
      by (apply Qle_bool_iff; lra).
    rewrite E1, E2, E3. reflexivity.
Qed.

(** The scan raises nothing when the time array is as long as the force
    array and no two neighbouring samples both sit on the static weight. *)
Lemma crossing_step_returns (i : nat) (acc : list Q) :
  length time_data = length force_data ->
  (1 <= i < length force_data)%nat ->
  ~ (item force_data (i - 1) == static_weight
     /\ item force_data i == static_weight) ->
  exists acc', step i acc = Ok acc'.
Proof.
  intros Hlen Hi Hflat.
  assert (Hf0 : exists f0, nth_error force_data (i - 1) = Some f0
                           /\ item force_data (i - 1) = f0).
  { destruct (nth_error force_data (i - 1)) as [f0 |] eqn:E.
    - exists f0. split; [reflexivity |]. unfold item.
      now apply nth_error_nth.
    - apply nth_error_None in E. lia. }
  assert (Hf1 : exists f1, nth_error force_data i = Some f1
                           /\ item force_data i = f1).
  { destruct (nth_error force_data i) as [f1 |] eqn:E.
    - exists f1. split; [reflexivity |]. unfold item.
      now apply nth_error_nth.
    - apply nth_error_None in E. lia. }
  assert (Ht0 : exists t0, nth_error time_data (i - 1) = Some t0).
  { destruct (nth_error time_data (i - 1)) as [t0 |] eqn:E; [eauto |].
    apply nth_error_None in E. lia. }
  assert (Ht1 : exists t1, nth_error time_data i = Some t1).
  { destruct (nth_error time_data i) as [t1 |] eqn:E; [eauto |].
    apply nth_error_None in E. lia. }
  destruct Hf0 as (f0 & Hf0 & Ef0), Hf1 as (f1 & Hf1 & Ef1),
    Ht0 as (t0 & Ht0), Ht1 as (t1 & Ht1).
  rewrite Ef0, Ef1 in Hflat.
  unfold step, Py.crossing_step, rbind. unfold py_get at 1 2.
  rewrite Hf0, Hf1.
  destruct (Qle_bool f0 static_weight && Qle_bool static_weight f1) eqn:Eup.
  - apply andb_true_iff in Eup as [E1 E2].
    apply Qle_bool_iff in E1, E2.
    rewrite (cross_time_at_sign_change i f0 f1 t0 t1); eauto.
    intros E. apply Hflat. split; lra.
  - destruct (Qge_bool f0 static_weight && Qge_bool static_weight f1) eqn:Edn;
      [| eauto].
    apply andb_true_iff in Edn as [E1 E2].
    apply Qle_bool_iff in E1, E2.
    rewrite (cross_time_at_sign_change i f0 f1 t0 t1); eauto.
    intros E. apply Hflat. split; lra.
Qed.

Lemma scan_returns (idx : list nat) :
  length time_data = length force_data ->
  (forall i, In i idx -> (1 <= i < length force_data)%nat) ->
  (forall i, In i idx ->
             ~ (item force_data (i - 1) == static_weight
                /\ item force_data i == static_weight)) ->
  forall acc, exists cs, for_each idx step acc = Ok cs.
Proof.
  intros Hlen. induction idx as [| i rest IH]; intros Hidx Hflat acc; simpl.
  - eauto.
  - destruct (crossing_step_returns i acc Hlen) as [acc' E].
    + apply Hidx. now left.
    + apply Hflat. now left.
    + unfold rbind. rewrite E. apply IH.
      * intros j Hj. apply Hidx. now right.
      * intros j Hj. apply Hflat. now right.
Qed.

End Crossings.

(** C7.  At every sign change of the force relative to the static weight
    (between the samples [i - 1] and [i]) the crossing time that the scan
    records is [t[i-1] + (static_weight - f[i-1]) / (f[i] - f[i-1]) *
    (t[i] - t[i-1])], on the Python path and in the C extension, and that
    time is in the list of crossings the scan returns.  The scan does
    return whenever the time array is as long as the force array and no
    two neighbouring samples both equal the static weight.  For the force
    samples 640, 660 at the times 0.000, 0.010 and a static weight of 650
    the one crossing is at 0.005. *)
Theorem crossing_time_is_interpolated :
  (forall (force_data time_data : list Q) (static_weight : Q) (i : nat)
          (f0 f1 t0 t1 : Q),
      (1 <= i)%nat ->
      nth_error force_data (i - 1) = Some f0 ->
      nth_error force_data i = Some f1 ->
      nth_error time_data (i - 1) = Some t0 ->
      nth_error time_data i = Some t1 ->
      (f0 < static_weight /\ static_weight < f1)
      \/ (static_weight < f0 /\ f1 < static_weight) ->
      Py.cross_time force_data time_data static_weight i
      = Ok (t0 + (static_weight - f0) / (f1 - f0) * (t1 - t0))
      /\ C.cross_time f0 f1 t0 t1 static_weight
         = Some (t0 + (static_weight - f0) / (f1 - f0) * (t1 - t0))
      /\ forall crossings,
           Py.find_crossings force_data time_data static_weight = Ok crossings ->
           In (t0 + (static_weight - f0) / (f1 - f0) * (t1 - t0)) crossings)
  /\ (forall (force_data time_data : list Q) (static_weight : Q),
         length time_data = length force_data ->
         (forall i, (1 <= i < length force_data)%nat ->
                    ~ (item force_data (i - 1) == static_weight
                       /\ item force_data i == static_weight)) ->
         exists crossings,
           Py.find_crossings force_data time_data static_weight = Ok crossings)
  /\ (exists c, Py.find_crossings [640; 660] [0; 1 # 100] 650 = Ok [c]
                /\ c == 5 # 1000).
Proof.
  split; [| split].
  - intros force_data time_data static_weight i f0 f1 t0 t1 Hi Hf0 Hf1 Ht0 Ht1 Hsign.
    assert (Hne : ~ f1 - f0 == 0) by (intros E; lra).
    split; [| split].
    + now apply cross_time_at_sign_change.
    + unfold C.cross_time, ieee_div.
      apply Qis_zero_false_iff in Hne. rewrite Hne. reflexivity.
    + intros crossings Hscan. unfold Py.find_crossings in Hscan.
      eapply scan_contains with (i := i); [| | exact Hscan].
      * unfold range. apply in_seq.
        assert (i < length force_data)%nat
          by (apply nth_error_Some; congruence).
        lia.
      * now apply crossing_step_at_sign_change.
  - intros force_data time_data static_weight Hlen Hflat.
    unfold Py.find_crossings. apply scan_returns; [assumption | |].
    + intros i Hin. unfold range in Hin. apply in_seq in Hin. lia.
    + intros i Hin. apply Hflat. unfold range in Hin. apply in_seq in Hin. lia.
  - eexists. split; [vm_compute; reflexivity | reflexivity].
Qed.

Lemma crossing_time_is_interpolated_witness :
  Py.cross_time [640; 660] [0; 1 # 100] 650 1
  = Ok (0 + (650 - 640) / (660 - 640) * ((1 # 100) - 0))
  /\ C.cross_time 640 660 0 (1 # 100) 650
     = Some (0 + (650 - 640) / (660 - 640) * ((1 # 100) - 0))
  /\ forall crossings,
       Py.find_crossings [640; 660] [0; 1 # 100] 650 = Ok crossings ->
       In (0 + (650 - 640) / (660 - 640) * ((1 # 100) - 0)) crossings.
Proof.
  apply (proj1 crossing_time_is_interpolated [640; 660] [0; 1 # 100] 650 1%nat
           640 660 0 (1 # 100)).
  - lia.
  - reflexivity.
  - reflexivity.
  - reflexivity.
  - reflexivity.
  - left. split; reflexivity.
Defined.

(** ** RFAmax *)

Lemma fold_Qmin_is_minimum (rest : list Q) :
  forall x, is_minimum_of (fold_left Qmin rest x) (x :: rest).
Proof.
  induction rest as [| a rest IH]; intros x; simpl.
  - split; [now left |]. intros y [<- | []]. lra.
  - destruct (IH (Qmin x a)) as [Hin Hle]. split.
    + destruct Hin as [E | Hin].
      * rewrite <- E. unfold Qmin. destruct (Qle_bool x a); simpl; auto.
      * right; right; exact Hin.
    + intros y Hy.
      assert (Hx : fold_left Qmin rest (Qmin x a) <= Qmin x a)
        by (apply Hle; now left).
      set (m := fold_left Qmin rest (Qmin x a)) in *.
      unfold Qmin in Hx.
      destruct (Qle_bool x a) eqn:E.
      * apply Qle_bool_iff in E.
        destruct Hy as [<- | [<- | Hy]]; [lra | lra |].
        apply Hle. now right.
      * apply Qle_bool_false_iff in E.
        destruct Hy as [<- | [<- | Hy]]; [lra | lra |].
        apply Hle. now right.
Qed.

Lemma fold_Qmax_is_maximum (rest : list Q) :
  forall x, is_maximum_of (fold_left Qmax rest x) (x :: rest).
Proof.
  induction rest as [| a rest IH]; intros x; simpl.
  - split; [now left |]. intros y [<- | []]. lra.
  - destruct (IH (Qmax x a)) as [Hin Hle]. split.
    + destruct Hin as [E | Hin].
      * rewrite <- E. unfold Qmax. destruct (Qle_bool x a); simpl; auto.
      * right; right; exact Hin.
    + intros y Hy.
      assert (Hx : Qmax x a <= fold_left Qmax rest (Qmax x a))
        by (apply Hle; now left).
      set (m := fold_left Qmax rest (Qmax x a)) in *.
      unfold Qmax in Hx.
      destruct (Qle_bool x a) eqn:E.
      * apply Qle_bool_iff in E.
        destruct Hy as [<- | [<- | Hy]]; [lra | lra |].
        apply Hle. now right.
      * apply Qle_bool_false_iff in E.
        destruct Hy as [<- | [<- | Hy]]; [lra | lra |].
        apply Hle. now right.
Qed.

Lemma py_max_is_larger (a b : Q) :
  a <= py_max a b /\ b <= py_max a b /\ (py_max a b = a \/ py_max a b = b).
Proof.
  unfold py_max. destruct (Qlt_bool a b) eqn:E.
  - apply Qlt_bool_iff in E. repeat split; auto; lra.
  - apply Qlt_bool_false_iff in E. repeat split; auto; lra.
Qed.

(** C5.  For a force array (with at least one sample) and a positive
    static weight, [calculate_rfa_max] returns the flags of the overflow
    and underflow detection together with FAmax and RFAmax, where FAmax
    is [static_weight - min(force)] when both flags are false,
    [max(force) - static_weight] when only the underflow flag is true, and
    the larger of these two values when the overflow flag is true; in
    every case RFAmax is [FAmax / static_weight * 100]. *)
Theorem rfa_max_follows_the_flags :
  forall (processor : EGEAProcessor) (tire_force : list Q) (static_weight : Q),
    0 < static_weight ->
    tire_force <> [] ->
    exists (rfa_max fa_max fmin fmax : Q) (f_under_flag f_over_flag : bool),
      calculate_rfa_max processor tire_force static_weight
      = Ok (rfa_max, fa_max, f_under_flag, f_over_flag)
      /\ detect_signal_overflow_underflow (signal_processor processor)
           tire_force static_weight = (f_under_flag, f_over_flag)
      /\ is_minimum_of fmin tire_force
      /\ is_maximum_of fmax tire_force
      /\ (f_under_flag = false -> f_over_flag = false ->
          fa_max = static_weight - fmin)
      /\ (f_under_flag = true -> f_over_flag = false ->
          fa_max = fmax - static_weight)
      /\ (f_over_flag = true ->
          fmax - static_weight <= fa_max
          /\ static_weight - fmin <= fa_max
          /\ (fa_max = fmax - static_weight \/ fa_max = static_weight - fmin))
      /\ rfa_max = fa_max / static_weight * 100.
Proof.
  intros processor tire_force static_weight Hpos Hne.
  destruct tire_force as [| x rest]; [congruence |].
  unfold calculate_rfa_max.
  destruct (detect_signal_overflow_underflow _ _ _) as [u o].
  apply Qlt_bool_iff in Hpos. unfold rbind, np_min, np_max, Qgt_bool.
  rewrite Hpos.
  eexists _, _, (fold_left Qmin rest x), (fold_left Qmax rest x), u, o.
  split; [reflexivity |]. split; [reflexivity |].
  split; [apply fold_Qmin_is_minimum |].
  split; [apply fold_Qmax_is_maximum |].
  split; [| split; [| split]].
  - intros -> ->. reflexivity.
  - intros -> ->. reflexivity.
  - intros ->. destruct u; simpl; apply py_max_is_larger.
  - reflexivity.
Qed.

Lemma rfa_max_follows_the_flags_witness :
  exists (rfa_max fa_max fmin fmax : Q) (f_under_flag f_over_flag : bool),
    calculate_rfa_max
      {| signal_processor :=
           {| detect_signal_overflow_underflow := fun _ _ => (true, false) |} |}
      [600; 720; 650] 650
    = Ok (rfa_max, fa_max, f_under_flag, f_over_flag)
    /\ (true, false) = (f_under_flag, f_over_flag)
    /\ is_minimum_of fmin [600; 720; 650]
    /\ is_maximum_of fmax [600; 720; 650]
    /\ (f_under_flag = false -> f_over_flag = false -> fa_max = 650 - fmin)
    /\ (f_under_flag = true -> f_over_flag = false -> fa_max = fmax - 650)
    /\ (f_over_flag = true ->
        fmax - 650 <= fa_max
        /\ 650 - fmin <= fa_max
        /\ (fa_max = fmax - 650 \/ fa_max = 650 - fmin))
    /\ rfa_max = fa_max / 650 * 100.
Proof.
  apply (rfa_max_follows_the_flags
           {| signal_processor :=
                {| detect_signal_overflow_underflow := fun _ _ => (true, false) |} |}
           [600; 720; 650] 650).
  - reflexivity.
  - discriminate.
Defined.

(** ** Axle imbalance *)

Lemma py_abs_Qabs (x : Q) : py_abs x == Qabs x.
Proof.
  unfold py_abs. destruct (Qlt_bool x 0) eqn:E.
  - apply Qlt_bool_iff in E. symmetry. apply Qabs_neg. lra.
  - apply Qlt_bool_false_iff in E. symmetry. now apply Qabs_pos.
Qed.

Lemma Qmax_cases (a b : Q) :
  (a <= b /\ Qmax a b = b) \/ (b < a /\ Qmax a b = a).
Proof.
  unfold Qmax. destruct (Qle_bool a b) eqn:E.
  - left. apply Qle_bool_iff in E. auto.
  - right. apply Qle_bool_false_iff in E. auto.
Qed.

Lemma py_max_Qmax (a b a' b' : Q) :
  a == a' -> b == b' -> py_max a b == Qmax a' b'.
Proof.
  intros Ha Hb.
  destruct (py_max_is_larger a b) as (H1 & H2 & [E | E]); rewrite E in *;
    destruct (Qmax_cases a' b') as [[H3 ->] | [H3 ->]]; lra.
Qed.

Lemma difference_percent_nonzero (val1 val2 : Q) :
  ~ (val1 == 0 /\ val2 == 0) ->
  0 < Qmax (Qabs val1) (Qabs val2)
  /\ _calculate_difference_percent val1 val2
     == Qabs (val1 - val2) / Qmax (Qabs val1) (Qabs val2) * 100.
Proof.
  intros Hnz.
  assert (Hpos : 0 < Qmax (Qabs val1) (Qabs val2)).
  { pose proof (Qabs_nonneg val1) as N1. pose proof (Qabs_nonneg val2) as N2.
    destruct (Qmax_cases (Qabs val1) (Qabs val2)) as [[H ->] | [H ->]].
    - destruct (Qeq_dec val2 0) as [E2 | E2].
      + assert (E1 : ~ val1 == 0) by tauto.
        rewrite E2 in H. change (Qabs 0) with 0 in H.
        exfalso. apply E1. apply Qabs_Qle_condition in H. lra.
      + destruct (Qeq_dec (Qabs val2) 0) as [E | E]; [| lra].
        exfalso. apply E2.
        assert (Qabs val2 <= 0) as H0 by lra.
        apply Qabs_Qle_condition in H0. lra.
    - lra. }
  split; [exact Hpos |].
  unfold _calculate_difference_percent.
  assert (Hmax : py_max (py_abs val1) (py_abs val2)
                 == Qmax (Qabs val1) (Qabs val2))
    by (apply py_max_Qmax; apply py_abs_Qabs).
  destruct (Qis_zero val1 && Qis_zero val2) eqn:Ez.
  - apply andb_true_iff in Ez as [E1 E2].
    apply Qis_zero_true_iff in E1, E2. tauto.
  - destruct (Qis_zero (py_max (py_abs val1) (py_abs val2))) eqn:Em.
    + apply Qis_zero_true_iff in Em. lra.
    + rewrite Hmax, (py_abs_Qabs (val1 - val2)). reflexivity.
Qed.

(** C8, as the code has it.  The imbalance of two wheel values is 0 when
    both are zero, and otherwise [|val_l - val_r|] divided by the larger of
    the two magnitudes [|val_l|], [|val_r|], times 100; for values that are
    not negative and not both zero this is
    [|val_l - val_r| / max(val_l, val_r) * 100].  A left phi-min of 45
    and a right phi-min of 35 give 200/9, that is 22.22 percent to two
    decimals, which is within a limit of 30 percent. *)
Theorem imbalance_divides_by_larger_magnitude :
  (forall val_l val_r : Q,
      (val_l == 0 /\ val_r == 0 ->
       _calculate_difference_percent val_l val_r == 0)
      /\ (~ (val_l == 0 /\ val_r == 0) ->
          0 < Qmax (Qabs val_l) (Qabs val_r)
          /\ _calculate_difference_percent val_l val_r
             == Qabs (val_l - val_r) / Qmax (Qabs val_l) (Qabs val_r) * 100)
      /\ (0 <= val_l -> 0 <= val_r -> ~ (val_l == 0 /\ val_r == 0) ->
          _calculate_difference_percent val_l val_r
          == Spec.imbalance val_l val_r))
  /\ _calculate_difference_percent 45 35 == 200 # 9
  /\ 2222 # 100 <= _calculate_difference_percent 45 35
  /\ _calculate_difference_percent 45 35 < 2223 # 100
  /\ _calculate_difference_percent 45 35 <= 30.
Proof.
  split.
  - intros val_l val_r. split; [| split].
    + intros [E1 E2]. unfold _calculate_difference_percent.
      apply Qis_zero_true_iff in E1, E2. rewrite E1, E2. reflexivity.
    + apply difference_percent_nonzero.
    + intros Hl Hr Hnz.
      destruct (difference_percent_nonzero val_l val_r Hnz) as [_ ->].
      unfold Spec.imbalance.
      assert (Hmax : Qmax (Qabs val_l) (Qabs val_r) == Qmax val_l val_r).
      { pose proof (Qabs_pos val_l Hl) as A1.
        pose proof (Qabs_pos val_r Hr) as A2.
        destruct (Qmax_cases (Qabs val_l) (Qabs val_r)) as [[H ->] | [H ->]];
          destruct (Qmax_cases val_l val_r) as [[H' ->] | [H' ->]]; lra. }
      rewrite Hmax. reflexivity.
  - repeat split; vm_compute; congruence.
Qed.

Lemma imbalance_divides_by_larger_magnitude_witness :
  _calculate_difference_percent 45 35 == Spec.imbalance 45 35.
Proof.
  apply (proj1 imbalance_divides_by_larger_magnitude 45 35).
  - discriminate.
  - discriminate.
  - intros [H _]. discriminate H.
Defined.

(** C8, as the specification words it, fails for two negative values:
    the code divides by the larger magnitude, 2, and returns 50, where
    [|val_l - val_r| / max(val_l, val_r) * 100] is -100. *)
Lemma imbalance_of_negative_values :
  _calculate_difference_percent (-1) (-2) == 50
  /\ Spec.imbalance (-1) (-2) == -100
  /\ ~ _calculate_difference_percent (-1) (-2) == Spec.imbalance (-1) (-2).
Proof.
  repeat split; vm_compute; congruence.
Qed.

(** ** The attributes that a calculation reads *)

Lemma ignores_rfst_mret {A : Type} (x : A) : ignores_rfst (mret x).
Proof. intros a b H. split; [reflexivity | exact H]. Qed.

Lemma ignores_rfst_call {A : Type} (r : result A) : ignores_rfst (call r).
Proof. intros a b H. split; [reflexivity | exact H]. Qed.

Lemma ignores_rfst_min_freq : ignores_rfst (attr min_freq).
Proof. intros a b H. split; [simpl; f_equal; apply H | exact H]. Qed.

Lemma ignores_rfst_max_freq : ignores_rfst (attr max_freq).
Proof. intros a b H. split; [simpl; f_equal; apply H | exact H]. Qed.

Lemma ignores_rfst_c_extension : ignores_rfst (attr _c_extension).
Proof. intros a b H. split; [simpl; f_equal; apply H | exact H]. Qed.

Lemma ignores_rfst_mbind {A B : Type} (c : method A) (k : A -> method B) :
  ignores_rfst c -> (forall x, ignores_rfst (k x)) -> ignores_rfst (mbind c k).
Proof.
  intros Hc Hk a b H. unfold mbind.
  destruct (Hc a b H) as [E S].
  destruct (c a) as [[x | e] a'], (c b) as [[y | e'] b']; simpl in *;
    try discriminate.
  - injection E as <-. now apply Hk.
  - injection E as <-. split; [reflexivity | assumption].
Qed.

Lemma ignores_rfst_for_each_m {S : Type} (idx : list nat)
  (body : nat -> S -> method S) :
  (forall i s, ignores_rfst (body i s)) ->
  forall s, ignores_rfst (for_each_m idx body s).
Proof.
  intros Hbody. induction idx as [| i rest IH]; intros s; simpl.
  - apply ignores_rfst_mret.
  - apply ignores_rfst_mbind; [apply Hbody | intros s'; apply IH].
Qed.

Ltac rfst_step :=
  first [ apply ignores_rfst_mret | apply ignores_rfst_call
        | apply ignores_rfst_min_freq | apply ignores_rfst_max_freq
        | apply ignores_rfst_c_extension
        | apply ignores_rfst_mbind; [| intros ?] ].

Lemma ignores_rfst_optimized_python numpy platform_data force_data time_data
  static_weight :
  ignores_rfst (Py._calculate_optimized_python numpy platform_data force_data
                  time_data static_weight).
Proof.
  unfold Py._calculate_optimized_python.
  destruct (_ <? _)%nat; [rfst_step |].
  apply ignores_rfst_mbind.
  - unfold Py._analyze_cycles_vectorized.
    apply ignores_rfst_for_each_m. intros i [phase_shifts frequencies].
    unfold Py.cycle_step. repeat rfst_step.
    destruct (negb _); [rfst_step |].
    destruct (ieee_div _ _); [| rfst_step].
    repeat rfst_step.
  - intros [phase_shifts frequencies].
    rfst_step; [rfst_step |].
    destruct (negb _); [rfst_step |].
    repeat rfst_step.
Qed.

Lemma ignores_rfst_calculate numpy platform_data force_data time_data
  static_weight :
  ignores_rfst (Py.calculate numpy platform_data force_data time_data
                  static_weight).
Proof.
  unfold Py.calculate.
  apply ignores_rfst_mbind; [apply ignores_rfst_c_extension | intros ext].
  destruct ext.
  - intros a b H. split; [reflexivity | exact H].
  - apply ignores_rfst_optimized_python.
Qed.

(** ** Where the code leaves the specification *)

(** C1 at a failing input.  In [platform_late_top] the cycle runs from
    the sample 5 to the sample 55 and the platform is highest at the
    sample 12.  With Fref = 59/980 s and 10 Hz the phase relative to the
    true platform top is 900/7 degrees; the Python path returns 180
    degrees, the phase relative to the start of the cycle, and so does
    [calculate_cycle_phase] of the C extension for this cycle.  The
    platform samples are not read at all once the cycle limits are
    known. *)
Theorem phase_is_measured_from_cycle_start :
  Py._find_peaks_fast platform_late_top 50 = [5; 55]%nat
  /\ C.find_peaks platform_late_top 61 6 50 = [5; 55]%nat
  /\ Spec.peak_index platform_late_top 5 55 = 12%nat
  /\ option_map Qred
       (Spec.Fref (cycle_of force_down_up) (cycle_of time_490Hz) 650 25 25)
     = Some (59 # 980)
  /\ Spec.phi (59 # 980) (Spec.TOPp time_490Hz platform_late_top 5 55) 10
     == 900 # 7
  /\ Spec.phi (59 # 980) (item time_490Hz 5) 10 == 180
  /\ (forall numpy : numpy_release,
         reduce (fst (Py.calculate numpy platform_late_top force_down_up
                        time_490Hz 650 (Py.__init__ false)))
         = Ok (Valid 180 10 [180] [10]))
  /\ option_map Qred (C.calculate_cycle_phase force_down_up time_490Hz 5 55 650)
     = Some 180
  /\ (forall platform_data platform_data' force_data time_data static_weight
             peaks self,
         Py._analyze_cycles_vectorized platform_data force_data time_data
           static_weight peaks self
         = Py._analyze_cycles_vectorized platform_data' force_data time_data
             static_weight peaks self).
Proof.
  repeat split; try intros numpy; vm_compute; reflexivity.
Qed.

(** C2 at a failing input.  In the one cycle of this record the force
    never meets the static weight.  [_calculate_phase_fast] returns
    -1.0 for it, the caller keeps every value that is not [None], and
    the Python path reports a valid result whose minimum phase is that
    -1.0. *)
Theorem cycle_without_crossings_is_kept :
  Py.find_crossings (cycle_of force_above) (cycle_of time_490Hz) 650 = Ok []
  /\ Py._calculate_phase_fast (cycle_of force_above) (cycle_of time_490Hz) 650
     = Ok (-1)
  /\ Py.is_not_None (-1) = true
  /\ (forall numpy : numpy_release,
         reduce (fst (Py.calculate numpy platform_two_peaks force_above
                        time_490Hz 650 (Py.__init__ false)))
         = Ok (Valid (-1) 10 [-1] [10])).
Proof.
  repeat split; try intros numpy; vm_compute; reflexivity.
Qed.

(** C3 at two failing inputs.  In [force_touch] the force falls onto the
    static weight at the sample 20 and rises through it between the
    samples 39 and 40: the scan records the fall twice, and the code takes
    the mean of these two entries, 2/49 s, where the midpoint of the
    first down-crossing and the first up-crossing is 17/280 s.  In
    [force_low_band] the static weight lies in the lowest quarter of the
    force range and the code computes a phase all the same.
    [calculate_cycle_phase] of the C extension gives the same two phases
    for these cycles.  No result of [calculate] depends on [rfst_fmin] or
    [rfst_fmax]. *)
Theorem fref_is_mean_of_first_two_crossings :
  (exists crossings,
      Py.find_crossings (cycle_of force_touch) (cycle_of time_490Hz) 650
      = Ok crossings
      /\ map Qred crossings = [2 # 49; 2 # 49; 79 # 980])
  /\ map fst (Spec.crossings (cycle_of force_touch) (cycle_of time_490Hz) 650)
     = [Spec.Down; Spec.Down; Spec.Up]
  /\ option_map Qred
       (Spec.Fref (cycle_of force_touch) (cycle_of time_490Hz) 650 25 25)
     = Some (17 # 280)
  /\ Spec.phi (17 # 280) (item time_490Hz 5) 10 == 8730 # 49
  /\ Spec.phi (2 # 49) (item time_490Hz 5) 10 == 5400 # 49
  /\ (forall numpy : numpy_release,
         reduce (fst (Py.calculate numpy platform_two_peaks force_touch
                        time_490Hz 650 (Py.__init__ false)))
         = Ok (Valid (5400 # 49) 10 [5400 # 49] [10]))
  /\ option_map Qred (C.calculate_cycle_phase force_touch time_490Hz 5 55 650)
     = Some (5400 # 49)
  /\ Spec.in_validity_band (cycle_of force_low_band) 650 25 25 = false
  /\ Spec.Fref (cycle_of force_low_band) (cycle_of time_490Hz) 650 25 25 = None
  /\ (forall numpy : numpy_release,
         reduce (fst (Py.calculate numpy platform_two_peaks force_low_band
                        time_490Hz 650 (Py.__init__ false)))
         = Ok (Valid 180 10 [180] [10]))
  /\ option_map Qred (C.calculate_cycle_phase force_low_band time_490Hz 5 55 650)
     = Some 180
  /\ (forall numpy a b platform_data force_data time_data static_weight,
         same_but_rfst a b ->
         fst (Py.calculate numpy platform_data force_data time_data
                static_weight a)
         = fst (Py.calculate numpy platform_data force_data time_data
                  static_weight b)).
Proof.
  split; [eexists; split; vm_compute; reflexivity |].
  repeat (split; [try intros numpy; vm_compute; reflexivity |]).
  intros numpy a b p f t sw H. now apply ignores_rfst_calculate.
Qed.

(** C4 at a failing input.  The one cycle of this record lies in the
    frequency band and has a single crossing, so no cycle is valid.  The
    Python path still returns a minimum: the -1.0 of that cycle, with
    its frequency of 10 Hz. *)
Theorem minimum_includes_invalid_cycle :
  (exists crossings,
      Py.find_crossings (cycle_of force_one_crossing) (cycle_of time_490Hz) 650
      = Ok crossings
      /\ length crossings = 1%nat)
  /\ Py._calculate_phase_fast (cycle_of force_one_crossing)
       (cycle_of time_490Hz) 650
     = Ok (-1)
  /\ (forall numpy : numpy_release,
         reduce (fst (Py.calculate numpy platform_two_peaks force_one_crossing
                        time_490Hz 650 (Py.__init__ false)))
         = Ok (Valid (-1) 10 [-1] [10])).
Proof.
  split; [eexists; split; vm_compute; reflexivity |].
  split; try intros numpy; vm_compute; reflexivity.
Qed.

(** C10 at failing inputs.  With the extension loaded, [calculate] passes
    eight arguments to a function whose format string takes seven: the
    C path raises [TypeError] on every record, where the Python path
    returns a result.  Called with the seven arguments it parses, the C
    function still differs from the Python path.  On the record without
    crossings the Python path returns a valid result and the C function
    an invalid one.  On [platform_early_peak] the C function accepts the
    peak at the sample 3, which the Python peak finder refuses because
    it is less than 5 samples from the start: the C function returns a
    phase and the Python path reports too few peaks. *)
Theorem python_and_c_paths_differ :
  (forall (numpy : numpy_release)
          (platform_data force_data time_data : list Q)
          (static_weight lo hi fmin fmax : Q) (cache : list (string * Q)),
      fst (Py.calculate numpy platform_data force_data time_data static_weight
             {| min_freq := lo; max_freq := hi; rfst_fmin := fmin;
                rfst_fmax := fmax; _cache := cache; _c_extension := true |})
      = Raise TypeError)
  /\ (forall numpy : numpy_release,
         reduce (fst (Py.calculate numpy platform_two_peaks force_down_up
                        time_490Hz 650 (Py.__init__ false)))
         = Ok (Valid 180 10 [180] [10])
         /\ fst (Py.calculate numpy platform_two_peaks force_down_up
                   time_490Hz 650 (Py.__init__ true))
            = Raise TypeError)
  /\ (forall numpy : numpy_release,
         reduce (fst (Py.calculate numpy platform_two_peaks force_above
                        time_490Hz 650 (Py.__init__ false)))
         = Ok (Valid (-1) 10 [-1] [10]))
  /\ C.calculate_phase_shift platform_two_peaks force_above time_490Hz
       [650; 6; 18; 25]
     = Ok (Invalid "No valid cycles found")
  /\ Py._find_peaks_fast platform_early_peak 50 = [55]%nat
  /\ C.find_peaks platform_early_peak 61 6 50 = [3; 55]%nat
  /\ (forall numpy : numpy_release,
         fst (Py.calculate numpy platform_early_peak force_down_up time_490Hz
                650 (Py.__init__ false))
         = Ok (Invalid "Nicht genug Peaks gefunden"))
  /\ reduce (C.calculate_phase_shift platform_early_peak force_down_up
               time_490Hz [650; 6; 18; 25])
     = Ok (Valid (2940 # 17) (490 # 51) [2940 # 17] [490 # 51]).
Proof.
  split; [intros; reflexivity |].
  repeat split; try intros numpy; vm_compute; reflexivity.
Qed.

(** ** The minimum search of the C extension *)

Section CMinimum.

Variables (force time : list Q) (static_weight lo hi : Q) (peaks : list nat).

Lemma c_cycle_step_kept (i : nat) (cycles : list C.CycleData) :
  Forall (kept lo hi) cycles ->
  Forall (kept lo hi) (C.cycle_step force time static_weight lo hi peaks i cycles).
Proof.
  intros H. unfold C.cycle_step.
  destruct (ieee_div _ _) as [frequency |]; [| exact H].
  destruct (Qlt_bool frequency lo || Qgt_bool frequency hi) eqn:Eband; [exact H |].
  destruct (C.calculate_cycle_phase _ _ _ _ _) as [p |]; [| exact H].
  destruct (C.dge (Some p) 0) eqn:Ep; [| exact H].
  apply Forall_app. split; [exact H |].
  constructor; [| constructor].
  apply orb_false_iff in Eband as [E1 E2].
  apply Qlt_bool_false_iff in E1. apply Qlt_bool_false_iff in E2.
  simpl in Ep. apply Qle_bool_iff in Ep.
  unfold kept; simpl. auto.
Qed.

Lemma c_cycles_kept (idx : list nat) :
  forall cycles,
    Forall (kept lo hi) cycles ->
    Forall (kept lo hi)
      (fold_left (fun cycles i =>
                    C.cycle_step force time static_weight lo hi peaks i cycles)
                 idx cycles).
Proof.
  induction idx as [| i rest IH]; simpl; intros cycles H; [exact H |].
  apply IH. now apply c_cycle_step_kept.
Qed.

End CMinimum.

Lemma c_min_step_keeps (cycles : list C.CycleData) (k : nat) (m : Q * Q * nat) :
  is_minimum_so_far cycles k m ->
  is_minimum_so_far cycles (S k) (C.min_step cycles k m).
Proof.
  destruct m as [[min_phase min_freq] min_idx]. intros [Hat Hle].
  unfold C.min_step.
  destruct (nth_error cycles k) as [c |] eqn:Ek.
  - destruct (Qlt_bool (C.phase_shift c) min_phase) eqn:E.
    + apply Qlt_bool_iff in E. split; [eauto |].
      intros j c' Hj Hc'. destruct (Nat.eq_dec j k) as [-> | Hne].
      * rewrite Ek in Hc'. injection Hc' as <-. lra.
      * assert (min_phase <= C.phase_shift c') by (apply (Hle j); [lia | auto]).
        lra.
    + apply Qlt_bool_false_iff in E. split; [exact Hat |].
      intros j c' Hj Hc'. destruct (Nat.eq_dec j k) as [-> | Hne].
      * rewrite Ek in Hc'. injection Hc' as <-. exact E.
      * apply (Hle j); [lia | auto].
  - split; [exact Hat |].
    intros j c' Hj Hc'. destruct (Nat.eq_dec j k) as [-> | Hne].
    + congruence.
    + apply (Hle j); [lia | auto].
Qed.

Lemma c_min_fold_keeps (cycles : list C.CycleData) (len : nat) :
  forall k m,
    is_minimum_so_far cycles k m ->
    is_minimum_so_far cycles (k + len)
      (fold_left (fun m i => C.min_step cycles i m) (seq k len) m).
Proof.
  induction len as [| len IH]; simpl; intros k m H.
  - now rewrite Nat.add_0_r.
  - rewrite <- Nat.add_succ_comm. apply IH. now apply c_min_step_keeps.
Qed.

(** X13.  Whenever the C extension, called with the seven arguments that
    it parses, returns a valid result, the reported minimum is the
    smallest of the listed phases, the reported frequency is the one
    listed at the same position, every listed frequency lies in the band
    (both ends included) and no listed phase is negative. *)
Theorem c_extension_minimum_over_kept_cycles :
  forall (platform force time : list Q)
         (static_weight lo hi rfst_fmin : Q)
         (m f : Q) (phase_shifts frequencies : list Q),
    C.calculate_phase_shift platform force time
      [static_weight; lo; hi; rfst_fmin]
    = Ok (Valid m f phase_shifts frequencies) ->
    (exists k, nth_error phase_shifts k = Some m
               /\ nth_error frequencies k = Some f)
    /\ (forall x, In x phase_shifts -> m <= x)
    /\ (forall x, In x frequencies -> lo <= x /\ x <= hi)
    /\ (forall x, In x phase_shifts -> 0 <= x).
Proof.
  intros platform force time static_weight lo hi rfst_fmin
    m f phase_shifts frequencies.
  unfold C.calculate_phase_shift, C.PyArg_ParseTuple.
  destruct (_ || _); [discriminate |].
  set (peaks := C.find_peaks _ _ _ _).
  destruct (_ <? _)%nat; [discriminate |].
  set (cycles := fold_left _ _ _).
  assert (Hkept : Forall (kept lo hi) cycles)
    by (apply c_cycles_kept; constructor).
  destruct cycles as [| c0 rest] eqn:Ecycles; [discriminate |].
  rewrite <- Ecycles in *. clearbody cycles.
  assert (Hmin : is_minimum_so_far cycles (1 + (length cycles - 1))
                   (fold_left (fun m i => C.min_step cycles i m)
                              (range 1 (length cycles))
                              (C.phase_shift c0, C.frequency c0, 0%nat))).
  { apply c_min_fold_keeps. subst cycles. split.
    - exists c0. simpl. auto.
    - intros j c Hj Hc. assert (j = 0)%nat as -> by lia.
      simpl in Hc. injection Hc as <-. lra. }
  destruct (fold_left _ (range 1 (length cycles)) _) as [[min_phase min_freq'] min_idx].
  intros H. injection H as <- <- <- <-.
  destruct Hmin as [(c & Hc & -> & ->) Hle].
  split; [| split; [| split]].
  - exists min_idx. split; rewrite nth_error_map, Hc; reflexivity.
  - intros x Hx. apply in_map_iff in Hx as (c' & <- & Hin).
    apply In_nth_error in Hin as [j Hj].
    apply (Hle j c'); [| exact Hj].
    assert (j < length cycles)%nat by (apply nth_error_Some; congruence).
    lia.
  - intros x Hx. apply in_map_iff in Hx as (c' & <- & Hin).
    rewrite Forall_forall in Hkept. destruct (Hkept c' Hin) as (? & ? & ?). auto.
  - intros x Hx. apply in_map_iff in Hx as (c' & <- & Hin).
    rewrite Forall_forall in Hkept. destruct (Hkept c' Hin) as (? & ? & ?). auto.
Qed.

(** ** The sentinel of the Python path *)

(** A cycle with fewer than two crossings gets the phase -1.0, which is
    a float and so passes the test [phase is not None]. *)
Lemma phase_fast_sentinel (force_data time_data : list Q) (static_weight : Q)
  (crossings : list Q) :
  Py.find_crossings force_data time_data static_weight = Ok crossings ->
  (length crossings < 2)%nat ->
  Py._calculate_phase_fast force_data time_data static_weight = Ok (-1)
  /\ Py.is_not_None (-1) = true.
Proof.
  intros Hc Hlen. unfold Py._calculate_phase_fast, rbind. rewrite Hc.
  apply Nat.ltb_lt in Hlen. rewrite Hlen. split; reflexivity.
Qed.

(** With two kept cycles the truth value of the array of phases is
    undefined: the Python path raises, where the C function, called with
    the seven arguments that it parses, returns the minimum. *)
Lemma python_path_raises_on_two_cycles :
  (forall numpy : numpy_release,
      fst (Py.calculate numpy platform_three_peaks force_two_cycles time_111 650
             (Py.__init__ false))
      = Raise ValueError)
  /\ reduce (C.calculate_phase_shift platform_three_peaks force_two_cycles
               time_111 [650; 6; 18; 25])
     = Ok (Valid 180 10 [180; 180] [10; 10]).
Proof.
  split; try intros numpy; vm_compute; reflexivity.
Qed.

(** ** What the Python path computes for a cycle *)

Lemma py_mod_scaled (x d : Q) :
  0 < d ->
  py_mod (x / d * 360) 360 == py_mod x (1 / (1 / d)) * (1 / d) * 360.
Proof.
  intros Hd. unfold py_mod.
  assert (E1 : x / d * 360 / 360 == x / d) by (field; lra).
  assert (E2 : x / (1 / (1 / d)) == x / d) by (field; lra).
  rewrite (Qfloor_comp _ _ E1), (Qfloor_comp _ _ E2).
  field. lra.
Qed.

Lemma normalize_is_phi (fref t0 d : Q) :
  0 < d ->
  Py.normalize ((fref - t0) / d * 360) == Spec.phi fref t0 (1 / d).
Proof.
  intros Hd. unfold Py.normalize, Spec.phi.
  pose proof (py_mod_scaled (fref - t0) d Hd) as E.
  set (p := py_mod ((fref - t0) / d * 360) 360) in *.
  set (q := py_mod (fref - t0) (1 / (1 / d)) * (1 / d) * 360) in *.
  unfold Qgt_bool, Qlt_bool.
  rewrite (Qleb_comp _ _ E _ _ (Qeq_refl 180)).
  destruct (negb (Qle_bool q 180)); rewrite E; reflexivity.
Qed.

(** X5.  For a cycle with at least two crossings the Python path returns the
    phase formula of the specification evaluated at the mean of the
    first two crossings and at the time of the first sample of the
    cycle, with the frequency of the cycle. *)
Lemma python_phase_is_phi_from_cycle_start
  (force_data time_data : list Q) (static_weight c0 c1 t0 tl : Q)
  (rest : list Q) :
  Py.find_crossings force_data time_data static_weight = Ok (c0 :: c1 :: rest) ->
  py_get time_data 0 = Ok t0 ->
  py_last time_data = Ok tl ->
  0 < tl - t0 ->
  exists phase,
    Py._calculate_phase_fast force_data time_data static_weight = Ok phase
    /\ phase == Spec.phi ((c0 + c1) / 2) t0 (1 / (tl - t0)).
Proof.
  intros Hc Ht0 Htl Hd.
  unfold Py._calculate_phase_fast, rbind. rewrite Hc. simpl.
  rewrite Htl, Ht0. unfold py_div.
  assert (Hz : Qis_zero (tl - t0) = false)
    by (apply Qis_zero_false_iff; intros E; lra).
  rewrite Hz. eexists. split; [reflexivity |].
  now apply normalize_is_phi.
Qed.

(** ** The ring buffer *)

Lemma store_inside (a : list Q) :
  forall idx x,
    (idx < length a)%nat ->
    Ring.store a idx x = Ok (firstn idx a ++ x :: skipn (S idx) a).
Proof.
  induction a as [| y rest IH]; intros idx x H; simpl in H; [lia |].
  destruct idx as [| idx]; simpl; [reflexivity |].
  unfold rbind. rewrite IH by lia. reflexivity.
Qed.

Lemma store_outside (a : list Q) :
  forall idx x, (length a <= idx)%nat -> Ring.store a idx x = Raise IndexError.
Proof.
  induction a as [| y rest IH]; intros idx x H; simpl; [reflexivity |].
  destruct idx as [| idx]; simpl in *; [lia |].
  unfold rbind. rewrite IH by lia. reflexivity.
Qed.

Lemma tl_skipn {A : Type} (k : nat) (l : list A) : tl (skipn k l) = skipn (S k) l.
Proof.
  revert l. induction k as [| k IH]; intros [| x l]; simpl; auto.
Qed.

Lemma deque_append_lastn {A : Type} (cap : nat) (l : list A) (x : A) :
  (0 < cap)%nat ->
  Ring.deque_append cap (Ring.lastn cap l) x = Ring.lastn cap (l ++ [x]).
Proof.
  intros Hcap. unfold Ring.deque_append, Ring.lastn.
  destruct (cap =? 0)%nat eqn:E; [apply Nat.eqb_eq in E; lia |].
  rewrite length_skipn, length_app. simpl.
  destruct (length l - (length l - cap) <? cap)%nat eqn:Elt.
  - apply Nat.ltb_lt in Elt.
    replace (length l - cap)%nat with 0%nat by lia.
    replace (length l + 1 - cap)%nat with 0%nat by lia. reflexivity.
  - apply Nat.ltb_ge in Elt. rewrite tl_skipn.
    replace (length l + 1 - cap)%nat with (S (length l - cap)) by lia.
    rewrite skipn_app.
    replace (S (length l - cap) - length l)%nat with 0%nat by lia.
    reflexivity.
Qed.

(** The rows of an array after a store at the write position, with the
    write position and the size moved on as [append] does, are the rows
    before with the new value appended as to a [deque(maxlen=cap)]. *)
Lemma rows_after_store (a : list Q) (cap w size : nat) (x : Q) :
  length a = cap -> (w < cap)%nat -> (size <= cap)%nat ->
  ((size < cap)%nat -> w = size) ->
  (if (Nat.min (size + 1) cap <? cap)%nat
   then firstn (Nat.min (size + 1) cap) (firstn w a ++ x :: skipn (S w) a)
   else skipn ((w + 1) mod cap) (firstn w a ++ x :: skipn (S w) a)
        ++ firstn ((w + 1) mod cap) (firstn w a ++ x :: skipn (S w) a))
  = Ring.deque_append cap
      (if (size <? cap)%nat then firstn size a else skipn w a ++ firstn w a) x.
Proof.
  intros Hlen Hw Hsize Hfill.
  assert (Hfw : length (firstn w a) = w) by (rewrite length_firstn; lia).
  unfold Ring.deque_append.
  destruct (cap =? 0)%nat eqn:E0; [apply Nat.eqb_eq in E0; lia |].
  destruct (size <? cap)%nat eqn:Es.
  - apply Nat.ltb_lt in Es. rewrite (Hfill Es) in *.
    rewrite length_firstn.
    replace (Nat.min size (length a) <? cap)%nat with true
      by (symmetry; apply Nat.ltb_lt; lia).
    destruct (Nat.min (size + 1) cap <? cap)%nat eqn:E1.
    + apply Nat.ltb_lt in E1.
      replace (Nat.min (size + 1) cap) with (size + 1)%nat by lia.
      rewrite firstn_app, Hfw.
      replace (size + 1 - size)%nat with 1%nat by lia.
      rewrite firstn_all2 by lia. reflexivity.
    + apply Nat.ltb_ge in E1.
      assert (size + 1 = cap)%nat by lia.
      replace ((size + 1) mod cap) with 0%nat
        by (replace (size + 1)%nat with cap by lia;
            symmetry; apply Nat.Div0.mod_same).
      rewrite (skipn_all2 (n := S size) a) by lia.
      simpl. rewrite app_nil_r. reflexivity.
  - apply Nat.ltb_ge in Es. assert (size = cap) by lia. subst size.
    replace (Nat.min (cap + 1) cap <? cap)%nat with false
      by (symmetry; apply Nat.ltb_ge; lia).
    rewrite length_app, length_skipn, Hfw.
    replace (length a - w + w <? cap)%nat with false
      by (symmetry; apply Nat.ltb_ge; lia).
    assert (Hsk : skipn w a = item a w :: skipn (S w) a).
    { clear - Hw Hlen. subst cap. revert w Hw.
      induction a as [| y rest IH]; intros w Hw; simpl in Hw; [lia |].
      destruct w as [| w]; [reflexivity |].
      simpl. unfold item. simpl. apply IH. lia. }
    rewrite Hsk. cbn [tl app].
    destruct (Nat.eq_dec (w + 1) cap) as [Ew | Ew].
    + replace ((w + 1) mod cap) with 0%nat
        by (rewrite Ew; symmetry; apply Nat.Div0.mod_same).
      rewrite (skipn_all2 (n := S w) a) by lia.
      simpl. rewrite app_nil_r. reflexivity.
    + rewrite Nat.mod_small by lia.
      rewrite skipn_app, firstn_app, Hfw.
      rewrite (skipn_all2 (firstn w a)) by lia.
      rewrite (firstn_all2 (firstn w a)) by lia.
      replace (w + 1 - w)%nat with 1%nat by lia.
      simpl. rewrite <- app_assoc. reflexivity.
Qed.

Lemma length_after_store (a : list Q) (w : nat) (x : Q) :
  (w < length a)%nat ->
  length (firstn w a ++ x :: skipn (S w) a) = length a.
Proof.
  intros H. rewrite length_app, length_firstn. cbn [length].
  rewrite length_skipn. lia.
Qed.

Lemma length_deque_append {A : Type} (cap : nat) (d : list A) (x : A) :
  (0 < cap)%nat -> (length d <= cap)%nat ->
  length (Ring.deque_append cap d x) = Nat.min (length d + 1) cap.
Proof.
  intros Hcap Hd. unfold Ring.deque_append.
  destruct (cap =? 0)%nat eqn:E0; [apply Nat.eqb_eq in E0; lia |].
  destruct (length d <? cap)%nat eqn:E.
  - apply Nat.ltb_lt in E. rewrite length_app. cbn [length]. lia.
  - apply Nat.ltb_ge in E. rewrite length_app. cbn [length].
    destruct d; cbn [length tl] in *; lia.
Qed.

(** One [append] on a well-formed buffer: it returns, the buffer stays
    well formed, and every array (and the metadata) gains the new value
    as a [deque(maxlen=capacity)] would. *)
Lemma append_step (b : Ring.RingBuffer) (p : Ring.point) :
  Ring.well_formed b ->
  exists b',
    Ring.append b p = (Ok tt, b')
    /\ Ring.well_formed b'
    /\ Ring.capacity b' = Ring.capacity b
    /\ Ring._size b' = Nat.min (Ring._size b + 1) (Ring.capacity b)
    /\ Ring._write_idx b' = ((Ring._write_idx b + 1) mod Ring.capacity b)%nat
    /\ Ring.rows b' (Ring._platform_buffer b')
       = Ring.deque_append (Ring.capacity b)
           (Ring.rows b (Ring._platform_buffer b)) (Ring.platform p)
    /\ Ring.rows b' (Ring._force_buffer b')
       = Ring.deque_append (Ring.capacity b)
           (Ring.rows b (Ring._force_buffer b)) (Ring.force p)
    /\ Ring.rows b' (Ring._time_buffer b')
       = Ring.deque_append (Ring.capacity b)
           (Ring.rows b (Ring._time_buffer b)) (Ring.time p)
    /\ Ring.rows b' (Ring._freq_buffer b')
       = Ring.deque_append (Ring.capacity b)
           (Ring.rows b (Ring._freq_buffer b)) (Ring.freq p)
    /\ Ring.rows b' (Ring._phase_buffer b')
       = Ring.deque_append (Ring.capacity b)
           (Ring.rows b (Ring._phase_buffer b)) (Ring.phase p)
    /\ Ring._metadata b'
       = Ring.deque_append (Ring.capacity b) (Ring._metadata b) (Ring.meta p).
Proof.
  intros (Hcap & Lp & Lf & Lt & Lq & Lh & Hw & Hs & Hfill & Hm).
  unfold Ring.append.
  rewrite !store_inside by lia.
  destruct (Ring.capacity b =? 0)%nat eqn:E0; [apply Nat.eqb_eq in E0; lia |].
  eexists. split; [reflexivity |].
  split; [| split; [reflexivity | split; [reflexivity | split; [reflexivity |]]]].
  - unfold Ring.well_formed; simpl.
    rewrite !length_after_store by lia.
    rewrite length_deque_append by lia.
    repeat split; try lia.
    + apply Nat.mod_upper_bound. lia.
    + intros Hlt. rewrite Nat.mod_small by lia. lia.
  - unfold Ring.rows; simpl.
    repeat split; try (apply rows_after_store; assumption).
Qed.

Lemma append_all_holds (ps : list Ring.point) :
  forall (b : Ring.RingBuffer) (before : list Ring.point),
    Ring.well_formed b -> holds b before ->
    exists b',
      Ring.append_all b ps = (Ok tt, b')
      /\ Ring.well_formed b'
      /\ Ring.capacity b' = Ring.capacity b
      /\ holds b' (before ++ ps).
Proof.
  induction ps as [| p rest IH]; intros b before Hwf Hb.
  - exists b. rewrite app_nil_r. simpl. auto.
  - destruct (append_step b p Hwf)
      as (b1 & E & Hwf1 & Hc1 & Hs1 & Hw1 & Rp & Rf & Rt & Rq & Rh & Rm).
    assert (Hcap : (0 < Ring.capacity b)%nat) by apply Hwf.
    assert (H1 : holds b1 (before ++ [p])).
    { destruct Hb as (Bs & Bw & Bp & Bf & Bt & Bq & Bh & Bm).
      unfold holds. rewrite Hc1, Hs1, Hw1, Rp, Rf, Rt, Rq, Rh, Rm.
      rewrite Bs, Bw, Bp, Bf, Bt, Bq, Bh, Bm.
      rewrite !map_app, length_app. simpl.
      rewrite !deque_append_lastn by assumption.
      rewrite Nat.Div0.add_mod_idemp_l.
      repeat split; try reflexivity. lia. }
    destruct (IH b1 (before ++ [p]) Hwf1 H1) as (b2 & E2 & Hwf2 & Hc2 & H2).
    exists b2. simpl. rewrite E, E2. rewrite <- app_assoc in H2.
    split; [reflexivity | split; [exact Hwf2 | split; [congruence | exact H2]]].
Qed.

Lemma new_buffer_well_formed (capacity : nat) :
  (0 < capacity)%nat ->
  Ring.well_formed (Ring.__init__ capacity) /\ holds (Ring.__init__ capacity) [].
Proof.
  intros H. unfold Ring.well_formed, holds, Ring.rows, Ring.lastn; simpl.
  rewrite !repeat_length.
  replace (0 <? capacity)%nat with true by (symmetry; apply Nat.ltb_lt; lia).
  rewrite Nat.Div0.mod_0_l.
  repeat split; auto; lia.
Qed.

(** X15.  Appending any number of points to a new buffer of positive capacity
    never raises; afterwards the size is the number of points, capped at
    the capacity, the write position is that number modulo the capacity,
    the metadata are those of the last [capacity] points, and the five
    arrays have [capacity] entries each. *)
Theorem ring_buffer_after_appends :
  forall (capacity : nat) (ps : list Ring.point),
    (0 < capacity)%nat ->
    exists b,
      Ring.append_all (Ring.__init__ capacity) ps = (Ok tt, b)
      /\ Ring.capacity b = capacity
      /\ Ring._size b = Nat.min (length ps) capacity
      /\ Ring._write_idx b = (length ps mod capacity)%nat
      /\ Ring._metadata b = Ring.lastn capacity (map Ring.meta ps)
      /\ length (Ring._platform_buffer b) = capacity
      /\ length (Ring._force_buffer b) = capacity
      /\ length (Ring._time_buffer b) = capacity
      /\ length (Ring._freq_buffer b) = capacity
      /\ length (Ring._phase_buffer b) = capacity.
Proof.
  intros capacity ps Hcap.
  destruct (new_buffer_well_formed capacity Hcap) as [Hwf Hh].
  destruct (append_all_holds ps _ [] Hwf Hh) as (b & E & Hwf' & Hc & H).
  simpl in Hc, H. exists b.
  destruct H as (Bs & Bw & _ & _ & _ & _ & _ & Bm).
  destruct Hwf' as (_ & Lp & Lf & Lt & Lq & Lh & _).
  rewrite Hc in *. repeat split; assumption.
Qed.

Lemma ring_buffer_after_appends_witness :
  exists b,
    Ring.append_all (Ring.__init__ 2)
      [ {| Ring.platform := 1; Ring.force := 700; Ring.time := 0;
           Ring.freq := 10; Ring.phase := 40; Ring.meta := [] |};
        {| Ring.platform := 2; Ring.force := 710; Ring.time := 1;
           Ring.freq := 10; Ring.phase := 41; Ring.meta := [] |};
        {| Ring.platform := 3; Ring.force := 720; Ring.time := 2;
           Ring.freq := 10; Ring.phase := 42; Ring.meta := [] |} ]
    = (Ok tt, b)
    /\ Ring.capacity b = 2%nat
    /\ Ring._size b = Nat.min 3 2
    /\ Ring._write_idx b = (3 mod 2)%nat
    /\ Ring._metadata b = Ring.lastn 2 [ []; []; [] ]
    /\ length (Ring._platform_buffer b) = 2%nat
    /\ length (Ring._force_buffer b) = 2%nat
    /\ length (Ring._time_buffer b) = 2%nat
    /\ length (Ring._freq_buffer b) = 2%nat
    /\ length (Ring._phase_buffer b) = 2%nat.
Proof.
  apply (ring_buffer_after_appends 2
           [ {| Ring.platform := 1; Ring.force := 700; Ring.time := 0;
                Ring.freq := 10; Ring.phase := 40; Ring.meta := [] |};
             {| Ring.platform := 2; Ring.force := 710; Ring.time := 1;
                Ring.freq := 10; Ring.phase := 41; Ring.meta := [] |};
             {| Ring.platform := 3; Ring.force := 720; Ring.time := 2;
                Ring.freq := 10; Ring.phase := 42; Ring.meta := [] |} ]).
  lia.
Defined.

Lemma skipn_item (l : list Q) :
  forall a, (a < length l)%nat -> skipn a l = item l a :: skipn (S a) l.
Proof.
  induction l as [| y rest IH]; intros a H; simpl in H; [lia |].
  destruct a as [| a]; [reflexivity |].
  simpl. unfold item. simpl. apply IH. lia.
Qed.

Lemma take_seq (l : list Q) (n : nat) :
  forall a, (a + n <= length l)%nat ->
            Ring.take l (seq a n) = firstn n (skipn a l).
Proof.
  induction n as [| n IH]; intros a H; [reflexivity |].
  cbn [seq]. unfold Ring.take in *. cbn [map].
  rewrite (skipn_item l a) by lia. cbn [firstn].
  rewrite IH by lia. reflexivity.
Qed.

Lemma take_app (l : list Q) (i1 i2 : list nat) :
  Ring.take l (i1 ++ i2) = Ring.take l i1 ++ Ring.take l i2.
Proof. apply map_app. Qed.

Lemma sort_of_increasing (a : list Q) :
  forall s,
    Ring.increasing a ->
    fold_right Ring.insert_by_key [] (combine a (seq s (length a)))
    = combine a (seq s (length a)).
Proof.
  induction a as [| x xs IH]; intros s H; [reflexivity |].
  cbn [length seq combine fold_right].
  destruct xs as [| y ys]; [reflexivity |].
  destruct H as [Hxy Hrest].
  rewrite (IH (S s) Hrest).
  cbn [length seq combine Ring.insert_by_key fst].
  assert (E : Qle_bool x y = true) by (apply Qle_bool_iff; lra).
  rewrite E. reflexivity.
Qed.

Lemma map_snd_combine {A B : Type} (l : list A) :
  forall l' : list B, length l = length l' -> map snd (combine l l') = l'.
Proof.
  induction l as [| x xs IH]; intros [| y ys] H; simpl in *; try lia; auto.
  f_equal. apply IH. lia.
Qed.

Lemma argsort_of_increasing (a : list Q) :
  Ring.increasing a -> Ring.np_argsort a = seq 0 (length a).
Proof.
  intros H. unfold Ring.np_argsort. rewrite sort_of_increasing by assumption.
  apply map_snd_combine. now rewrite length_seq.
Qed.

(** [get_data()] returns the rows of the buffer, oldest first.  Until
    the buffer is full the rows are sorted by time, so the time stamps
    held have to be in increasing order for the rows to come back as
    they went in. *)
Lemma get_data_rows (b : Ring.RingBuffer) :
  Ring.well_formed b ->
  Ring._size b <> 0%nat ->
  ((Ring._size b < Ring.capacity b)%nat ->
   Ring.increasing (Ring.rows b (Ring._time_buffer b))) ->
  Ring.get_data b None
  = Ring.Data (Ring.rows b (Ring._platform_buffer b))
              (Ring.rows b (Ring._force_buffer b))
              (Ring.rows b (Ring._time_buffer b))
              (Ring.rows b (Ring._freq_buffer b))
              (Ring.rows b (Ring._phase_buffer b))
              (Ring._size b).
Proof.
  intros (Hcap & Lp & Lf & Lt & Lq & Lh & Hw & Hs & Hfill & Hm) Hne Hinc.
  unfold Ring.get_data, Ring.rows in *.
  destruct (Ring._size b =? 0)%nat eqn:E0; [apply Nat.eqb_eq in E0; lia |].
  destruct (Ring._size b <? Ring.capacity b)%nat eqn:Es.
  - apply Nat.ltb_lt in Es.
    rewrite argsort_of_increasing by (apply Hinc; exact Es).
    rewrite length_firstn.
    replace (Nat.min (Ring._size b) (length (Ring._time_buffer b)))
      with (Ring._size b) by lia.
    rewrite !take_seq by lia. reflexivity.
  - apply Nat.ltb_ge in Es. unfold range.
    rewrite !take_app, !take_seq by lia.
    rewrite !Nat.sub_0_r. cbn [skipn].
    rewrite !(firstn_all2 (n := (Ring.capacity b - Ring._write_idx b)%nat))
      by (rewrite length_skipn; lia).
    reflexivity.
Qed.

(** X16.  Round trip.  After any points, at least one, have been appended to
    a new buffer of positive capacity, [get_data()] returns the last
    [capacity] of them, oldest first, in each of the five arrays, and
    their number as the size.  Until the buffer is full this needs the
    time stamps to be strictly increasing, because the rows are then
    sorted by time. *)
Theorem ring_buffer_round_trip :
  forall (capacity : nat) (ps : list Ring.point),
    (0 < capacity)%nat ->
    ps <> [] ->
    ((length ps < capacity)%nat -> Ring.increasing (map Ring.time ps)) ->
    exists b,
      Ring.append_all (Ring.__init__ capacity) ps = (Ok tt, b)
      /\ Ring.get_data b None
         = Ring.Data (Ring.lastn capacity (map Ring.platform ps))
                     (Ring.lastn capacity (map Ring.force ps))
                     (Ring.lastn capacity (map Ring.time ps))
                     (Ring.lastn capacity (map Ring.freq ps))
                     (Ring.lastn capacity (map Ring.phase ps))
                     (Nat.min (length ps) capacity).
Proof.
  intros capacity ps Hcap Hne Hinc.
  destruct (new_buffer_well_formed capacity Hcap) as [Hwf Hh].
  destruct (append_all_holds ps _ [] Hwf Hh) as (b & E & Hwf' & Hc & H).
  simpl in Hc, H. exists b. split; [exact E |].
  destruct H as (Bs & Bw & Bp & Bf & Bt & Bq & Bh & Bm).
  rewrite Hc in *.
  rewrite get_data_rows; [congruence | exact Hwf' | |].
  - rewrite Bs.
    assert (0 < length ps)%nat
      by (destruct ps; [congruence | cbn [length]; lia]).
    lia.
  - rewrite Hc, Bs, Bt. intros Hlt.
    assert (Hl : (length ps < capacity)%nat) by lia.
    unfold Ring.lastn. rewrite length_map.
    replace (length ps - capacity)%nat with 0%nat by lia.
    apply Hinc. exact Hl.
Qed.

Lemma ring_buffer_round_trip_witness :
  exists b,
    Ring.append_all (Ring.__init__ 2)
      [ {| Ring.platform := 1; Ring.force := 700; Ring.time := 5;
           Ring.freq := 10; Ring.phase := 40; Ring.meta := [] |};
        {| Ring.platform := 2; Ring.force := 710; Ring.time := 3;
           Ring.freq := 10; Ring.phase := 41; Ring.meta := [] |};
        {| Ring.platform := 3; Ring.force := 720; Ring.time := 4;
           Ring.freq := 10; Ring.phase := 42; Ring.meta := [] |} ]
    = (Ok tt, b)
    /\ Ring.get_data b None
       = Ring.Data (Ring.lastn 2 [1; 2; 3]) (Ring.lastn 2 [700; 710; 720])
                   (Ring.lastn 2 [5; 3; 4]) (Ring.lastn 2 [10; 10; 10])
                   (Ring.lastn 2 [40; 41; 42]) (Nat.min 3 2).
Proof.
  apply (ring_buffer_round_trip 2
           [ {| Ring.platform := 1; Ring.force := 700; Ring.time := 5;
                Ring.freq := 10; Ring.phase := 40; Ring.meta := [] |};
             {| Ring.platform := 2; Ring.force := 710; Ring.time := 3;
                Ring.freq := 10; Ring.phase := 41; Ring.meta := [] |};
             {| Ring.platform := 3; Ring.force := 720; Ring.time := 4;
                Ring.freq := 10; Ring.phase := 42; Ring.meta := [] |} ]).
  - lia.
  - discriminate.
  - simpl. lia.
Defined.

(** *** Decimation *)

Lemma inject_nat_pos (n : nat) : (0 < n)%nat -> 0 < inject_Z (Z.of_nat n).
Proof. intros H. change 0 with (inject_Z 0). rewrite <- Zlt_Qlt. lia. Qed.

Lemma inject_nat_nonneg (n : nat) : 0 <= inject_Z (Z.of_nat n).
Proof. change 0 with (inject_Z 0). rewrite <- Zle_Qle. lia. Qed.

Lemma inject_nat_le (n m : nat) :
  (n <= m)%nat -> inject_Z (Z.of_nat n) <= inject_Z (Z.of_nat m).
Proof. intros H. rewrite <- Zle_Qle. lia. Qed.

(** Rounding to a double: the result is at most one part in 2^53 above
    the exact value (and 2^-1075 for the smallest numbers), it is not
    negative for a value that is not negative, and the integers up to
    2^53 are doubles. *)

Lemma round_half_even_upper (s : Q) :
  inject_Z (round_half_even s) <= s + (1 # 2).
Proof.
  unfold round_half_even.
  pose proof (Qfloor_le s) as Hlo.
  destruct (Qlt_bool (s - inject_Z (Qfloor s)) (1 # 2)) eqn:E1; [lra |].
  apply Qlt_bool_false_iff in E1.
  assert (H1 : inject_Z (Qfloor s + 1) <= s + (1 # 2))
    by (rewrite inject_Z_plus; change (inject_Z 1) with 1; lra).
  destruct (Qlt_bool _ _); [exact H1 |].
  destruct (Z.even _); [lra | exact H1].
Qed.

Lemma round_half_even_lower (s : Q) :
  0 <= s -> (0 <= round_half_even s)%Z.
Proof.
  intros Hs. unfold round_half_even.
  assert (H0 : (0 <= Qfloor s)%Z).
  { rewrite <- (Qfloor_Z 0). now apply Qfloor_resp_le. }
  destruct (Qlt_bool _ _); [exact H0 |].
  destruct (Qlt_bool _ _); [lia |].
  destruct (Z.even _); lia.
Qed.

Lemma round_half_even_integer (s : Q) (z : Z) :
  s == inject_Z z -> round_half_even s = z.
Proof.
  intros E. unfold round_half_even.
  rewrite (Qfloor_comp _ _ E), Qfloor_Z.
  assert (H : Qlt_bool (s - inject_Z z) (1 # 2) = true)
    by (apply Qlt_bool_iff; lra).
  now rewrite H.
Qed.

Lemma pow2_pos (e : Z) : 0 < 2 ^ e.
Proof. apply Qpower_0_lt. reflexivity. Qed.

Lemma pow2_succ (e : Z) : 2 ^ (e + 1) == 2 ^ e * 2.
Proof. rewrite Qpower_plus by discriminate. reflexivity. Qed.

Lemma log2_lower (n : Z) : (0 < n)%Z -> 2 ^ Z.log2 n <= inject_Z n.
Proof.
  intros Hn. destruct (Z.log2_spec n Hn) as [Hlo _].
  rewrite <- (Zpower_Qpower 2) by apply Z.log2_nonneg.
  now rewrite <- Zle_Qle.
Qed.

Lemma log2_upper (n : Z) : (0 < n)%Z -> inject_Z n < 2 ^ (Z.log2 n + 1).
Proof.
  intros Hn. destruct (Z.log2_spec n Hn) as [_ Hhi].
  rewrite <- (Zpower_Qpower 2) by (pose proof (Z.log2_nonneg n); lia).
  rewrite <- Zlt_Qlt. exact Hhi.
Qed.

Lemma normal_exponent_spec (q : Q) :
  0 < q -> 2 ^ 52 * 2 ^ normal_exponent q <= q.
Proof.
  intros Hq. unfold normal_exponent.
  set (a := Z.log2 (Qnum q)). set (b := Z.log2 (Zpos (Qden q))).
  set (e0 := (a - b - 52)%Z).
  pose proof (pow2_pos e0) as He0.
  destruct (Qlt_bool (q / 2 ^ e0) (2 ^ 52)) eqn:E.
  - assert (Hnum : (0 < Qnum q)%Z).
    { destruct q as [n d]. unfold Qlt in Hq. simpl in *. lia. }
    pose proof (log2_lower (Qnum q) Hnum) as Ha. fold a in Ha.
    pose proof (log2_upper (Zpos (Qden q)) eq_refl) as Hb. fold b in Hb.
    assert (Eq : q == inject_Z (Qnum q) / inject_Z (Zpos (Qden q))).
    { destruct q as [n d]. simpl. apply Qmake_Qdiv. }
    pose proof (pow2_pos (b + 1)) as Hb1.
    pose proof (pow2_pos (e0 - 1)) as He1.
    assert (Ee : 2 ^ a == 2 ^ 52 * 2 ^ (e0 - 1) * 2 ^ (b + 1)).
    { rewrite <- !Qpower_plus by discriminate. 
      replace (52 + (e0 - 1) + (b + 1))%Z with a by (unfold e0; lia).
      reflexivity. }
    set (D := inject_Z (Zpos (Qden q))) in *.
    assert (HD : 0 < D) by (unfold D; change 0 with (inject_Z 0); rewrite <- Zlt_Qlt; lia).
    set (N := inject_Z (Qnum q)) in *.
    assert (Hlt : 2 ^ 52 * 2 ^ (e0 - 1) * D <= N).
    { apply Qle_trans with (2 ^ 52 * 2 ^ (e0 - 1) * 2 ^ (b + 1)); [| lra].
      apply Qmult_le_l; [| lra].
      apply Qmult_lt_0_compat; [reflexivity | exact He1]. }
    rewrite Eq. apply Qle_shift_div_l; [exact HD | exact Hlt].
  - apply Qlt_bool_false_iff in E.
    pose proof (Qmult_le_compat_r _ _ (2 ^ e0) E (Qlt_le_weak _ _ He0)) as H.
    assert (Eq : q / 2 ^ e0 * 2 ^ e0 == q) by (field; lra).
    now rewrite Eq in H.
Qed.

Lemma round_positive_upper (q : Q) :
  0 < q ->
  round_positive q <= q * (1 + 2 ^ (-53)) + 2 ^ (-1075).
Proof.
  intros Hq. unfold round_positive, exponent.
  pose proof (normal_exponent_spec q Hq) as Hn.
  set (en := normal_exponent q) in *.
  set (e := Z.max en (-1074)).
  pose proof (pow2_pos e) as He.
  pose proof (round_half_even_upper (q / 2 ^ e)) as Hr.
  assert (H1 : inject_Z (round_half_even (q / 2 ^ e)) * 2 ^ e
               <= q + 2 ^ e * (1 # 2)).
  { pose proof (Qmult_le_compat_r _ _ (2 ^ e) Hr (Qlt_le_weak _ _ He)) as H.
    assert (Eq : (q / 2 ^ e + (1 # 2)) * 2 ^ e == q + 2 ^ e * (1 # 2))
      by (field; lra).
    now rewrite Eq in H. }
  apply Qle_trans with (1 := H1).
  assert (H2 : 2 ^ e * (1 # 2) <= q * 2 ^ (-53) + 2 ^ (-1075)).
  { destruct (Z.max_spec en (-1074)) as [[Hlt Ee] | [Hge Ee]]; fold e in Ee; rewrite Ee.
    - assert (E' : 2 ^ (-1074) * (1 # 2) == 2 ^ (-1075)) by reflexivity.
      rewrite E'. pose proof (pow2_pos (-53)). nra.
    - assert (E' : 2 ^ en * (1 # 2) == 2 ^ 52 * 2 ^ en * 2 ^ (-53)).
      { assert (E2 : 2 ^ 52 * 2 ^ (-53) == 1 # 2) by reflexivity.
        rewrite <- E2. ring. }
      rewrite E'. pose proof (pow2_pos (-53)). pose proof (pow2_pos (-1075)).
      nra. }
  lra.
Qed.

Lemma round_double_upper (q : Q) :
  0 <= q ->
  round_double q <= q * (1 + 2 ^ (-53)) + 2 ^ (-1075).
Proof.
  intros Hq. unfold round_double.
  pose proof (pow2_pos (-53)). pose proof (pow2_pos (-1075)).
  destruct (Qis_zero q) eqn:Ez; [nra |].
  apply Qis_zero_false_iff in Ez.
  assert (Hlt : Qlt_bool q 0 = false) by (apply Qlt_bool_false_iff; exact Hq).
  rewrite Hlt. apply round_positive_upper. lra.
Qed.

Lemma round_double_nonneg (q : Q) : 0 <= q -> 0 <= round_double q.
Proof.
  intros Hq. unfold round_double.
  destruct (Qis_zero q) eqn:Ez; [lra |].
  assert (Hlt : Qlt_bool q 0 = false) by (apply Qlt_bool_false_iff; exact Hq).
  rewrite Hlt. unfold round_positive.
  set (e := exponent q). pose proof (pow2_pos e) as He.
  assert (Hs : 0 <= q / 2 ^ e) by (apply Qle_shift_div_l; [exact He | lra]).
  pose proof (round_half_even_lower _ Hs) as Hr.
  apply Qmult_le_0_compat; [| lra].
  change 0 with (inject_Z 0). now rewrite <- Zle_Qle.
Qed.

Lemma round_double_integer (z : Z) :
  (0 <= z < 2 ^ 53)%Z -> round_double (inject_Z z) == inject_Z z.
Proof.
  intros [Hlo Hhi]. unfold round_double.
  destruct (Qis_zero (inject_Z z)) eqn:Ez.
  - apply Qis_zero_true_iff in Ez. now rewrite Ez.
  - apply Qis_zero_false_iff in Ez.
    assert (Hz : (0 < z)%Z).
    { destruct (Z.eq_dec z 0) as [-> | Hne]; [now elim Ez | lia]. }
    assert (Hq : 0 < inject_Z z)
      by (change 0 with (inject_Z 0); now rewrite <- Zlt_Qlt).
    assert (Hlt : Qlt_bool (inject_Z z) 0 = false)
      by (apply Qlt_bool_false_iff; lra).
    rewrite Hlt. unfold round_positive, exponent.
    pose proof (normal_exponent_spec _ Hq) as Hn.
    set (en := normal_exponent (inject_Z z)) in *.
    assert (Hen : (en <= 0)%Z).
    { assert (H2 : 2 ^ en < 2 ^ 1).
      { assert (Hz' : inject_Z z < 2 ^ 53).
        { rewrite <- (Zpower_Qpower 2) by lia. now rewrite <- Zlt_Qlt. }
        assert (E2 : 2 ^ 53 == 2 ^ 52 * 2 ^ 1) by reflexivity.
        rewrite E2 in Hz'. pose proof (pow2_pos en).
        assert (H52 : 0 < 2 ^ 52) by apply pow2_pos.
        nra. }
      apply Qpower_lt_compat_l_inv in H2; [lia | reflexivity]. }
    set (e := Z.max en (-1074)).
    assert (He : (e <= 0)%Z) by (unfold e; lia).
    assert (Es : inject_Z z / 2 ^ e == inject_Z (z * 2 ^ (- e))).
    { rewrite inject_Z_mult, (Zpower_Qpower 2) by lia.
      rewrite Qpower_opp. change (inject_Z 2) with 2.
      pose proof (pow2_pos e). field. lra. }
    rewrite (round_half_even_integer _ _ Es).
    rewrite inject_Z_mult, (Zpower_Qpower 2) by lia.
    rewrite Qpower_opp. change (inject_Z 2) with 2.
    pose proof (pow2_pos e). field. lra.
Qed.

Lemma linspace_length (stop num : nat) :
  length (Ring.np_linspace_int stop num) = num.
Proof.
  unfold Ring.np_linspace_int.
  destruct num as [| [| num]]; [reflexivity | reflexivity |].
  rewrite length_map, length_app, length_map, length_seq. simpl. lia.
Qed.

Lemma linspace_entry (stop num k : nat) :
  (2 <= num)%nat -> (k < num - 1)%nat ->
  nth k (Ring.np_linspace_int stop num) 0%nat
  = Z.to_nat
      (Qfloor
         (round_double
            (round_double (inject_Z (Z.of_nat k))
             * round_double (round_double (inject_Z (Z.of_nat stop))
                             / inject_Z (Z.of_nat (num - 1)))))).
Proof.
  intros Hn Hk. unfold Ring.np_linspace_int.
  destruct num as [| [| num]]; [lia | lia |].
  cbv zeta. rewrite map_app.
  rewrite app_nth1 by (rewrite !length_map, length_seq; exact Hk).
  rewrite map_map.
  set (f := fun k => Z.to_nat _).
  rewrite (nth_indep _ 0%nat (f 0%nat)) by (rewrite length_map, length_seq; lia).
  rewrite map_nth, seq_nth by lia. reflexivity.
Qed.

Lemma linspace_end (stop num : nat) :
  (2 <= num)%nat ->
  nth (num - 1) (Ring.np_linspace_int stop num) 0%nat
  = Z.to_nat (Qfloor (round_double (inject_Z (Z.of_nat stop)))).
Proof.
  intros Hn. unfold Ring.np_linspace_int.
  destruct num as [| [| num]]; [lia | lia |].
  cbv zeta. rewrite map_app.
  rewrite app_nth2 by (rewrite !length_map, length_seq; lia).
  rewrite !length_map, length_seq.
  replace (S (S num) - 1 - (S (S num) - 1))%nat with 0%nat by lia.
  reflexivity.
Qed.

Lemma linspace_first (stop num : nat) :
  (1 <= num)%nat -> nth 0 (Ring.np_linspace_int stop num) 0%nat = 0%nat.
Proof.
  intros H. destruct (Nat.eq_dec num 1) as [-> | Hne]; [reflexivity |].
  rewrite linspace_entry by lia.
  set (step := round_double (_ / _)).
  assert (E0 : round_double (inject_Z (Z.of_nat 0)) = 0) by reflexivity.
  rewrite E0.
  assert (E : round_double (0 * step) == 0).
  { unfold round_double.
    assert (Ez : Qis_zero (0 * step) = true) by (apply Qis_zero_true_iff; ring).
    now rewrite Ez. }
  now rewrite (Qfloor_comp _ _ E).
Qed.

Lemma linspace_last (stop num : nat) :
  (2 <= num)%nat -> (Z.of_nat stop < 2 ^ 53)%Z ->
  nth (num - 1) (Ring.np_linspace_int stop num) 0%nat = stop.
Proof.
  intros H Hs. rewrite linspace_end by exact H.
  rewrite (Qfloor_comp _ _ (round_double_integer (Z.of_nat stop)
                              (conj (Nat2Z.is_nonneg stop) Hs))).
  rewrite Qfloor_Z. apply Nat2Z.id.
Qed.

Lemma linspace_bound (stop num k : nat) :
  (Z.of_nat stop < 2 ^ 50)%Z -> (Z.of_nat num <= 2 ^ 50)%Z ->
  (k < num)%nat ->
  (nth k (Ring.np_linspace_int stop num) 0%nat <= stop)%nat.
Proof.
  intros Hstop Hnum Hk.
  destruct (Nat.eq_dec num 1) as [-> | Hne].
  { replace k with 0%nat by lia. simpl. lia. }
  destruct (Nat.eq_dec k (num - 1)) as [-> | Hlast].
  { rewrite linspace_last by lia. lia. }
  rewrite linspace_entry by lia.
  pose proof (round_double_integer (Z.of_nat k) ltac:(lia)) as Ek.
  pose proof (round_double_integer (Z.of_nat stop) ltac:(lia)) as Es.
  set (x := inject_Z (Z.of_nat k)) in *.
  set (s := inject_Z (Z.of_nat stop)) in *.
  set (d := inject_Z (Z.of_nat (num - 1))).
  set (fx := round_double x) in *. set (fs := round_double s) in *.
  assert (Hd : 0 < d) by (apply inject_nat_pos; lia).
  assert (Hx : 0 <= x) by apply inject_nat_nonneg.
  assert (Hxd : x <= d) by (apply inject_nat_le; lia).
  assert (Hs : 0 <= s) by apply inject_nat_nonneg.
  assert (Hx50 : x <= inject_Z (2 ^ 50)) by (unfold x; rewrite <- Zle_Qle; lia).
  assert (Hs50 : s <= inject_Z (2 ^ 50)) by (unfold s; rewrite <- Zle_Qle; lia).
  assert (Hq : 0 <= fs / d) by (apply Qle_shift_div_l; [exact Hd | lra]).
  pose proof (round_double_upper _ Hq) as Hstep.
  pose proof (round_double_nonneg _ Hq) as Hstep0.
  set (step := round_double (fs / d)) in *.
  assert (Hp : 0 <= fx * step) by (apply Qmult_le_0_compat; lra).
  pose proof (round_double_upper _ Hp) as Hv.
  set (v := round_double (fx * step)) in *.
  assert (Hr : x * (s / d) <= s).
  { assert (0 <= x / d /\ x / d <= 1) as [? ?].
    { split.
      - apply Qle_shift_div_l; [exact Hd | lra].
      - apply Qle_shift_div_r; [exact Hd | lra]. }
    setoid_replace (x * (s / d)) with (s * (x / d)) by (field; lra).
    nra. }
  assert (Hu : 2 ^ (-53) == 1 # 9007199254740992) by reflexivity.
  assert (Ht : 2 ^ (-1075) <= 1 # 1267650600228229401496703205376).
  { apply Qle_bool_iff. vm_compute. reflexivity. }
  assert (Ht0 : 0 < 2 ^ (-1075)) by apply pow2_pos.
  set (t := 2 ^ (-1075)) in *. rewrite Hu in Hstep, Hv.
  assert (E50 : inject_Z (2 ^ 50) == 1125899906842624) by reflexivity.
  rewrite E50 in Hx50, Hs50.
  assert (Hprod : fx * step
                  <= x * (s / d) * (1 + (1 # 9007199254740992)) + x * t).
  { rewrite Ek.
    assert (Hstep' : step <= s / d * (1 + (1 # 9007199254740992)) + t).
    { assert (Efs : fs / d == s / d) by now rewrite Es.
      now rewrite <- Efs. }
    nra. }
  assert (Hxt : x * t <= 1 # 1125899906842624).
  { apply Qle_trans with (1125899906842624 * t).
    - apply Qmult_le_compat_r; lra.
    - lra. }
  assert (Hlt : v < s + 1) by lra.
  assert (Hfl : (Qfloor v < Z.of_nat stop + 1)%Z).
  { rewrite Zlt_Qlt. apply Qle_lt_trans with v; [apply Qfloor_le |].
    rewrite inject_Z_plus. exact Hlt. }
  lia.
Qed.

(** The rounding shows: in exact arithmetic the position 11 of 23 points
    over 31 rows is 11 * 30 / 22 = 15; the product of the doubles lies
    just below 15. *)
Lemma linspace_rounds_down :
  nth 11 (Ring.np_linspace_int 30 23) 0%nat = 14%nat.
Proof. vm_compute. reflexivity. Qed.

Lemma length_insert_by_key (x : Q * nat) (l : list (Q * nat)) :
  length (Ring.insert_by_key x l) = S (length l).
Proof.
  induction l as [| y rest IH]; simpl; [reflexivity |].
  destruct (Qle_bool _ _); simpl; auto.
Qed.

Lemma length_argsort (a : list Q) : length (Ring.np_argsort a) = length a.
Proof.
  unfold Ring.np_argsort. rewrite length_map.
  assert (H : forall l : list (Q * nat),
             length (fold_right Ring.insert_by_key [] l) = length l).
  { induction l as [| x l IH]; simpl; [reflexivity |].
    now rewrite length_insert_by_key, IH. }
  rewrite H, length_combine, length_seq. lia.
Qed.

Lemma length_sort_idx (b : Ring.RingBuffer) :
  Ring.well_formed b -> length (sort_idx_of b) = Ring._size b.
Proof.
  intros (Hcap & Lp & Lf & Lt & Lq & Lh & Hw & Hs & Hfill & Hm).
  unfold sort_idx_of.
  destruct (Ring._size b <? Ring.capacity b)%nat eqn:E.
  - rewrite length_argsort, length_firstn. lia.
  - apply Nat.ltb_ge in E. unfold range.
    rewrite length_app, !length_seq. lia.
Qed.

Lemma take_pick (a : list Q) (order idx : list nat) :
  (forall i, In i idx -> (i < length order)%nat) ->
  Ring.take a (map (fun i => nth i order 0%nat) idx)
  = pick (Ring.take a order) idx.
Proof.
  intros H. unfold Ring.take, pick. rewrite map_map.
  apply map_ext_in. intros i Hi.
  rewrite (nth_indep (map (item a) order) 0 (item a 0%nat))
    by (rewrite length_map; auto).
  now rewrite map_nth.
Qed.

(** X18.  Decimation.  With [max_points] positive and smaller than the number
    of rows, [get_data(max_points)] returns [max_points] rows: the rows of
    [get_data()] at the positions [linspace(0, n - 1, max_points)], which
    are computed in doubles.  For a buffer of at most 2^50 rows the
    rounding never leads outside the rows: every position lies inside
    them, the first is the oldest row and, from two rows on, the last is
    the newest. *)
Theorem ring_buffer_decimation :
  forall (b : Ring.RingBuffer) (max_points n : nat)
         (P F T Fr Ph : list Q),
    Ring.well_formed b ->
    (0 < max_points < Ring._size b)%nat ->
    (Z.of_nat (Ring._size b) <= 2 ^ 50)%Z ->
    Ring.get_data b None = Ring.Data P F T Fr Ph n ->
    let idx := Ring.np_linspace_int (n - 1) max_points in
    Ring.get_data b (Some max_points)
    = Ring.Data (pick P idx) (pick F idx) (pick T idx) (pick Fr idx)
                (pick Ph idx) max_points
    /\ length idx = max_points
    /\ nth 0 idx 0%nat = 0%nat
    /\ ((2 <= max_points)%nat -> nth (max_points - 1) idx 0%nat = (n - 1)%nat)
    /\ (forall i, In i idx -> (i < n)%nat).
Proof.
  intros b m n P F T Fr Ph Hwf Hm Hsize Hall idx.
  pose proof (length_sort_idx b Hwf) as Hlen.
  assert (Hn : n = Ring._size b).
  { unfold Ring.get_data in Hall.
    destruct (Ring._size b =? 0)%nat; [discriminate |].
    injection Hall. auto. }
  assert (Hbound : forall i, In i idx -> (i < n)%nat).
  { intros i Hi. destruct (In_nth _ _ 0%nat Hi) as (k & Hk & <-).
    unfold idx in *. rewrite linspace_length in Hk.
    pose proof (linspace_bound (n - 1) m k ltac:(lia) ltac:(lia) Hk) as Hb.
    lia. }
  unfold Ring.get_data in *. fold (sort_idx_of b) in *.
  destruct (Ring._size b =? 0)%nat eqn:E0; [discriminate |].
  assert (Em : (negb (m =? 0) && (m <? Ring._size b))%nat = true).
  { apply andb_true_iff. split.
    - apply negb_true_iff, Nat.eqb_neq. lia.
    - apply Nat.ltb_lt. lia. }
  rewrite Em. injection Hall as <- <- <- <- <- <-.
  fold idx. rewrite length_map.
  assert (Hin : forall i, In i idx -> (i < length (sort_idx_of b))%nat)
    by (intros i Hi; rewrite Hlen; auto).
  rewrite !take_pick by exact Hin.
  unfold idx at 6. rewrite linspace_length.
  split; [reflexivity |].
  split; [apply linspace_length |].
  split; [apply linspace_first; lia |].
  split; [intros H2; apply linspace_last; lia | exact Hbound].
Qed.

Lemma full_buffer_well_formed : Ring.well_formed full_buffer.
Proof.
  unfold Ring.well_formed, full_buffer; simpl. repeat split; lia.
Qed.

Lemma ring_buffer_decimation_witness :
  Ring.get_data full_buffer (Some 2%nat)
  = Ring.Data (pick [1; 2; 3; 4] (Ring.np_linspace_int (4 - 1) 2))
              (pick [710; 720; 730; 740] (Ring.np_linspace_int (4 - 1) 2))
              (pick [5; 6; 7; 8] (Ring.np_linspace_int (4 - 1) 2))
              (pick [10; 10; 10; 10] (Ring.np_linspace_int (4 - 1) 2))
              (pick [41; 42; 43; 44] (Ring.np_linspace_int (4 - 1) 2))
              2
  /\ length (Ring.np_linspace_int (4 - 1) 2) = 2%nat
  /\ nth 0 (Ring.np_linspace_int (4 - 1) 2) 0%nat = 0%nat
  /\ ((2 <= 2)%nat ->
      nth (2 - 1) (Ring.np_linspace_int (4 - 1) 2) 0%nat = (4 - 1)%nat)
  /\ (forall i, In i (Ring.np_linspace_int (4 - 1) 2) -> (i < 4)%nat).
Proof.
  apply (ring_buffer_decimation full_buffer 2 4
           [1; 2; 3; 4] [710; 720; 730; 740] [5; 6; 7; 8]
           [10; 10; 10; 10] [41; 42; 43; 44]).
  - exact full_buffer_well_formed.
  - simpl. lia.
  - simpl. lia.
  - reflexivity.
Defined.

(** X19.  [clear()] puts a buffer back into the state of a new buffer of the
    same capacity: zeroed arrays, no rows, no metadata; [get_data] then
    returns the empty dictionary whatever [max_points] is. *)
Theorem ring_buffer_clear :
  forall (b : Ring.RingBuffer) (max_points : option nat),
    Ring.well_formed b ->
    Ring.clear b = Ring.__init__ (Ring.capacity b)
    /\ Ring.get_data (Ring.clear b) max_points = Ring.Empty.
Proof.
  intros b mp (Hcap & Lp & Lf & Lt & Lq & Lh & _).
  unfold Ring.clear, Ring.__init__. rewrite Lp, Lf, Lt, Lq, Lh.
  split; reflexivity.
Qed.

Lemma ring_buffer_clear_witness :
  Ring.clear full_buffer = Ring.__init__ (Ring.capacity full_buffer)
  /\ Ring.get_data (Ring.clear full_buffer) (Some 3%nat) = Ring.Empty.
Proof.
  apply (ring_buffer_clear full_buffer (Some 3%nat)).
  exact full_buffer_well_formed.
Defined.

(** A buffer of capacity 0 takes no point: the first [append] raises
    [IndexError] at its first store and the buffer stays as it was
    created. *)
Theorem ring_buffer_of_capacity_zero :
  forall (p : Ring.point) (rest : list Ring.point),
    Ring.append_all (Ring.__init__ 0) (p :: rest)
    = (Raise IndexError, Ring.__init__ 0)
    /\ Ring.get_data (Ring.__init__ 0) None = Ring.Empty.
Proof.
  intros p rest. split; reflexivity.
Qed.

(** ** Peak detection *)

Lemma spaced_snoc (d x : nat) (l : list nat) :
  spaced d l -> (l = [] \/ (last l 0 + d <= x)%nat) -> spaced d (l ++ [x]).
Proof.
  induction l as [| a l IH]; intros Hs Hl; [exact I |].
  destruct l as [| b l].
  - destruct Hl as [Hl | Hl]; [discriminate |]. simpl in *. auto.
  - destruct Hs as [Hab Hs]. split; [exact Hab |].
    apply IH; [exact Hs |]. right.
    destruct Hl as [Hl | Hl]; [discriminate | exact Hl].
Qed.

Lemma window_tops (data : list Q) (lo hi p : nat) :
  forallb (fun j => negb (negb (j =? p)%nat
                          && Qge_bool (item data j) (item data p)))
          (range lo hi) = true ->
  tops data lo hi p.
Proof.
  intros H j Hj Hne. rewrite forallb_forall in H.
  assert (Hin : In j (range lo hi)) by (unfold range; apply in_seq; lia).
  specialize (H j Hin). apply negb_true_iff in H.
  apply Nat.eqb_neq in Hne. rewrite Hne in H. simpl in H.
  now apply Qle_bool_false_iff in H.
Qed.

Section PythonPeaks.

Variables (data : list Q) (min_distance : nat).

Local Abbreviation n := (length data).

Lemma python_peaks_step (i : nat) (peaks : list nat) :
  python_peaks_so_far data min_distance i peaks ->
  python_peaks_so_far data min_distance (S i)
    (Py.find_peaks_step data n min_distance i peaks).
Proof.
  intros [Hs Hf].
  assert (Hkeep : python_peaks_so_far data min_distance (S i) peaks).
  { split; [exact Hs |]. eapply Forall_impl; [| exact Hf].
    intros p (H1 & H2 & H3). split; [lia | split; assumption]. }
  unfold Py.find_peaks_step.
  destruct (_ && _); [| exact Hkeep].
  destruct (_ || _) eqn:Edist; [| exact Hkeep].
  destruct ((5 <=? i)%nat && (i <? n - 5)%nat) eqn:Erange; [| exact Hkeep].
  destruct (Py.local_max data n i) eqn:Emax; [| exact Hkeep].
  apply andb_true_iff in Erange as [E1 E2].
  apply Nat.leb_le in E1. apply Nat.ltb_lt in E2.
  split.
  - apply spaced_snoc; [exact Hs |].
    destruct peaks as [| a rest]; [now left | right].
    simpl in Edist. apply Nat.leb_le in Edist.
    assert (Hlast : (last_peak (a :: rest) < i)%nat).
    { rewrite Forall_forall in Hf.
      apply (Hf (last_peak (a :: rest))).
      unfold last_peak. destruct (exists_last (l := a :: rest)) as (l' & x & ->);
        [discriminate |].
      rewrite last_last. apply in_or_app. right. now left. }
    unfold last_peak in *. lia.
  - apply Forall_app. split; [apply Hkeep |].
    constructor; [| constructor].
    split; [lia | split; [lia |]].
    unfold Py.local_max in Emax.
    replace (Nat.max 0 (i - 5)) with (i - 5)%nat in Emax by lia.
    replace (Nat.min n (i + 6)) with (i + 6)%nat in Emax by lia.
    now apply window_tops.
Qed.

Lemma python_peaks_fold (len : nat) :
  forall i peaks,
    python_peaks_so_far data min_distance i peaks ->
    python_peaks_so_far data min_distance (i + len)
      (fold_left (fun peaks i => Py.find_peaks_step data n min_distance i peaks)
                 (seq i len) peaks).
Proof.
  induction len as [| len IH]; intros i peaks H; simpl.
  - now rewrite Nat.add_0_r.
  - rewrite <- Nat.add_succ_comm. apply IH. now apply python_peaks_step.
Qed.

End PythonPeaks.

(** X1.  The peaks that [_find_peaks_fast] returns are in increasing order,
    each at least [min_distance] (and at least one sample) after the
    one before; each lies at least 5 samples inside the record and is
    strictly greater than every other sample up to 5 positions to
    either side. *)
Theorem python_peaks_are_spaced_tops :
  forall (data : list Q) (min_distance : nat),
    spaced (Nat.max min_distance 1) (Py._find_peaks_fast data min_distance)
    /\ forall p, In p (Py._find_peaks_fast data min_distance) ->
                 (5 <= p < length data - 5)%nat
                 /\ tops data (p - 5) (p + 6) p.
Proof.
  intros data d.
  assert (H : python_peaks_so_far data d (1 + (length data - 1 - 1))
                (Py._find_peaks_fast data d)).
  { unfold Py._find_peaks_fast, range. apply python_peaks_fold.
    split; [exact I | constructor]. }
  destruct H as [Hs Hf]. split; [exact Hs |].
  intros p Hp. rewrite Forall_forall in Hf.
  destruct (Hf p Hp) as (_ & H2 & H3). auto.
Qed.

Section CPeaks.

Variables (data : list Q) (n max_peaks min_distance : nat).

Lemma c_peaks_step (i : nat) (peaks : list nat) :
  (1 <= i)%nat ->
  c_peaks_so_far data n max_peaks min_distance i peaks ->
  c_peaks_so_far data n max_peaks min_distance (S i)
    (C.find_peaks_step data n max_peaks min_distance i peaks).
Proof.
  intros Hi (Hl & Hs & Hf).
  assert (Hkeep : c_peaks_so_far data n max_peaks min_distance (S i) peaks).
  { split; [exact Hl | split; [exact Hs |]].
    eapply Forall_impl; [| exact Hf].
    intros p (H1 & H2 & H3). split; [lia | split; assumption]. }
  unfold C.find_peaks_step.
  destruct (length peaks <? max_peaks)%nat eqn:Ecount; [| exact Hkeep].
  destruct (_ && _) eqn:Elocal; [| exact Hkeep].
  destruct (_ || _) eqn:Edist; [| exact Hkeep].
  destruct (C.is_max data n i) eqn:Emax; [| exact Hkeep].
  apply Nat.ltb_lt in Ecount.
  apply andb_true_iff in Elocal as [_ Enext].
  apply Qlt_bool_iff in Enext.
  split; [rewrite length_app; simpl; lia | split].
  - apply spaced_snoc; [exact Hs |].
    destruct peaks as [| a rest]; [now left | right].
    simpl in Edist. apply Nat.leb_le in Edist.
    assert (Hlast : (last_peak (a :: rest) < i)%nat).
    { rewrite Forall_forall in Hf.
      apply (Hf (last_peak (a :: rest))).
      unfold last_peak. destruct (exists_last (l := a :: rest)) as (l' & x & ->);
        [discriminate |].
      rewrite last_last. apply in_or_app. right. now left. }
    unfold last_peak in *. lia.
  - apply Forall_app. split; [apply Hkeep |].
    constructor; [| constructor].
    split; [lia | split; [| exact Enext]].
    unfold C.is_max in Emax. cbv zeta in Emax.
    apply window_tops.
    destruct (i + 5 <? n)%nat eqn:E.
    + apply Nat.ltb_lt in E.
      replace (Nat.min (i + 5) n) with (i + 5)%nat by lia. exact Emax.
    + apply Nat.ltb_ge in E.
      replace (Nat.min (i + 5) n) with n by lia. exact Emax.
Qed.

Lemma c_peaks_fold (len : nat) :
  forall i peaks,
    (1 <= i)%nat ->
    c_peaks_so_far data n max_peaks min_distance i peaks ->
    c_peaks_so_far data n max_peaks min_distance (i + len)
      (fold_left (fun peaks i =>
                    C.find_peaks_step data n max_peaks min_distance i peaks)
                 (seq i len) peaks).
Proof.
  induction len as [| len IH]; intros i peaks Hi H; simpl.
  - now rewrite Nat.add_0_r.
  - rewrite <- Nat.add_succ_comm. apply IH; [lia |]. now apply c_peaks_step.
Qed.

End CPeaks.

(** X10.  The peaks that [find_peaks] of the C extension returns are at most
    [max_peaks], in increasing order and at least [min_distance] apart;
    each is an inner sample, strictly greater than its right neighbour
    and than every other sample from 5 positions before it to 4
    positions after it (the sample 5 positions after it is not looked
    at). *)
Theorem c_peaks_are_bounded_spaced_tops :
  forall (data : list Q) (n max_peaks min_distance : nat),
    (length (C.find_peaks data n max_peaks min_distance) <= max_peaks)%nat
    /\ spaced (Nat.max min_distance 1)
         (C.find_peaks data n max_peaks min_distance)
    /\ forall p, In p (C.find_peaks data n max_peaks min_distance) ->
                 (1 <= p < n - 1)%nat
                 /\ tops data (p - 5) (Nat.min (p + 5) n) p
                 /\ item data (p + 1) < item data p.
Proof.
  intros data n max_peaks d.
  assert (H : c_peaks_so_far data n max_peaks d (1 + (n - 1 - 1))
                (C.find_peaks data n max_peaks d)).
  { unfold C.find_peaks, range. apply c_peaks_fold; [lia |].
    split; [simpl; lia | split; [exact I | constructor]]. }
  destruct H as (Hl & Hs & Hf). split; [exact Hl | split; [exact Hs |]].
  intros p Hp. rewrite Forall_forall in Hf.
  destruct (Hf p Hp) as (H1 & H2 & H3).
  split; [| split; assumption].
  lia.
Qed.

(** ** Normalisation of the phase *)

Lemma py_mod_range (x m : Q) : 0 < m -> 0 <= py_mod x m /\ py_mod x m < m.
Proof.
  intros Hm. unfold py_mod.
  pose proof (Qfloor_le (x / m)) as Hlo.
  pose proof (Qlt_floor (x / m)) as Hhi.
  rewrite inject_Z_plus in Hhi. change (inject_Z 1) with 1 in Hhi.
  set (f := inject_Z (Qfloor (x / m))) in *.
  assert (Hx : x == m * (x / m)) by (field; lra).
  set (q := x / m) in *.
  split; nra.
Qed.

(** Both paths bring every phase into the range from 0 to 180 degrees. *)
Lemma python_normalize_range (x : Q) :
  0 <= Py.normalize x /\ Py.normalize x <= 180.
Proof.
  unfold Py.normalize.
  destruct (py_mod_range x 360 ltac:(lra)) as [Hlo Hhi].
  destruct (Qgt_bool (py_mod x 360) 180) eqn:E.
  - apply Qlt_bool_iff in E. split; lra.
  - apply Qlt_bool_false_iff in E. split; lra.
Qed.

Lemma floor_or_next (q : Q) :
  Qceiling q = Qfloor q \/ Qceiling q = (Qfloor q + 1)%Z.
Proof.
  pose proof (Qfloor_le q) as F1. pose proof (Qlt_floor q) as F2.
  pose proof (Qle_ceiling q) as C1. pose proof (Qceiling_lt q) as C2.
  assert (H1 : (Qfloor q <= Qceiling q)%Z) by (rewrite Zle_Qle; lra).
  assert (H2 : (Qceiling q - 1 < Qfloor q + 1)%Z) by (rewrite Zlt_Qlt; lra).
  lia.
Qed.

Lemma fmod_cases (x m : Q) :
  0 < m -> fmod x m == py_mod x m \/ fmod x m == py_mod x m - m.
Proof.
  intros Hm. unfold fmod, py_mod, Qtrunc.
  destruct (Qle_bool 0 (x / m)); [left; reflexivity |].
  destruct (floor_or_next (x / m)) as [-> | ->]; [left; reflexivity | right].
  rewrite inject_Z_plus. change (inject_Z 1) with 1. ring.
Qed.

Lemma c_normalize_is_python_normalize (x : Q) :
  C.normalize x == Py.normalize x.
Proof.
  unfold C.normalize, Py.normalize.
  destruct (py_mod_range x 360 ltac:(lra)) as [Hlo Hhi].
  assert (Hp : (if Qlt_bool (fmod x 360) 0 then fmod x 360 + 360
                else fmod x 360) == py_mod x 360).
  { destruct (fmod_cases x 360 ltac:(lra)) as [Ef | Ef].
    - destruct (Qlt_bool (fmod x 360) 0) eqn:El.
      + apply Qlt_bool_iff in El. lra.
      + exact Ef.
    - destruct (Qlt_bool (fmod x 360) 0) eqn:El.
      + lra.
      + apply Qlt_bool_false_iff in El. lra. }
  set (p := if Qlt_bool (fmod x 360) 0 then _ else _) in *.
  unfold Qgt_bool, Qlt_bool.
  rewrite (Qleb_comp _ _ Hp _ _ (Qeq_refl 180)).
  destruct (negb (Qle_bool (py_mod x 360) 180)); rewrite Hp; reflexivity.
Qed.

Lemma c_normalize_range (x : Q) : 0 <= C.normalize x /\ C.normalize x <= 180.
Proof.
  pose proof (c_normalize_is_python_normalize x) as E.
  destruct (python_normalize_range x). split; lra.
Qed.

(** X12.  The normalisation of the C extension ([fmod], then [+ 360] when
    negative) and that of the Python path ([%]) give the same phase, and
    it lies between 0 and 180 degrees. *)
Theorem normalisations_agree :
  forall phase_shift : Q,
    C.normalize phase_shift == Py.normalize phase_shift
    /\ 0 <= Py.normalize phase_shift /\ Py.normalize phase_shift <= 180
    /\ 0 <= C.normalize phase_shift /\ C.normalize phase_shift <= 180.
Proof.
  intros x.
  pose proof (c_normalize_is_python_normalize x) as E.
  destruct (python_normalize_range x) as [Hlo Hhi].
  repeat split; try assumption; lra.
Qed.

(** ** The phase of one cycle *)

Lemma phase_fast_range (force_data time_data : list Q)
  (static_weight phase : Q) :
  Py._calculate_phase_fast force_data time_data static_weight = Ok phase ->
  phase = -1 \/ (0 <= phase /\ phase <= 180).
Proof.
  revert force_data time_data static_weight phase.
  intros f t sw phase. unfold Py._calculate_phase_fast, rbind.
  destruct (Py.find_crossings f t sw) as [cs |]; [| discriminate].
  destruct (length cs <? 2)%nat.
  - intros H. injection H as <-. now left.
  - destruct (py_get cs 0); [| discriminate].
    destruct (py_get cs 1); [| discriminate].
    destruct (py_last t); [| discriminate].
    destruct (py_get t 0); [| discriminate].
    destruct (py_div _ _); [| discriminate].
    intros H. injection H as <-. right. apply python_normalize_range.
Qed.

(** X4.  Whenever [_calculate_phase_fast] returns, the value is the sentinel
    -1.0 or a phase from 0 to 180 degrees. *)
Theorem python_phase_is_sentinel_or_in_range :
  forall (force_data time_data : list Q) (static_weight phase : Q),
    Py._calculate_phase_fast force_data time_data static_weight = Ok phase ->
    phase = -1 \/ (0 <= phase /\ phase <= 180).
Proof.
  intros f t sw phase. unfold Py._calculate_phase_fast, rbind.
  destruct (Py.find_crossings f t sw) as [cs |]; [| discriminate].
  destruct (length cs <? 2)%nat.
  - intros H. injection H as <-. now left.
  - destruct (py_get cs 0); [| discriminate].
    destruct (py_get cs 1); [| discriminate].
    destruct (py_last t); [| discriminate].
    destruct (py_get t 0); [| discriminate].
    destruct (py_div _ _); [| discriminate].
    intros H. injection H as <-. right. apply python_normalize_range.
Qed.

Lemma python_phase_is_sentinel_or_in_range_witness :
  7200000 # 40000 = -1
  \/ (0 <= 7200000 # 40000 /\ 7200000 # 40000 <= 180).
Proof.
  apply (python_phase_is_sentinel_or_in_range
           [700; 600; 700] [0; 1; 2] 650 (7200000 # 40000)).
  vm_compute. reflexivity.
Defined.

(** X11.  Whenever [calculate_cycle_phase] of the C extension returns a
    number (not a NaN), it is the sentinel -1.0 or a phase from 0 to
    180 degrees; a cycle of fewer than 3 samples gets the sentinel. *)
Theorem c_phase_is_sentinel_or_in_range :
  forall (force time : list Q) (start end_ : nat) (static_weight phase : Q),
    C.calculate_cycle_phase force time start end_ static_weight = Some phase ->
    (phase = -1 \/ (0 <= phase /\ phase <= 180))
    /\ ((end_ - start < 3)%nat -> phase = -1).
Proof.
  intros f t s e sw phase. unfold C.calculate_cycle_phase.
  destruct (e - s <? 3)%nat eqn:En.
  - intros H. injection H as <-. split; [now left | reflexivity].
  - apply Nat.ltb_ge in En.
    assert (Hn : (e - s < 3)%nat -> phase = -1) by lia.
    destruct (length _ <? 2)%nat.
    + intros H. injection H as <-. split; [now left | exact Hn].
    + cbv zeta. destruct (C.dlift2 Qdiv _ _); [| discriminate].
      destruct (ieee_div _ _); [| discriminate].
      intros H. injection H as <-. split; [right | exact Hn].
      apply c_normalize_range.
Qed.

Lemma c_phase_is_sentinel_or_in_range_witness :
  (7200000 # 40000 = -1
   \/ (0 <= 7200000 # 40000 /\ 7200000 # 40000 <= 180))
  /\ ((3 - 0 < 3)%nat -> 7200000 # 40000 = -1).
Proof.
  apply (c_phase_is_sentinel_or_in_range
           [700; 600; 700] [0; 1; 2] 0 3 650 (7200000 # 40000)).
  vm_compute. reflexivity.
Defined.

(** ** The cycle analysis of the Python path *)

Lemma python_cycle_step_keeps (self self' : OptimizedPhaseCalculator)
  (force_data time_data : list Q) (static_weight : Q) (peaks : list nat)
  (i k : nat) (acc acc' : list Q * list Q) :
  analysed_so_far self k acc ->
  Py.cycle_step force_data time_data static_weight peaks i acc self
  = (Ok acc', self') ->
  self' = self /\ analysed_so_far self (S k) acc'.
Proof.
  intros Hacc.
  assert (Hkeep : analysed_so_far self (S k) acc).
  { destruct Hacc as (H1 & H2 & H3 & H4). repeat split; auto. }
  destruct acc as [phase_shifts frequencies].
  unfold Py.cycle_step, mbind, call, attr, mret.
  destruct (Py.py_get_nat peaks (i - 1)) as [start_idx |]; [| discriminate].
  destruct (Py.py_get_nat peaks i) as [end_idx |]; [| discriminate].
  destruct (py_last _) as [tl |]; [| discriminate].
  destruct (py_get _ 0) as [t0 |]; [| discriminate].
  destruct (negb _) eqn:Eband.
  - intros H. injection H as <- <-. auto.
  - destruct (ieee_div 1 (tl - t0)) as [frequency |].
    + destruct (Py._calculate_phase_fast _ _ _) as [phase |] eqn:Ephase;
        [| discriminate].
      simpl. intros H. injection H as <- <-. split; [reflexivity |].
      apply negb_false_iff in Eband. simpl in Eband.
      apply andb_true_iff in Eband as [E1 E2].
      apply Qle_bool_iff in E1, E2.
      destruct Hacc as (H1 & H2 & H3 & H4). simpl in *.
      unfold analysed_so_far; simpl. rewrite !length_app. simpl.
      repeat split; try lia.
      * apply Forall_app. split; [exact H3 |]. constructor; [auto | constructor].
      * apply Forall_app. split; [exact H4 |]. constructor; [| constructor].
        eapply phase_fast_range; exact Ephase.
    + intros H. injection H as <- <-. auto.
Qed.

Lemma python_cycles_keep (self : OptimizedPhaseCalculator)
  (force_data time_data : list Q) (static_weight : Q) (peaks : list nat)
  (idx : list nat) :
  forall k acc acc' self',
    analysed_so_far self k acc ->
    for_each_m idx (Py.cycle_step force_data time_data static_weight peaks)
      acc self = (Ok acc', self') ->
    self' = self /\ analysed_so_far self (k + length idx) acc'.
Proof.
  induction idx as [| i rest IH]; intros k acc acc' self' Hacc; simpl.
  - unfold mret. intros H. injection H as <- <-.
    rewrite Nat.add_0_r. auto.
  - unfold mbind.
    destruct (Py.cycle_step _ _ _ _ _ _ _) as [[acc1 | e] self1] eqn:E;
      [| discriminate].
    destruct (python_cycle_step_keeps _ _ _ _ _ _ _ _ _ _ Hacc E) as [-> H1].
    intros H. rewrite <- Nat.add_succ_comm. eapply IH; eauto.
Qed.

(** X6.  When [_analyze_cycles_vectorized] returns, it leaves the calculator
    as it was, the lists of phases and of frequencies have the same
    length, at most one entry per pair of neighbouring peaks; every
    frequency lies in the band from [min_freq] to [max_freq], both ends
    included, and every phase is the sentinel -1.0 or lies between 0
    and 180 degrees. *)
Theorem python_analysis_lists :
  forall (self self' : OptimizedPhaseCalculator)
         (platform_data force_data time_data : list Q) (static_weight : Q)
         (peaks : list nat) (phase_shifts frequencies : list Q),
    Py._analyze_cycles_vectorized platform_data force_data time_data
      static_weight peaks self
    = (Ok (phase_shifts, frequencies), self') ->
    self' = self
    /\ length phase_shifts = length frequencies
    /\ (length phase_shifts <= length peaks - 1)%nat
    /\ (forall f, In f frequencies -> min_freq self <= f /\ f <= max_freq self)
    /\ (forall p, In p phase_shifts -> p = -1 \/ (0 <= p /\ p <= 180)).
Proof.
  intros self self' pd fd td sw peaks ps fs H.
  unfold Py._analyze_cycles_vectorized in H.
  assert (H0 : analysed_so_far self 0 ([], [])).
  { unfold analysed_so_far; simpl. repeat split; auto. }
  destruct (python_cycles_keep _ _ _ _ _ _ _ _ _ _ H0 H) as [-> (H1 & H2 & H3 & H4)].
  simpl in *. unfold range in H2. rewrite length_seq in H2.
  rewrite Forall_forall in H3, H4. repeat split; auto.
  - apply H3. assumption.
  - apply H3. assumption.
Qed.

Lemma python_analysis_lists_witness :
  Py.__init__ false = Py.__init__ false
  /\ length [-1] = length [240100 # 24010]
  /\ (length [(-1)%Q] <= length [5; 55]%nat - 1)%nat
  /\ (forall f, In f [240100 # 24010] ->
                min_freq (Py.__init__ false) <= f
                /\ f <= max_freq (Py.__init__ false))
  /\ (forall p, In p [-1] -> p = -1 \/ (0 <= p /\ p <= 180)).
Proof.
  apply (python_analysis_lists (Py.__init__ false) (Py.__init__ false)
           platform_two_peaks force_above time_490Hz 650 [5; 55]%nat
           [-1] [240100 # 24010]).
  vm_compute. reflexivity.
Defined.

(** X7.  With the NumPy truth test on the array of phases, a valid result of
    the Python path always holds exactly one cycle, whichever release of
    NumPy runs it: its phase, which is not zero and is the sentinel or
    lies in 0..180, and its frequency, which lies in the band. *)
Theorem python_valid_result_has_one_cycle :
  forall (numpy : numpy_release) (self self' : OptimizedPhaseCalculator)
         (platform_data force_data time_data : list Q) (static_weight : Q)
         (m f : Q) (phase_shifts frequencies : list Q),
    Py._calculate_optimized_python numpy platform_data force_data time_data
      static_weight self
    = (Ok (Valid m f phase_shifts frequencies), self') ->
    phase_shifts = [m] /\ frequencies = [f]
    /\ ~ m == 0
    /\ (m = -1 \/ (0 <= m /\ m <= 180))
    /\ min_freq self <= f /\ f <= max_freq self
    /\ (2 <= length (Py._find_peaks_fast platform_data 50))%nat.
Proof.
  intros numpy self self' pd fd td sw m f ps fs.
  unfold Py._calculate_optimized_python.
  destruct (_ <? 2)%nat eqn:Epeaks; [discriminate |].
  apply Nat.ltb_ge in Epeaks.
  unfold mbind at 1.
  destruct (Py._analyze_cycles_vectorized _ _ _ _ _ _)
    as [[[ps' fs'] | e] self1] eqn:Ea; [| discriminate].
  unfold Py._analyze_cycles_vectorized in Ea.
  assert (H0 : analysed_so_far self 0 ([], [])).
  { unfold analysed_so_far; simpl. repeat split; auto. }
  destruct (python_cycles_keep _ _ _ _ _ _ _ _ _ _ H0 Ea)
    as [-> (H1 & H2 & H3 & H4)].
  simpl in H1, H3, H4.
  unfold mbind, call, mret.
  destruct ps' as [| x [| y rest]]; simpl; try discriminate;
    [destruct numpy; discriminate |].
  destruct (Qis_zero x) eqn:Ez; simpl; [discriminate |].
  destruct fs' as [| fr [| fr' frest]]; simpl in *; try discriminate.
  intros H. injection H as <- <- <- <- <-.
  apply Qis_zero_false_iff in Ez.
  inversion H3 as [| ? ? [Hlo Hhi] _]; subst.
  inversion H4 as [| ? ? Hr _]; subst.
  repeat split; auto.
Qed.

Lemma python_valid_result_has_one_cycle_witness :
  [586228895247761640000000000000 # 3256827195820898000000000000] = [586228895247761640000000000000 # 3256827195820898000000000000]
  /\ [240100 # 24010] = [240100 # 24010]
  /\ ~ 586228895247761640000000000000 # 3256827195820898000000000000 == 0
  /\ (586228895247761640000000000000 # 3256827195820898000000000000 = -1
      \/ (0 <= 586228895247761640000000000000 # 3256827195820898000000000000 /\ 586228895247761640000000000000 # 3256827195820898000000000000 <= 180))
  /\ min_freq (Py.__init__ false) <= 240100 # 24010
  /\ 240100 # 24010 <= max_freq (Py.__init__ false)
  /\ (2 <= length (Py._find_peaks_fast platform_two_peaks 50))%nat.
Proof.
  apply (python_valid_result_has_one_cycle from_2_2 (Py.__init__ false)
           (Py.__init__ false) platform_two_peaks force_down_up time_490Hz
           650 (586228895247761640000000000000 # 3256827195820898000000000000) (240100 # 24010)
           [586228895247761640000000000000 # 3256827195820898000000000000] [240100 # 24010]).
  vm_compute. reflexivity.
Defined.

(** ** Order and place of the crossings *)

Lemma fraction_range (f0 f1 w : Q) :
  (f0 <= w /\ w <= f1) \/ (w <= f0 /\ f1 <= w) ->
  ~ f1 - f0 == 0 ->
  0 <= (w - f0) / (f1 - f0) /\ (w - f0) / (f1 - f0) <= 1.
Proof.
  intros Hb Hne.
  destruct (Qlt_le_dec 0 (f1 - f0)) as [Hpos | Hneg].
  - split.
    + apply Qle_shift_div_l; [exact Hpos | lra].
    + apply Qle_shift_div_r; [exact Hpos | lra].
  - assert (Hd : 0 < f0 - f1) by lra.
    assert (E : (w - f0) / (f1 - f0) == (f0 - w) / (f0 - f1)) by (field; lra).
    rewrite E. split.
    + apply Qle_shift_div_l; [exact Hd | lra].
    + apply Qle_shift_div_r; [exact Hd | lra].
Qed.

Lemma nondecreasing_snoc (x : Q) (l : list Q) :
  nondecreasing l -> (forall c, In c l -> c <= x) -> nondecreasing (l ++ [x]).
Proof.
  induction l as [| a l IH]; intros Hs Hl; [exact I |].
  destruct l as [| b l].
  - simpl. split; [apply Hl; now left | exact I].
  - destruct Hs as [Hab Hs]. split; [exact Hab |].
    apply IH; [exact Hs |]. intros c Hc. apply Hl. now right.
Qed.

Section CrossingOrder.

Variables (force_data time_data : list Q) (static_weight : Q).

Hypothesis time_ordered :
  forall i j, (i <= j < length time_data)%nat ->
              item time_data i <= item time_data j.

Lemma python_crossing_step_order (i : nat) (acc acc' : list Q) :
  (1 <= i < length time_data)%nat ->
  crossings_so_far time_data i acc ->
  Py.crossing_step force_data time_data static_weight i acc = Ok acc' ->
  crossings_so_far time_data (S i) acc'.
Proof.
  intros Hi [Hs Hf].
  assert (Hstep : item time_data (i - 1) <= item time_data i)
    by (apply time_ordered; lia).
  assert (Hkeep : crossings_so_far time_data (S i) acc).
  { split; [exact Hs |]. eapply Forall_impl; [| exact Hf].
    intros c [Hlo Hhi]. split; [exact Hlo |].
    replace (S i - 1)%nat with i by lia. lra. }
  unfold Py.crossing_step, rbind.
  destruct (py_get force_data (i - 1)) as [f0 |] eqn:Ef0; [| discriminate].
  destruct (py_get force_data i) as [f1 |] eqn:Ef1; [| discriminate].
  assert (Hsame : forall c,
             (Qle_bool f0 static_weight && Qle_bool static_weight f1 = true
              \/ Qge_bool f0 static_weight && Qge_bool static_weight f1 = true) ->
             Py.cross_time force_data time_data static_weight i = Ok c ->
             crossings_so_far time_data (S i) (acc ++ [c])).
  { intros c Hbranch. unfold Py.cross_time, rbind. rewrite Ef0, Ef1.
    unfold py_div. destruct (Qis_zero (f1 - f0)) eqn:Ez; [discriminate |].
    apply Qis_zero_false_iff in Ez.
    unfold py_get.
    destruct (nth_error time_data (i - 1)) as [t0 |] eqn:Et0; [| discriminate].
    destruct (nth_error time_data i) as [t1 |] eqn:Et1; [| discriminate].
    intros H. injection H as <-.
    assert (I0 : item time_data (i - 1) = t0)
      by (unfold item; now apply nth_error_nth).
    assert (I1 : item time_data i = t1)
      by (unfold item; now apply nth_error_nth).
    assert (H00 : item time_data 0 <= t0).
    { rewrite <- I0. apply time_ordered. lia. }
    rewrite I0, I1 in Hstep.
    assert (Hfr : 0 <= (static_weight - f0) / (f1 - f0)
                  /\ (static_weight - f0) / (f1 - f0) <= 1).
    { apply fraction_range; [| exact Ez].
      destruct Hbranch as [Hb | Hb]; apply andb_true_iff in Hb as [B1 B2];
        apply Qle_bool_iff in B1, B2; [left | right]; split; assumption. }
    set (frac := (static_weight - f0) / (f1 - f0)) in *.
    assert (Hc : t0 <= t0 + frac * (t1 - t0) /\ t0 + frac * (t1 - t0) <= t1)
      by (split; nra).
    split.
    - apply nondecreasing_snoc; [exact Hs |].
      intros c Hin. rewrite Forall_forall in Hf.
      destruct (Hf c Hin) as [_ Hle]. rewrite I0 in Hle. lra.
    - apply Forall_app. split; [apply Hkeep |].
      constructor; [| constructor].
      replace (S i - 1)%nat with i by lia. rewrite I1. split; lra. }
  destruct (Qle_bool f0 static_weight && Qle_bool static_weight f1) eqn:Eup.
  - destruct (Py.cross_time _ _ _ _) as [c |] eqn:Ec; [| discriminate].
    intros H. injection H as <-. apply Hsame; auto.
  - destruct (Qge_bool f0 static_weight && Qge_bool static_weight f1) eqn:Edn.
    + destruct (Py.cross_time _ _ _ _) as [c |] eqn:Ec; [| discriminate].
      intros H. injection H as <-. apply Hsame; auto.
    + intros H. injection H as <-. exact Hkeep.
Qed.

Lemma python_crossing_scan_order (len : nat) :
  forall i acc acc',
    (1 <= i)%nat -> (i + len <= length time_data)%nat ->
    crossings_so_far time_data i acc ->
    for_each (seq i len)
      (Py.crossing_step force_data time_data static_weight) acc = Ok acc' ->
    crossings_so_far time_data (i + len) acc'.
Proof.
  induction len as [| len IH]; intros i acc acc' Hi Hlen Hacc; simpl.
  - intros H. injection H as <-. now rewrite Nat.add_0_r.
  - unfold rbind.
    destruct (Py.crossing_step _ _ _ i acc) as [acc1 |] eqn:E; [| discriminate].
    intros H. rewrite <- Nat.add_succ_comm.
    apply (IH (S i) acc1); [lia | lia | | exact H].
    apply (python_crossing_step_order i acc); [lia | exact Hacc | exact E].
Qed.

End CrossingOrder.

(** X2.  When the time stamps of a cycle are in non-decreasing order (and
    there is one per force sample), the crossings that the Python scan
    returns are in non-decreasing order too, and each lies between the
    first and the last time stamp of the cycle. *)
Theorem python_crossings_are_ordered :
  forall (force_data time_data : list Q) (static_weight : Q)
         (crossings : list Q),
    length time_data = length force_data ->
    (forall i j, (i <= j < length time_data)%nat ->
                 item time_data i <= item time_data j) ->
    Py.find_crossings force_data time_data static_weight = Ok crossings ->
    nondecreasing crossings
    /\ forall c, In c crossings ->
                 item time_data 0 <= c
                 /\ c <= item time_data (length time_data - 1).
Proof.
  intros f t sw cs Hlen Hord Hscan.
  unfold Py.find_crossings, range in Hscan.
  destruct (Nat.le_gt_cases (length f) 1) as [Hshort | Hlong].
  - replace (length f - 1)%nat with 0%nat in Hscan by lia.
    simpl in Hscan. injection Hscan as <-.
    split; [exact I | intros c Hc; destruct Hc].
  - assert (H : crossings_so_far t (1 + (length f - 1)) cs).
    { apply (python_crossing_scan_order f t sw Hord (length f - 1) 1 [] cs);
        [lia | lia | split; [exact I | constructor] | exact Hscan]. }
    destruct H as [Hs Hf]. split; [exact Hs |].
    intros c Hc. rewrite Forall_forall in Hf.
    destruct (Hf c Hc) as [Hlo Hhi].
    replace (1 + (length f - 1) - 1)%nat with (length t - 1)%nat in Hhi by lia.
    auto.
Qed.

Lemma python_crossings_are_ordered_witness :
  nondecreasing [10 # 2000]
  /\ forall c, In c [10 # 2000] ->
               item [0; 1 # 100] 0 <= c
               /\ c <= item [0; 1 # 100] (length [0; 1 # 100] - 1).
Proof.
  apply (python_crossings_are_ordered [640; 660] [0; 1 # 100] 650 [10 # 2000]).
  - reflexivity.
  - intros i j H. simpl in H.
    assert (Hc : ((i = 0 /\ j = 0) \/ (i = 0 /\ j = 1) \/ (i = 1 /\ j = 1))%nat)
      by lia.
    destruct Hc as [[-> ->] | [[-> ->] | [-> ->]]]; vm_compute; discriminate.
  - vm_compute. reflexivity.
Defined.

(** X3.  A sample that lies exactly on the static weight, between two
    samples that do not, is recorded twice by the Python scan: once by
    the step that arrives at it and once by the step that leaves it,
    both times at the time stamp of that sample. *)
Theorem sample_on_static_weight_is_recorded_twice :
  forall (force_data time_data : list Q) (static_weight : Q) (i : nat)
         (a b t0 t1 t2 : Q) (acc : list Q),
    (1 <= i)%nat ->
    nth_error force_data (i - 1) = Some a ->
    nth_error force_data i = Some static_weight ->
    nth_error force_data (S i) = Some b ->
    nth_error time_data (i - 1) = Some t0 ->
    nth_error time_data i = Some t1 ->
    nth_error time_data (S i) = Some t2 ->
    ~ a == static_weight ->
    ~ b == static_weight ->
    exists c1 c2,
      Py.crossing_step force_data time_data static_weight i acc
      = Ok (acc ++ [c1])
      /\ Py.crossing_step force_data time_data static_weight (S i) (acc ++ [c1])
         = Ok ((acc ++ [c1]) ++ [c2])
      /\ c1 == t1 /\ c2 == t1.
Proof.
  intros f t sw i a b t0 t1 t2 acc Hi Fa Fs Fb T0 T1 T2 Ha Hb.
  exists (t0 + (sw - a) / (sw - a) * (t1 - t0)),
         (t1 + (sw - sw) / (b - sw) * (t2 - t1)).
  assert (C1 : Py.cross_time f t sw i
               = Ok (t0 + (sw - a) / (sw - a) * (t1 - t0))).
  { apply cross_time_at_sign_change; auto. intros E. apply Ha. lra. }
  assert (C2 : Py.cross_time f t sw (S i)
               = Ok (t1 + (sw - sw) / (b - sw) * (t2 - t1))).
  { apply cross_time_at_sign_change; auto;
      try (replace (S i - 1)%nat with i by lia; assumption).
    intros E. apply Hb. lra. }
  assert (Hrefl : Qle_bool sw sw = true) by (apply Qle_bool_iff; lra).
  split; [| split; [| split]].
  - unfold Py.crossing_step, rbind, py_get. rewrite Fa, Fs, C1.
    unfold Qge_bool. rewrite Hrefl.
    destruct (Qle_bool a sw) eqn:E; simpl; [reflexivity |].
    apply Qle_bool_false_iff in E.
    assert (E' : Qle_bool sw a = true) by (apply Qle_bool_iff; lra).
    rewrite E'. reflexivity.
  - unfold Py.crossing_step, rbind, py_get.
    replace (S i - 1)%nat with i by lia. rewrite Fs, Fb, C2.
    unfold Qge_bool. rewrite Hrefl.
    destruct (Qle_bool sw b) eqn:E; simpl; [reflexivity |].
    apply Qle_bool_false_iff in E.
    assert (E' : Qle_bool b sw = true) by (apply Qle_bool_iff; lra).
    rewrite E'. reflexivity.
  - field. intros E. apply Ha. lra.
  - field. intros E. apply Hb. lra.
Qed.

Lemma sample_on_static_weight_is_recorded_twice_witness :
  exists c1 c2,
    Py.crossing_step [700; 650; 600] [0; 1; 2] 650 1 [] = Ok ([] ++ [c1])
    /\ Py.crossing_step [700; 650; 600] [0; 1; 2] 650 2 ([] ++ [c1])
       = Ok (([] ++ [c1]) ++ [c2])
    /\ c1 == 1 /\ c2 == 1.
Proof.
  apply (sample_on_static_weight_is_recorded_twice
           [700; 650; 600] [0; 1; 2] 650 1 700 600 0 1 2 []);
    try reflexivity; try lia; intros H; discriminate H.
Defined.

(** ** More on the axle imbalance *)

Lemma Qmax_sym (a b : Q) : Qmax a b == Qmax b a.
Proof.
  destruct (Qmax_cases a b) as [[H ->] | [H ->]];
    destruct (Qmax_cases b a) as [[H' ->] | [H' ->]]; lra.
Qed.

Lemma Qmax_bounds (a b : Q) : a <= Qmax a b /\ b <= Qmax a b.
Proof. destruct (Qmax_cases a b) as [[H ->] | [H ->]]; split; lra. Qed.

Lemma Qabs_diff_sym (a b : Q) : Qabs (a - b) == Qabs (b - a).
Proof.
  setoid_replace (b - a) with (- (a - b)) by ring.
  symmetry. apply Qabs_opp.
Qed.

Lemma Qabs_diff_le (a b : Q) : Qabs (a - b) <= Qabs a + Qabs b.
Proof.
  setoid_replace (a - b) with (a + - b) by ring.
  rewrite <- (Qabs_opp b). apply Qabs_triangle.
Qed.

Lemma difference_percent_zero (a b : Q) :
  a == 0 /\ b == 0 -> _calculate_difference_percent a b == 0.
Proof.
  intros [E1 E2]. unfold _calculate_difference_percent.
  apply Qis_zero_true_iff in E1, E2. rewrite E1, E2. reflexivity.
Qed.

(** X24.  The imbalance does not depend on which wheel is named first, it
    is never negative and never above 200 percent. *)
Theorem imbalance_is_symmetric_and_bounded :
  forall val1 val2 : Q,
    _calculate_difference_percent val1 val2
    == _calculate_difference_percent val2 val1
    /\ 0 <= _calculate_difference_percent val1 val2
    /\ _calculate_difference_percent val1 val2 <= 200.
Proof.
  intros a b.
  destruct (Qeq_dec a 0) as [Ea | Ea]; [destruct (Qeq_dec b 0) as [Eb | Eb] |].
  - rewrite (difference_percent_zero a b), (difference_percent_zero b a) by auto.
    repeat split; lra.
  - assert (N1 : ~ (a == 0 /\ b == 0)) by tauto.
    assert (N2 : ~ (b == 0 /\ a == 0)) by tauto.
    destruct (difference_percent_nonzero a b N1) as [P1 ->].
    destruct (difference_percent_nonzero b a N2) as [P2 ->].
    pose proof (Qmax_sym (Qabs a) (Qabs b)) as Em.
    pose proof (Qabs_diff_sym a b) as Ed.
    pose proof (Qabs_nonneg (a - b)) as Hn.
    pose proof (Qabs_diff_le a b) as Ht.
    destruct (Qmax_bounds (Qabs a) (Qabs b)) as [Ba Bb].
    set (M := Qmax (Qabs a) (Qabs b)) in *.
    split; [rewrite Em, Ed; reflexivity |].
    assert (Hq : 0 <= Qabs (a - b) / M /\ Qabs (a - b) / M <= 2).
    { split.
      - apply Qle_shift_div_l; [exact P1 | lra].
      - apply Qle_shift_div_r; [exact P1 | lra]. }
    split; lra.
  - assert (N1 : ~ (a == 0 /\ b == 0)) by tauto.
    assert (N2 : ~ (b == 0 /\ a == 0)) by tauto.
    destruct (difference_percent_nonzero a b N1) as [P1 ->].
    destruct (difference_percent_nonzero b a N2) as [P2 ->].
    pose proof (Qmax_sym (Qabs a) (Qabs b)) as Em.
    pose proof (Qabs_diff_sym a b) as Ed.
    pose proof (Qabs_nonneg (a - b)) as Hn.
    pose proof (Qabs_diff_le a b) as Ht.
    destruct (Qmax_bounds (Qabs a) (Qabs b)) as [Ba Bb].
    set (M := Qmax (Qabs a) (Qabs b)) in *.
    split; [rewrite Em, Ed; reflexivity |].
    assert (Hq : 0 <= Qabs (a - b) / M /\ Qabs (a - b) / M <= 2).
    { split.
      - apply Qle_shift_div_l; [exact P1 | lra].
      - apply Qle_shift_div_r; [exact P1 | lra]. }
    split; lra.
Qed.

(** X25.  For two values of the same sign (both not negative) the imbalance is
    at most 100 percent, and it is 100 percent when exactly one of them
    is zero. *)
Theorem imbalance_of_nonnegative_values :
  forall val1 val2 : Q,
    0 <= val1 -> 0 <= val2 ->
    _calculate_difference_percent val1 val2 <= 100
    /\ (val1 == 0 -> 0 < val2 ->
        _calculate_difference_percent val1 val2 == 100).
Proof.
  intros a b Ha Hb.
  destruct (Qeq_dec a 0) as [Ea | Ea]; [destruct (Qeq_dec b 0) as [Eb | Eb] |].
  - rewrite (difference_percent_zero a b) by auto. split; [lra |].
    intros _ Hpos. lra.
  - assert (N1 : ~ (a == 0 /\ b == 0)) by tauto.
    destruct (difference_percent_nonzero a b N1) as [P1 ->].
    pose proof (Qabs_pos a Ha) as A1. pose proof (Qabs_pos b Hb) as A2.
    assert (Ed : Qabs (a - b) == b).
    { rewrite Ea. setoid_replace (0 - b) with (- b) by ring.
      rewrite Qabs_opp. exact A2. }
    assert (Em : Qmax (Qabs a) (Qabs b) == b).
    { destruct (Qmax_cases (Qabs a) (Qabs b)) as [[H ->] | [H ->]]; lra. }
    rewrite Em in P1 |- *. rewrite Ed.
    assert (E1 : b / b * 100 == 100) by (field; lra).
    rewrite E1. split; [lra | intros; reflexivity].
  - assert (N1 : ~ (a == 0 /\ b == 0)) by tauto.
    destruct (difference_percent_nonzero a b N1) as [P1 ->].
    split; [| intros E; contradiction].
    pose proof (Qabs_pos a Ha) as A1. pose proof (Qabs_pos b Hb) as A2.
    destruct (Qmax_bounds (Qabs a) (Qabs b)) as [Ba Bb].
    assert (Hd : Qabs (a - b) <= Qmax (Qabs a) (Qabs b)).
    { apply Qabs_Qle_condition. split; lra. }
    set (M := Qmax (Qabs a) (Qabs b)) in *.
    assert (Hq : Qabs (a - b) / M <= 1)
      by (apply Qle_shift_div_r; [exact P1 | lra]).
    lra.
Qed.

Lemma imbalance_of_nonnegative_values_witness :
  _calculate_difference_percent 45 35 <= 100
  /\ (45 == 0 -> 0 < 35 -> _calculate_difference_percent 45 35 == 100).
Proof.
  apply (imbalance_of_nonnegative_values 45 35); discriminate.
Defined.

(** X26.  The imbalance is 0 exactly when the two values are equal. *)
Theorem imbalance_zero_iff_equal :
  forall val1 val2 : Q,
    _calculate_difference_percent val1 val2 == 0 <-> val1 == val2.
Proof.
  intros a b.
  destruct (Qeq_dec a 0) as [Ea | Ea]; [destruct (Qeq_dec b 0) as [Eb | Eb] |].
  - rewrite (difference_percent_zero a b) by auto. split; intros _; lra.
  - assert (N1 : ~ (a == 0 /\ b == 0)) by tauto.
    destruct (difference_percent_nonzero a b N1) as [P1 ->].
    set (M := Qmax (Qabs a) (Qabs b)) in *.
    split.
    + intros H.
      assert (Hd : Qabs (a - b) == 0).
      { assert (E : Qabs (a - b) == Qabs (a - b) / M * 100 * (M / 100))
          by (field; lra).
        rewrite E, H. ring. }
      assert (Hle : Qabs (a - b) <= 0) by lra.
      apply Qabs_Qle_condition in Hle. lra.
    + intros H. assert (E : a - b == 0) by lra.
      rewrite E. change (Qabs 0) with 0. field. lra.
  - assert (N1 : ~ (a == 0 /\ b == 0)) by tauto.
    destruct (difference_percent_nonzero a b N1) as [P1 ->].
    set (M := Qmax (Qabs a) (Qabs b)) in *.
    split.
    + intros H.
      assert (Hd : Qabs (a - b) == 0).
      { assert (E : Qabs (a - b) == Qabs (a - b) / M * 100 * (M / 100))
          by (field; lra).
        rewrite E, H. ring. }
      assert (Hle : Qabs (a - b) <= 0) by lra.
      apply Qabs_Qle_condition in Hle. lra.
    + intros H. assert (E : a - b == 0) by lra.
      rewrite E. change (Qabs 0) with 0. field. lra.
Qed.

(** ** More on RFAmax *)

(** X20.  [calculate_rfa_max] raises (a [ValueError] of [np.min]) exactly when
    the force array is empty; with a static weight that is not positive
    it divides by nothing and returns an RFAmax of 0. *)
Theorem rfa_max_edge_cases :
  forall (processor : EGEAProcessor) (tire_force : list Q) (static_weight : Q),
    (tire_force = [] <->
     calculate_rfa_max processor tire_force static_weight = Raise ValueError)
    /\ (tire_force <> [] -> static_weight <= 0 ->
        exists fa_max under over,
          calculate_rfa_max processor tire_force static_weight
          = Ok (0, fa_max, under, over)).
Proof.
  intros processor force sw. unfold calculate_rfa_max.
  destruct (detect_signal_overflow_underflow _ _ _) as [u o].
  destruct force as [| x rest]; simpl.
  - split; [split; reflexivity | intros H; congruence].
  - split; [split; intros H; discriminate |].
    intros _ Hsw. unfold Qgt_bool.
    apply Qlt_bool_false_iff in Hsw. rewrite Hsw. eauto.
Qed.

Lemma rfa_max_edge_cases_witness :
  exists fa_max under over,
    calculate_rfa_max
      {| signal_processor :=
           {| detect_signal_overflow_underflow := fun _ _ => (false, false) |} |}
      [600; 700] 0
    = Ok (0, fa_max, under, over).
Proof.
  apply (proj2 (rfa_max_edge_cases
                  {| signal_processor :=
                       {| detect_signal_overflow_underflow :=
                            fun _ _ => (false, false) |} |}
                  [600; 700] 0)); discriminate.
Defined.

(** X21.  When the overflow flag is set, FAmax is at least half the range of
    the force, so it is never negative, and with a positive static
    weight RFAmax is not negative either. *)
Theorem rfa_max_with_overflow_is_not_negative :
  forall (processor : EGEAProcessor) (tire_force : list Q) (static_weight : Q)
         (rfa_max fa_max : Q) (f_under_flag : bool),
    calculate_rfa_max processor tire_force static_weight
    = Ok (rfa_max, fa_max, f_under_flag, true) ->
    0 <= fa_max
    /\ (forall lo hi, In lo tire_force -> In hi tire_force ->
                      (hi - lo) / 2 <= fa_max)
    /\ (0 < static_weight -> 0 <= rfa_max).
Proof.
  intros processor force sw rfa fa u. unfold calculate_rfa_max.
  destruct (detect_signal_overflow_underflow _ _ _) as [u' o'].
  destruct force as [| x rest]; [discriminate |].
  unfold rbind, np_min, np_max.
  destruct (fold_Qmin_is_minimum rest x) as [Hmin_in Hmin].
  destruct (fold_Qmax_is_maximum rest x) as [Hmax_in Hmax].
  set (fmin := fold_left Qmin rest x) in *.
  set (fmax := fold_left Qmax rest x) in *.
  intros H. injection H as Hr Hf Hu Ho. subst o' u'.
  cbn [negb] in Hf. rewrite !andb_false_r in Hf.
  destruct (py_max_is_larger (fmax - sw) (sw - fmin)) as (L1 & L2 & _).
  rewrite Hf in L1, L2.
  assert (Hrange : forall lo hi, In lo (x :: rest) -> In hi (x :: rest) ->
                                 (hi - lo) / 2 <= fa).
  { intros lo hi Hlo Hhi.
    pose proof (Hmin lo Hlo). pose proof (Hmax hi Hhi).
    apply Qle_shift_div_r; lra. }
  assert (Hfa : 0 <= fa).
  { pose proof (Hrange x x ltac:(now left) ltac:(now left)) as Hx.
    assert (E : (x - x) / 2 == 0) by field. lra. }
  split; [exact Hfa | split; [exact Hrange |]].
  intros Hsw. assert (Hb : Qgt_bool sw 0 = true) by (apply Qlt_bool_iff; lra).
  rewrite Hb in Hr. subst rfa.
  cbn [negb]. rewrite !andb_false_r, Hf.
  assert (0 <= fa / sw) by (apply Qle_shift_div_l; lra).
  lra.
Qed.

Lemma rfa_max_with_overflow_is_not_negative_witness :
  0 <= 1300 - 600
  /\ (forall lo hi, In lo [600; 1400] -> In hi [600; 1400] ->
                    (hi - lo) / 2 <= 1300 - 600)
  /\ (0 < 1300 -> 0 <= (1300 - 600) / 1300 * 100).
Proof.
  apply (rfa_max_with_overflow_is_not_negative
           {| signal_processor :=
                {| detect_signal_overflow_underflow := fun _ _ => (false, true) |} |}
           [600; 1400] 1300 ((1300 - 600) / 1300 * 100) (1300 - 600) false).
  reflexivity.
Defined.

(** ** Tire rigidity *)

(** X22.  [calculate_egea_rigidity] raises only for a platform amplitude of
    0.  Otherwise the pressure is reported as fine exactly when the
    rigidity lies between the two limits, both included, and with
    [RIG_LO_LIM <= RIG_HI_LIM] the two warnings never come together. *)
Theorem rigidity_warnings :
  forall (processor : RigidityProcessor) (h25_amplitude platform_amplitude : Q),
    ~ platform_amplitude == 0 ->
    exists r,
      calculate_egea_rigidity processor h25_amplitude platform_amplitude = Ok r
      /\ rigidity r
         = A_RIG (params processor) * (h25_amplitude / platform_amplitude)
           + B_RIG (params processor)
      /\ (pressure_ok r = true <->
          RIG_LO_LIM (params processor) <= rigidity r
          /\ rigidity r <= RIG_HI_LIM (params processor))
      /\ (underinflation r = true <-> rigidity r < RIG_LO_LIM (params processor))
      /\ (overinflation r = true <-> RIG_HI_LIM (params processor) < rigidity r)
      /\ (RIG_LO_LIM (params processor) <= RIG_HI_LIM (params processor) ->
          underinflation r && overinflation r = false).
Proof.
  intros processor h a Ha. unfold calculate_egea_rigidity, rbind, py_div.
  apply Qis_zero_false_iff in Ha. rewrite Ha.
  eexists. split; [reflexivity |]. simpl.
  set (rig := A_RIG (params processor) * (h / a) + B_RIG (params processor)).
  set (lo := RIG_LO_LIM (params processor)).
  set (hi := RIG_HI_LIM (params processor)).
  split; [reflexivity |].
  assert (U : Qlt_bool rig lo = true <-> rig < lo) by apply Qlt_bool_iff.
  assert (O : Qgt_bool rig hi = true <-> hi < rig) by apply Qlt_bool_iff.
  split; [| split; [exact U | split; [exact O |]]].
  - rewrite negb_true_iff, orb_false_iff.
    unfold Qgt_bool. rewrite !Qlt_bool_false_iff. tauto.
  - intros Hlim.
    destruct (Qlt_bool rig lo) eqn:E1; [| reflexivity].
    destruct (Qgt_bool rig hi) eqn:E2; [| reflexivity].
    apply Qlt_bool_iff in E1, E2. lra.
Qed.

Lemma rigidity_warnings_witness :
  exists r,
    calculate_egea_rigidity
      {| params := {| A_RIG := 571 # 1000; B_RIG := 46;
                      RIG_LO_LIM := 160; RIG_HI_LIM := 400 |} |} 100 3
    = Ok r
    /\ rigidity r = (571 # 1000) * (100 / 3) + 46
    /\ (pressure_ok r = true <-> 160 <= rigidity r /\ rigidity r <= 400)
    /\ (underinflation r = true <-> rigidity r < 160)
    /\ (overinflation r = true <-> 400 < rigidity r)
    /\ (160 <= 400 -> underinflation r && overinflation r = false).
Proof.
  apply (rigidity_warnings
           {| params := {| A_RIG := 571 # 1000; B_RIG := 46;
                           RIG_LO_LIM := 160; RIG_HI_LIM := 400 |} |} 100 3).
  discriminate.
Defined.

(** X23.  With [A_RIG] not negative and a positive platform amplitude the
    rigidity grows with the force amplitude: a larger H25 never clears
    an overinflation warning and a smaller one never clears an
    underinflation warning. *)
Theorem rigidity_is_monotone :
  forall (processor : RigidityProcessor) (h25_low h25_high platform_amplitude : Q)
         (r_low r_high : RigidityResult),
    0 <= A_RIG (params processor) ->
    0 < platform_amplitude ->
    h25_low <= h25_high ->
    calculate_egea_rigidity processor h25_low platform_amplitude = Ok r_low ->
    calculate_egea_rigidity processor h25_high platform_amplitude = Ok r_high ->
    rigidity r_low <= rigidity r_high
    /\ (overinflation r_low = true -> overinflation r_high = true)
    /\ (underinflation r_high = true -> underinflation r_low = true).
Proof.
  intros processor h1 h2 a r1 r2 HA Ha Hh.
  unfold calculate_egea_rigidity, rbind, py_div.
  assert (Hz : Qis_zero a = false) by (apply Qis_zero_false_iff; lra).
  rewrite Hz. intros E1 E2. injection E1 as <-. injection E2 as <-. simpl.
  assert (Hq : h1 / a <= h2 / a).
  { apply Qle_shift_div_l; [exact Ha |].
    setoid_replace (h1 / a * a) with h1 by (field; lra). exact Hh. }
  set (A := A_RIG (params processor)) in *.
  assert (Hr : A * (h1 / a) + B_RIG (params processor)
               <= A * (h2 / a) + B_RIG (params processor)) by nra.
  split; [exact Hr |]. unfold Qgt_bool.
  split; intros H; apply Qlt_bool_iff in H; apply Qlt_bool_iff; lra.
Qed.

Lemma rigidity_is_monotone_witness :
  (571 # 1000) * (100 / 3) + 46 <= (571 # 1000) * (700 / 3) + 46
  /\ (Qgt_bool ((571 # 1000) * (100 / 3) + 46) 400 = true ->
      Qgt_bool ((571 # 1000) * (700 / 3) + 46) 400 = true)
  /\ (Qlt_bool ((571 # 1000) * (700 / 3) + 46) 160 = true ->
      Qlt_bool ((571 # 1000) * (100 / 3) + 46) 160 = true).
Proof.
  apply (rigidity_is_monotone
           {| params := {| A_RIG := 571 # 1000; B_RIG := 46;
                           RIG_LO_LIM := 160; RIG_HI_LIM := 400 |} |}
           100 700 3
           {| rigidity := (571 # 1000) * (100 / 3) + 46; h25 := 100;
              platform_amplitude := 3;
              pressure_ok :=
                negb (Qlt_bool ((571 # 1000) * (100 / 3) + 46) 160
                      || Qgt_bool ((571 # 1000) * (100 / 3) + 46) 400);
              underinflation := Qlt_bool ((571 # 1000) * (100 / 3) + 46) 160;
              overinflation := Qgt_bool ((571 # 1000) * (100 / 3) + 46) 400 |}
           {| rigidity := (571 # 1000) * (700 / 3) + 46; h25 := 700;
              platform_amplitude := 3;
              pressure_ok :=
                negb (Qlt_bool ((571 # 1000) * (700 / 3) + 46) 160
                      || Qgt_bool ((571 # 1000) * (700 / 3) + 46) 400);
              underinflation := Qlt_bool ((571 # 1000) * (700 / 3) + 46) 160;
              overinflation := Qgt_bool ((571 # 1000) * (700 / 3) + 46) 400 |});
    try reflexivity; discriminate.
Defined.

(** ** Evaluation of the minimum phase *)

Lemma trunc_of_nonnegative (x : Q) :
  0 <= x -> inject_Z (Qtrunc x) <= x /\ x < inject_Z (Qtrunc x) + 1.
Proof.
  intros H. unfold Qtrunc.
  assert (E : Qle_bool 0 x = true) by (apply Qle_bool_iff; exact H).
  rewrite E. split; [apply Qfloor_le |].
  pose proof (Qlt_floor x) as F. rewrite inject_Z_plus in F. exact F.
Qed.

Lemma trunc_of_negative (x : Q) :
  x < 0 -> x <= inject_Z (Qtrunc x) /\ inject_Z (Qtrunc x) < x + 1.
Proof.
  intros H. unfold Qtrunc.
  assert (E : Qle_bool 0 x = false) by (apply Qle_bool_false_iff; exact H).
  rewrite E. split; [apply Qle_ceiling |].
  pose proof (Qceiling_lt x) as F.
  unfold Zminus in F. rewrite inject_Z_plus, inject_Z_opp in F.
  change (inject_Z 1) with 1 in F. lra.
Qed.

(** X27.  With a measured minimum phase and the threshold configured,
    [evaluate_phase_shift] passes exactly when the phase reaches the
    threshold.  The integer phase is the phase cut off towards zero:
    rounded down for a phase that is not negative, rounded up for a
    negative one. *)
Theorem phase_evaluation :
  forall (TEST_PARAMETERS : list (string * Q))
         (phase_data : list (string * option Q)) (vehicle_type : string)
         (min_phase threshold : Q),
    dict_get phase_data "min_phase_shift" = Found (Some min_phase) ->
    dict_get TEST_PARAMETERS "PHASE_SHIFT_MIN" = Found threshold ->
    exists pass i,
      evaluate_phase_shift TEST_PARAMETERS phase_data vehicle_type
      = Found (Evaluated pass min_phase threshold i)
      /\ (pass = true <-> threshold <= min_phase)
      /\ (0 <= min_phase ->
          inject_Z i <= min_phase /\ min_phase < inject_Z i + 1)
      /\ (min_phase < 0 ->
          min_phase <= inject_Z i /\ inject_Z i < min_phase + 1).
Proof.
  intros params data vt p thr Hp Ht. unfold evaluate_phase_shift.
  rewrite Hp, Ht. eexists _, _. split; [reflexivity |].
  split; [apply Qle_bool_iff |].
  split; [apply trunc_of_nonnegative | apply trunc_of_negative].
Qed.

Lemma phase_evaluation_witness :
  exists pass i,
    evaluate_phase_shift [("PHASE_SHIFT_MIN"%string, 35)]
      [("min_phase_shift"%string, Some (425 # 10))] "M1"
    = Found (Evaluated pass (425 # 10) 35 i)
    /\ (pass = true <-> 35 <= 425 # 10)
    /\ (0 <= 425 # 10 -> inject_Z i <= 425 # 10 /\ 425 # 10 < inject_Z i + 1)
    /\ (425 # 10 < 0 -> 425 # 10 <= inject_Z i /\ inject_Z i < (425 # 10) + 1).
Proof.
  apply (phase_evaluation [("PHASE_SHIFT_MIN"%string, 35)]
           [("min_phase_shift"%string, Some (425 # 10))] "M1" (425 # 10) 35);
    reflexivity.
Defined.

(** X28.  Without a usable phase [evaluate_phase_shift] never passes: a stored
    [None] gives the failing result with its reason, and a dictionary
    without the key ["min_phase_shift"] raises [KeyError] before the
    threshold is looked up. *)
Theorem phase_evaluation_without_phase :
  forall (TEST_PARAMETERS : list (string * Q))
         (phase_data : list (string * option Q)) (vehicle_type : string),
    (dict_get phase_data "min_phase_shift" = Found None ->
     evaluate_phase_shift TEST_PARAMETERS phase_data vehicle_type
     = Found (NotMeasured false "No valid phase shift measured"))
    /\ (dict_get phase_data "min_phase_shift" = KeyError "min_phase_shift" ->
        evaluate_phase_shift TEST_PARAMETERS phase_data vehicle_type
        = KeyError "min_phase_shift")
    /\ ((forall v, ~ In ("min_phase_shift"%string, v) phase_data) ->
        evaluate_phase_shift TEST_PARAMETERS phase_data vehicle_type
        = KeyError "min_phase_shift").
Proof.
  intros params data vt. unfold evaluate_phase_shift.
  split; [intros ->; reflexivity | split; [intros ->; reflexivity |]].
  intros Hno.
  assert (E : dict_get data "min_phase_shift" = KeyError "min_phase_shift").
  { induction data as [| [k v] rest IH]; [reflexivity |].
    simpl. destruct (String.eqb k "min_phase_shift") eqn:Ek.
    - apply String.eqb_eq in Ek. subst k. exfalso. apply (Hno v). now left.
    - apply IH. intros v' Hin. apply (Hno v'). now right. }
  rewrite E. reflexivity.
Qed.

Lemma phase_evaluation_without_phase_witness :
  evaluate_phase_shift [("PHASE_SHIFT_MIN"%string, 35)]
    [("valid"%string, None)] "M1"
  = KeyError "min_phase_shift".
Proof.
  apply (proj2 (proj2 (phase_evaluation_without_phase
                         [("PHASE_SHIFT_MIN"%string, 35)]
                         [("valid"%string, None)] "M1"))).
  intros v [H | []]. discriminate H.
Defined.

(** ** Effectiveness *)

Lemma py_min_cases (a b : Q) :
  (b < a /\ py_min a b = b) \/ (a <= b /\ py_min a b = a).
Proof.
  unfold py_min. destruct (Qlt_bool b a) eqn:E.
  - left. apply Qlt_bool_iff in E. auto.
  - right. apply Qlt_bool_false_iff in E. auto.
Qed.

Lemma py_max_cases (a b : Q) :
  (a < b /\ py_max a b = b) \/ (b <= a /\ py_max a b = a).
Proof.
  unfold py_max. destruct (Qlt_bool a b) eqn:E.
  - left. apply Qlt_bool_iff in E. auto.
  - right. apply Qlt_bool_false_iff in E. auto.
Qed.

(** X29.  The effectiveness always lies between 0 and 100 percent, and it is 0
    whenever the amplitude is not positive. *)
Theorem effectiveness_is_a_percentage :
  forall weight amplitude : Q,
    0 <= effectiveness_of weight amplitude
    /\ effectiveness_of weight amplitude <= 100
    /\ (amplitude <= 0 -> effectiveness_of weight amplitude = 0).
Proof.
  intros w a. unfold effectiveness_of.
  destruct (Qgt_bool a 0) eqn:E.
  - apply Qlt_bool_iff in E.
    set (e := _calculate_ideal_amplitude w / a * 70).
    destruct (py_min_cases 100 e) as [[H1 ->] | [H1 ->]];
      [destruct (py_max_cases 0 e) as [[H2 ->] | [H2 ->]]
      | destruct (py_max_cases 0 100) as [[H2 ->] | [H2 ->]]];
      repeat split; try lra; intros; lra.
  - apply Qlt_bool_false_iff in E. repeat split; lra.
Qed.

(** X30.  For a weight that is not negative, a larger amplitude never gives a
    larger effectiveness. *)
Theorem effectiveness_falls_with_amplitude :
  forall weight amplitude amplitude' : Q,
    0 <= weight -> 0 < amplitude -> amplitude <= amplitude' ->
    effectiveness_of weight amplitude' <= effectiveness_of weight amplitude.
Proof.
  intros w a a' Hw Ha Haa. unfold effectiveness_of.
  assert (E1 : Qgt_bool a 0 = true) by (apply Qlt_bool_iff; lra).
  assert (E2 : Qgt_bool a' 0 = true) by (apply Qlt_bool_iff; lra).
  rewrite E1, E2.
  assert (Hi : 0 <= _calculate_ideal_amplitude w)
    by (unfold _calculate_ideal_amplitude; lra).
  set (ideal := _calculate_ideal_amplitude w) in *.
  assert (Hq : ideal / a' <= ideal / a).
  { apply Qle_shift_div_l; [lra |].
    assert (0 <= ideal / a') by (apply Qle_shift_div_l; lra).
    assert (E : ideal == ideal / a' * a') by (field; lra).
    set (r := ideal / a') in *. nra. }
  set (e := ideal / a * 70). set (e' := ideal / a' * 70).
  assert (He : e' <= e) by (unfold e, e'; lra).
  destruct (py_min_cases 100 e) as [[H1 ->] | [H1 ->]];
    destruct (py_min_cases 100 e') as [[H1' ->] | [H1' ->]];
    try lra.
  - destruct (py_max_cases 0 e) as [[H2 ->] | [H2 ->]];
      destruct (py_max_cases 0 e') as [[H2' ->] | [H2' ->]]; lra.
  - destruct (py_max_cases 0 100) as [[H2 ->] | [H2 ->]];
      destruct (py_max_cases 0 e') as [[H2' ->] | [H2' ->]]; lra.
Qed.

Lemma effectiveness_falls_with_amplitude_witness :
  effectiveness_of 500 50 <= effectiveness_of 500 25.
Proof.
  apply (effectiveness_falls_with_amplitude 500 25 50); lra.
Defined.

(** ** [interpolate] *)

(** X9.  Between two distinct abscissas [interpolate] passes through both
    points, and the crossing time of the C extension is the
    interpolation of the time over the force at the static weight. *)
Theorem interpolate_passes_through_the_points :
  forall x0 y0 x1 y1 x : Q,
    ~ x1 - x0 == 0 ->
    (exists v, interpolate x0 y0 x1 y1 x0 = Some v /\ v == y0)
    /\ (exists v, interpolate x0 y0 x1 y1 x1 = Some v /\ v == y1)
    /\ (exists v c, interpolate x0 y0 x1 y1 x = Some v
                    /\ C.cross_time x0 x1 y0 y1 x = Some c /\ v == c).
Proof.
  intros x0 y0 x1 y1 x Hne.
  unfold interpolate, C.cross_time, ieee_div.
  apply Qis_zero_false_iff in Hne. rewrite Hne.
  apply Qis_zero_false_iff in Hne.
  split; [| split].
  - eexists. split; [reflexivity | field; exact Hne].
  - eexists. split; [reflexivity | field; exact Hne].
  - eexists _, _. split; [reflexivity | split; [reflexivity |]].
    field. exact Hne.
Qed.

Lemma interpolate_passes_through_the_points_witness :
  (exists v, interpolate 640 0 660 (1 # 100) 640 = Some v /\ v == 0)
  /\ (exists v, interpolate 640 0 660 (1 # 100) 660 = Some v /\ v == 1 # 100)
  /\ (exists v c, interpolate 640 0 660 (1 # 100) 650 = Some v
                  /\ C.cross_time 640 660 0 (1 # 100) 650 = Some c /\ v == c).
Proof.
  apply (interpolate_passes_through_the_points 640 0 660 (1 # 100) 650).
  discriminate.
Defined.

(** ** Rows of a buffer that is not yet full *)

Lemma nondecreasing_cons (x : Q) (l : list Q) :
  nondecreasing l -> (forall y, hd_error l = Some y -> x <= y) ->
  nondecreasing (x :: l).
Proof.
  intros Hs Hh. destruct l as [| y rest]; [exact I |].
  split; [apply Hh; reflexivity | exact Hs].
Qed.

Lemma nondecreasing_tail (x : Q) (l : list Q) :
  nondecreasing (x :: l) -> nondecreasing l.
Proof. destruct l as [| y rest]; [auto | intros [_ H]; exact H]. Qed.

Lemma insert_keeps_order (x : Q * nat) (l : list (Q * nat)) :
  nondecreasing (map fst l) ->
  nondecreasing (map fst (Ring.insert_by_key x l)).
Proof.
  induction l as [| y rest IH]; intros Hs; [exact I |].
  cbn [Ring.insert_by_key].
  destruct (Qle_bool (fst x) (fst y)) eqn:E.
  - apply Qle_bool_iff in E. cbn [map]. split; [exact E | exact Hs].
  - apply Qle_bool_false_iff in E. cbn [map] in *.
    apply nondecreasing_cons.
    + apply IH. eapply nondecreasing_tail; exact Hs.
    + intros z Hz. destruct rest as [| y' rest']; cbn in Hz.
      * injection Hz as <-. lra.
      * destruct (Qle_bool (fst x) (fst y')); cbn in Hz; injection Hz as <-.
        -- lra.
        -- destruct Hs as [Hyy _]. exact Hyy.
Qed.

Lemma insert_keeps_all (P : Q * nat -> Prop) (x : Q * nat) (l : list (Q * nat)) :
  P x -> Forall P l -> Forall P (Ring.insert_by_key x l).
Proof.
  intros Hx. induction l as [| y rest IH]; intros Hl; cbn [Ring.insert_by_key].
  - constructor; [exact Hx | constructor].
  - destruct (Qle_bool _ _).
    + constructor; assumption.
    + inversion Hl; subst. constructor; auto.
Qed.

Lemma sorted_pairs (l : list (Q * nat)) (P : Q * nat -> Prop) :
  Forall P l ->
  nondecreasing (map fst (fold_right Ring.insert_by_key [] l))
  /\ Forall P (fold_right Ring.insert_by_key [] l).
Proof.
  induction l as [| x rest IH]; intros Hl; cbn [fold_right].
  - split; [exact I | constructor].
  - inversion Hl; subst. destruct (IH H2) as [Hs Hf].
    split; [now apply insert_keeps_order | now apply insert_keeps_all].
Qed.

Lemma combine_seq_entries (a : list Q) :
  forall s, Forall (fun ki => (s <= snd ki)%nat
                              /\ nth_error a (snd ki - s) = Some (fst ki))
                   (combine a (seq s (length a))).
Proof.
  induction a as [| x rest IH]; intros s; cbn [length seq combine];
    constructor.
  - cbn. rewrite Nat.sub_diag. auto.
  - eapply Forall_impl; [| apply (IH (S s))].
    intros [k i] [H1 H2]. cbn in *. split; [lia |].
    replace (i - s)%nat with (S (i - S s)) by lia. exact H2.
Qed.

(** X17.  As long as the buffer is not full, [get_data()] returns the rows in
    the order of their time stamps, whatever the order in which they
    were appended; a full buffer returns them in the order of arrival
    (see the round trip above). *)
Theorem partly_filled_buffer_is_read_by_time :
  forall (b : Ring.RingBuffer) (P F T Fr Ph : list Q) (n : nat),
    Ring.well_formed b ->
    (Ring._size b < Ring.capacity b)%nat ->
    Ring.get_data b None = Ring.Data P F T Fr Ph n ->
    nondecreasing T /\ n = Ring._size b /\ length T = n.
Proof.
  intros b P F T Fr Ph n (Hcap & Lp & Lf & Lt & Lq & Lh & Hw & Hs & Hfill & Hm)
    Hpart.
  unfold Ring.get_data.
  destruct (Ring._size b =? 0)%nat; [discriminate |].
  apply Nat.ltb_lt in Hpart. rewrite Hpart. apply Nat.ltb_lt in Hpart.
  intros H. injection H as <- <- <- <- <- <-.
  set (a := firstn (Ring._size b) (Ring._time_buffer b)).
  assert (La : length a = Ring._size b) by (unfold a; rewrite length_firstn; lia).
  pose proof (combine_seq_entries a 0) as Hent.
  destruct (sorted_pairs _ _ Hent) as [Hsorted Hall].
  unfold Ring.np_argsort, Ring.take. fold a.
  set (sp := fold_right Ring.insert_by_key [] (combine a (seq 0 (length a)))) in *.
  assert (E : map (item (Ring._time_buffer b)) (map snd sp) = map fst sp).
  { rewrite map_map. apply map_ext_in. intros [k i] Hin.
    rewrite Forall_forall in Hall. destruct (Hall _ Hin) as [_ Hk].
    cbn in *. rewrite Nat.sub_0_r in Hk.
    unfold a in Hk.
    assert (Hi : (i < Ring._size b)%nat).
    { rewrite <- La. apply nth_error_Some. unfold a. congruence. }
    rewrite nth_error_firstn in Hk.
    replace (i <? Ring._size b)%nat with true in Hk
      by (symmetry; apply Nat.ltb_lt; exact Hi).
    unfold item. now apply nth_error_nth. }
  rewrite E. split; [exact Hsorted | split; [reflexivity |]].
  rewrite length_map. fold (Ring.np_argsort a).
  replace (length sp) with (length (Ring.np_argsort a))
    by (unfold Ring.np_argsort; now rewrite length_map).
  rewrite length_argsort. exact La.
Qed.

Lemma partly_filled_buffer_is_read_by_time_witness :
  nondecreasing [5; 6; 7] /\ 3%nat = Ring._size part_buffer
  /\ length [5; 6; 7] = 3%nat.
Proof.
  apply (partly_filled_buffer_is_read_by_time part_buffer
           [2; 3; 1] [720; 730; 710] [5; 6; 7] [10; 10; 10] [42; 43; 41] 3).
  - unfold Ring.well_formed, part_buffer; simpl. repeat split; lia.
  - simpl. lia.
  - reflexivity.
Defined.

(** ** Examples for the properties above *)

Lemma python_peaks_are_spaced_tops_witness :
  (5 <= 55 < length platform_two_peaks - 5)%nat
  /\ tops platform_two_peaks (55 - 5) (55 + 6) 55.
Proof.
  apply (proj2 (python_peaks_are_spaced_tops platform_two_peaks 50) 55%nat).
  vm_compute. auto.
Defined.

Lemma c_peaks_are_bounded_spaced_tops_witness :
  (1 <= 55 < 61 - 1)%nat
  /\ tops platform_two_peaks (55 - 5) (Nat.min (55 + 5) 61) 55
  /\ item platform_two_peaks (55 + 1) < item platform_two_peaks 55.
Proof.
  apply (proj2 (proj2 (c_peaks_are_bounded_spaced_tops
                         platform_two_peaks 61 6 50)) 55%nat).
  vm_compute. auto.
Defined.

Lemma c_extension_minimum_over_kept_cycles_witness :
  (exists k,
      nth_error [586228895247761640000000000000 # 3256827195820898000000000000] k
      = Some (586228895247761640000000000000 # 3256827195820898000000000000)
      /\ nth_error [240100 # 24010] k = Some (240100 # 24010))
  /\ (forall x,
         In x [586228895247761640000000000000 # 3256827195820898000000000000] ->
         586228895247761640000000000000 # 3256827195820898000000000000 <= x)
  /\ (forall x, In x [240100 # 24010] -> 6 <= x /\ x <= 18)
  /\ (forall x,
         In x [586228895247761640000000000000 # 3256827195820898000000000000] ->
         0 <= x).
Proof.
  apply (c_extension_minimum_over_kept_cycles
           platform_late_top force_down_up time_490Hz 650 6 18 25
           (586228895247761640000000000000 # 3256827195820898000000000000)
           (240100 # 24010)
           [586228895247761640000000000000 # 3256827195820898000000000000]
           [240100 # 24010]).
  vm_compute. reflexivity.
Defined.

Lemma imbalance_zero_iff_equal_witness :
  _calculate_difference_percent 45 45 == 0.
Proof.
  apply (proj2 (imbalance_zero_iff_equal 45 45)). reflexivity.
Defined.

Lemma effectiveness_is_a_percentage_witness :
  effectiveness_of 500 0 = 0.
Proof.
  apply (proj2 (proj2 (effectiveness_is_a_percentage 500 0))). lra.
Defined.

(** ** Errors of the C extension *)

(** Past the parse and the length test the C function returns a
    dictionary whatever the samples are. *)
Lemma c_extension_returns (platform force time : list Q)
  (static_weight lo hi rfst_fmin : Q) :
  length force = length platform ->
  length time = length platform ->
  exists r,
    C.calculate_phase_shift platform force time [static_weight; lo; hi; rfst_fmin]
    = Ok r.
Proof.
  intros Hf Ht. unfold C.calculate_phase_shift, C.PyArg_ParseTuple.
  rewrite Hf, Ht, Nat.eqb_refl. cbn [negb orb].
  destruct (_ <? 2)%nat; [eauto |].
  destruct (fold_left _ (range 1 _) []) as [| c0 rest]; [eauto |].
  destruct (fold_left _ _ _) as [[a b] c]. eauto.
Qed.

Lemma c_extension_length_test (platform force time : list Q)
  (static_weight lo hi rfst_fmin : Q) :
  ~ (length force = length platform /\ length time = length platform) ->
  C.calculate_phase_shift platform force time [static_weight; lo; hi; rfst_fmin]
  = Raise ValueError.
Proof.
  intros Hne. unfold C.calculate_phase_shift, C.PyArg_ParseTuple.
  destruct (length force =? length platform)%nat eqn:E1; [| reflexivity].
  destruct (length time =? length platform)%nat eqn:E2; [| reflexivity].
  apply Nat.eqb_eq in E1, E2. tauto.
Qed.

Lemma c_extension_parse (platform force time floats : list Q) :
  length floats <> 4%nat ->
  C.calculate_phase_shift platform force time floats = Raise TypeError.
Proof.
  intros Hlen.
  destruct floats as [| a [| b [| c [| d [| e rest]]]]]; try reflexivity.
  now elim Hlen.
Qed.

(** X14.  What a call of [calculate_phase_shift] of the C extension raises
    is decided by the number of its arguments and the lengths of the
    arrays: a [TypeError] exactly when the three arrays are not followed
    by four floats, a [ValueError] exactly when they are and the arrays
    differ in length, and nothing otherwise: it then returns a
    dictionary, whatever the samples are.  [_calculate_with_c_extension]
    passes five floats, so it raises [TypeError] on every record and
    reaches neither the length test nor the search for peaks. *)
Theorem c_extension_errors_by_arguments :
  forall (platform force time floats : list Q),
    (C.calculate_phase_shift platform force time floats = Raise TypeError
     <-> length floats <> 4%nat)
    /\ (C.calculate_phase_shift platform force time floats = Raise ValueError
        <-> length floats = 4%nat
            /\ ~ (length force = length platform
                  /\ length time = length platform))
    /\ ((exists r, C.calculate_phase_shift platform force time floats = Ok r)
        <-> length floats = 4%nat
            /\ length force = length platform
            /\ length time = length platform)
    /\ (forall (static_weight : Q) (self : OptimizedPhaseCalculator),
           Py._calculate_with_c_extension platform force time static_weight self
           = (Raise TypeError, self)).
Proof.
  intros platform force time floats.
  assert (Hdec : (length force = length platform
                  /\ length time = length platform)
                 \/ ~ (length force = length platform
                       /\ length time = length platform)).
  { destruct (Nat.eq_dec (length force) (length platform));
      destruct (Nat.eq_dec (length time) (length platform)); tauto. }
  destruct (Nat.eq_dec (length floats) 4) as [H4 | H4].
  - destruct floats as [| a [| b [| c [| d [| e rest]]]]]; try discriminate H4.
    destruct Hdec as [[Hf Ht] | Hne].
    + destruct (c_extension_returns platform force time a b c d Hf Ht) as [r Hr].
      rewrite Hr.
      split; [split; [discriminate | intros H; now elim H] |].
      split; [split; [discriminate | intros [_ Hne]; tauto] |].
      split; [split; [auto | eauto] |].
      intros static_weight self. reflexivity.
    + rewrite (c_extension_length_test platform force time a b c d Hne).
      split; [split; [discriminate | intros H; now elim H] |].
      split; [split; auto |].
      split; [split; [intros [r Hr]; discriminate Hr | tauto] |].
      intros static_weight self. reflexivity.
  - rewrite (c_extension_parse platform force time floats H4).
    split; [split; auto |].
    split; [split; [discriminate | tauto] |].
    split; [split; [intros [r Hr]; discriminate Hr | tauto] |].
    intros static_weight self. reflexivity.
Qed.

Lemma c_extension_errors_by_arguments_witness :
  C.calculate_phase_shift [0; 0; 0] [700; 700] [0; 1; 2] [650; 6; 18; 25]
  = Raise ValueError
  /\ C.calculate_phase_shift [0; 0; 0] [700; 700; 700] [0; 1; 2]
       [650; 6; 18; 25; 25]
     = Raise TypeError
  /\ exists r,
       C.calculate_phase_shift [0; 0; 0] [700; 700; 700] [0; 1; 2]
         [650; 6; 18; 25]
       = Ok r.
Proof.
  split; [| split].
  - apply (proj1 (proj2 (c_extension_errors_by_arguments
                           [0; 0; 0] [700; 700] [0; 1; 2] [650; 6; 18; 25]))).
    split; [reflexivity |]. simpl. intros [H _]. discriminate H.
  - apply (proj1 (c_extension_errors_by_arguments
                    [0; 0; 0] [700; 700; 700] [0; 1; 2] [650; 6; 18; 25; 25])).
    simpl. discriminate.
  - apply (proj1 (proj2 (proj2 (c_extension_errors_by_arguments
                                  [0; 0; 0] [700; 700; 700] [0; 1; 2]
                                  [650; 6; 18; 25])))).
    simpl. auto.
Defined.

(** ** The Python path by the number of kept cycles *)

(** X8.  Once at least two peaks are found, the outcome of the Python path
    is decided by the array of phases that the cycle analysis returns.
    For an empty array it depends on the release of NumPy: up to 2.1 the
    invalid result is returned, from 2.2 on the truth test raises
    [ValueError].  A single phase equal to 0 gives the invalid result, a
    single phase other than 0 the valid result with that phase, and two
    or more phases make the truth test raise [ValueError], under every
    release. *)
Theorem python_result_by_number_of_cycles :
  forall (numpy : numpy_release) (self self' : OptimizedPhaseCalculator)
         (platform_data force_data time_data : list Q) (static_weight : Q)
         (phase_shifts frequencies : list Q),
    (2 <= length (Py._find_peaks_fast platform_data 50))%nat ->
    Py._analyze_cycles_vectorized platform_data force_data time_data
      static_weight (Py._find_peaks_fast platform_data 50) self
    = (Ok (phase_shifts, frequencies), self') ->
    (phase_shifts = [] ->
     fst (Py._calculate_optimized_python numpy platform_data force_data
            time_data static_weight self)
     = match numpy with
       | before_2_2 => Ok (Invalid "Keine gültigen Zyklen")
       | from_2_2 => Raise ValueError
       end)
    /\ (forall x, phase_shifts = [x] -> x == 0 ->
        fst (Py._calculate_optimized_python numpy platform_data force_data
               time_data static_weight self)
        = Ok (Invalid "Keine gültigen Zyklen"))
    /\ (forall x fr, phase_shifts = [x] -> frequencies = [fr] -> ~ x == 0 ->
        fst (Py._calculate_optimized_python numpy platform_data force_data
               time_data static_weight self)
        = Ok (Valid x fr [x] [fr]))
    /\ ((2 <= length phase_shifts)%nat ->
        fst (Py._calculate_optimized_python numpy platform_data force_data
               time_data static_weight self)
        = Raise ValueError).
Proof.
  intros numpy self self' pd fd td sw ps fs Hpeaks Ha.
  assert (E : Py._calculate_optimized_python numpy pd fd td sw self
              = (truth <~ call (Py.np_truth numpy ps) ;;
                 if negb truth then mret (Invalid "Keine gültigen Zyklen")
                 else
                   min_idx <~ call (Py.np_argmin ps) ;;
                   m <~ call (py_get ps min_idx) ;;
                   f <~ call (py_get fs min_idx) ;;
                   mret (Valid m f ps fs)) self').
  { unfold Py._calculate_optimized_python.
    replace (length (Py._find_peaks_fast pd 50) <? 2)%nat with false
      by (symmetry; apply Nat.ltb_ge; exact Hpeaks).
    unfold mbind at 1. rewrite Ha. reflexivity. }
  rewrite E. unfold mbind, call, mret.
  split; [| split; [| split]].
  - intros ->. destruct numpy; reflexivity.
  - intros x -> Hx. unfold Py.np_truth.
    apply Qis_zero_true_iff in Hx. rewrite Hx. reflexivity.
  - intros x fr -> -> Hx. unfold Py.np_truth.
    apply Qis_zero_false_iff in Hx. rewrite Hx. reflexivity.
  - intros Hlen. destruct ps as [| x [| y rest]]; simpl in Hlen; try lia.
    reflexivity.
Qed.

Lemma python_result_by_number_of_cycles_witness :
  fst (Py._calculate_optimized_python from_2_2 platform_three_peaks
         force_two_cycles time_111 650 (Py.__init__ false))
  = Raise ValueError.
Proof.
  refine (proj2 (proj2 (proj2 (python_result_by_number_of_cycles
                          from_2_2 (Py.__init__ false) (Py.__init__ false)
                          platform_three_peaks force_two_cycles time_111 650
                          (fst (Py_two_cycles_lists)) (snd (Py_two_cycles_lists))
                          _ _))) _).
  - vm_compute. lia.
  - vm_compute. reflexivity.
  - vm_compute. lia.
Defined.

Lemma python_phase_is_phi_from_cycle_start_witness :
  exists phase,
    Py._calculate_phase_fast [700; 600; 700] [0; 1; 2] 650 = Ok phase
    /\ phase == Spec.phi ((0 + (650 - 700) / (600 - 700) * (1 - 0)
                           + (1 + (650 - 600) / (700 - 600) * (2 - 1))) / 2)
                         0 (1 / (2 - 0)).
Proof.
  apply (python_phase_is_phi_from_cycle_start [700; 600; 700] [0; 1; 2] 650
           (0 + (650 - 700) / (600 - 700) * (1 - 0))
           (1 + (650 - 600) / (700 - 600) * (2 - 1)) 0 2 []).
  - reflexivity.
  - reflexivity.
  - reflexivity.
  - reflexivity.
Defined.
